(** * Music-Player: the playlist/track data-access layer ([src/database.py])

    A shallow embedding of the entity model ([Playlist], [Track], [Stream],
    the [playlist_track] association) and of [PlaylistManager], followed by
    the properties of the manager that the specification states.

    Modelling conventions.

    - A mapped entity held by the caller is represented by its primary key:
      within one session the ORM keeps one object per key, so Python object
      identity ([==], [in] on a list of entities) is equality of keys.
      [None] passed where an entity is expected is [None] of an [option];
      the playlist given to a membership operation is always an entity.
      Keys are drawn from a per-table sequence and never reused.
    - A table is the list of its rows in storage order; [.first()] returns
      the first row of that list that passes the filter.
    - [Track.playlists] is the list the Python code reads, tests with [in],
      appends to and removes from.  The rows of [playlist_track] and the
      back-populated [Playlist.tracks] are derived from it.
    - The manager state separates what is persisted ([engine]) from what the
      session sees ([session]); [session.commit()] copies the latter onto the
      former.  [commits] counts the calls to [session.commit()].
    - An operation is a function from the manager state to an outcome
      ([Ok v] or [Raise e]) and the state it leaves behind; a raised
      exception keeps the effects that happened before it.
    - [datetime.now()] is an extra argument [now] of the operations that
      reach it.
    - Failures of the storage layer (input/output, constraints) are outside
      the model: the one exception an operation can raise here is the
      [AttributeError] of an attribute access on [None]. *)

From Stdlib Require Import ZArith List String Bool Lia.
Import ListNotations.

Local Open Scope Z_scope.
Local Open Scope string_scope.

Definition datetime := Z.

(** Python truthiness of an optional string and of an optional integer. *)
Definition truthy_str (s : option string) : bool :=
  match s with
  | Some s => negb (String.eqb s "")
  | None => false
  end.

Definition truthy_int (n : option Z) : bool :=
  match n with
  | Some n => negb (Z.eqb n 0)
  | None => false
  end.

(** ** Entity model *)

Module Playlist.

Record t : Type := mk {
  id : Z;
  title : string;
  description : string;
  date_created : datetime;
  downloaded : bool
}.

(** [Playlist.__init__]; the key is assigned when the row is inserted. *)
Definition init (title : string) (date_created : datetime)
    (downloaded : bool) (description : option string) : t :=
  let description :=
    match description with
    | Some d => if truthy_str description then d else ""
    | None => ""
    end in
  mk 0 title description date_created downloaded.

Definition set_id (k : Z) (p : t) : t :=
  mk k (title p) (description p) (date_created p) (downloaded p).

Definition set_title (s : string) (p : t) : t :=
  mk (id p) s (description p) (date_created p) (downloaded p).

Definition set_description (s : string) (p : t) : t :=
  mk (id p) (title p) s (date_created p) (downloaded p).

End Playlist.

Module Stream.

Record t : Type := mk {
  id : Z;
  url : option string
}.

(** [Stream.__init__] *)
Definition init (url : option string) : t := mk 0 url.

Definition set_id (k : Z) (s : t) : t := mk k (url s).

End Stream.

Module Track.

Record t : Type := mk {
  id : Z;
  title : string;
  artist : string;
  album : string;
  duration : Z;
  path : option string;
  stream : option Stream.t;
  liked : bool;
  cover_art_url : string;
  playlists : list Z
}.

(** [Track.__init__]: a truthy [path] is stored, otherwise a [Stream] is
    built from [stream_url]. *)
Definition init (title artist album : string) (duration : Z)
    (playlists : list Z) (liked : bool) (path : option string)
    (stream_url : option string) (cover_art_url : string) : t :=
  if truthy_str path
  then mk 0 title artist album duration path None liked cover_art_url
          playlists
  else mk 0 title artist album duration None
          (Some (Stream.init stream_url)) liked cover_art_url playlists.

Definition set_id (k : Z) (x : t) : t :=
  mk k (title x) (artist x) (album x) (duration x) (path x) (stream x)
     (liked x) (cover_art_url x) (playlists x).

Definition set_stream (s : option Stream.t) (x : t) : t :=
  mk (id x) (title x) (artist x) (album x) (duration x) (path x) s
     (liked x) (cover_art_url x) (playlists x).

Definition set_cover_art_url (u : string) (x : t) : t :=
  mk (id x) (title x) (artist x) (album x) (duration x) (path x) (stream x)
     (liked x) u (playlists x).

Definition set_playlists (l : list Z) (x : t) : t :=
  mk (id x) (title x) (artist x) (album x) (duration x) (path x) (stream x)
     (liked x) (cover_art_url x) l.

End Track.

(** ** The store *)

Record Database : Type := mkDatabase {
  track : list Track.t;
  playlist : list Playlist.t;
  track_seq : Z;
  playlist_seq : Z;
  stream_seq : Z
}.

(** The store after [Base.metadata.create_all] on a new file. *)
Definition empty_db : Database := mkDatabase [] [] 1 1 1.

(** The [stream] table: the streams owned by the tracks. *)
Definition stream (d : Database) : list Stream.t :=
  flat_map (fun x => match Track.stream x with Some s => [s] | None => [] end)
           (track d).

(** The [playlist_track] table: one row [(playlist_id, track_id)] for each
    entry of each track's [playlists]. *)
Definition playlist_track (d : Database) : list (Z * Z) :=
  flat_map (fun x => map (fun p => (p, Track.id x)) (Track.playlists x))
           (track d).

Definition find_track (d : Database) (k : Z) : option Track.t :=
  find (fun x => Z.eqb (Track.id x) k) (track d).

Definition find_playlist (d : Database) (k : Z) : option Playlist.t :=
  find (fun p => Z.eqb (Playlist.id p) k) (playlist d).

(** [track.playlists] for the track with key [k]. *)
Definition playlists_of (d : Database) (k : Z) : list Z :=
  match find_track d k with
  | Some x => Track.playlists x
  | None => []
  end.

(** [playlist.tracks] for the playlist with key [k]: the keys of the tracks
    paired with it in [playlist_track]. *)
Definition tracks_of (d : Database) (k : Z) : list Z :=
  map snd (filter (fun r => Z.eqb (fst r) k) (playlist_track d)).

(** [Playlist.get_length] *)
Definition get_length (d : Database) (k : Z) : nat :=
  List.length (tracks_of d k).

(** [Playlist.get_total_duration] *)
Definition get_total_duration (d : Database) (k : Z) : Z :=
  fold_right Z.add 0
    (map (fun i => match find_track d i with
                   | Some x => Track.duration x
                   | None => 0
                   end) (tracks_of d k)).

Definition update_track (k : Z) (f : Track.t -> Track.t) (d : Database)
    : Database :=
  mkDatabase
    (map (fun x => if Z.eqb (Track.id x) k then f x else x) (track d))
    (playlist d) (track_seq d) (playlist_seq d) (stream_seq d).

Definition update_playlist (k : Z) (f : Playlist.t -> Playlist.t)
    (d : Database) : Database :=
  mkDatabase (track d)
    (map (fun p => if Z.eqb (Playlist.id p) k then f p else p) (playlist d))
    (track_seq d) (playlist_seq d) (stream_seq d).

(** Insertion of a new track row, and of its stream when it has one. *)
Definition insert_track (x : Track.t) (d : Database) : Database :=
  match Track.stream x with
  | Some s =>
      mkDatabase
        (track d ++
           [Track.set_stream (Some (Stream.set_id (stream_seq d) s))
              (Track.set_id (track_seq d) x)])
        (playlist d) (track_seq d + 1) (playlist_seq d) (stream_seq d + 1)
  | None =>
      mkDatabase (track d ++ [Track.set_id (track_seq d) x])
        (playlist d) (track_seq d + 1) (playlist_seq d) (stream_seq d)
  end.

Definition insert_playlist (p : Playlist.t) (d : Database) : Database :=
  mkDatabase (track d)
    (playlist d ++ [Playlist.set_id (playlist_seq d) p])
    (track_seq d) (playlist_seq d + 1) (stream_seq d).

(** Removal of a playlist row together with the [playlist_track] rows that
    refer to it; the [track] table keeps all its rows. *)
Definition remove_playlist (k : Z) (d : Database) : Database :=
  mkDatabase
    (map (fun x =>
            Track.set_playlists
              (filter (fun p => negb (Z.eqb p k)) (Track.playlists x)) x)
         (track d))
    (filter (fun p => negb (Z.eqb (Playlist.id p) k)) (playlist d))
    (track_seq d) (playlist_seq d) (stream_seq d).

(** ** Manager state and the monad of its operations *)

Record PlaylistManager : Type := mkManager {
  engine : Database;
  session : Database;
  commits : nat
}.

Inductive exn : Type :=
| AttributeError
| DetachedInstanceError.

Inductive result (A : Type) : Type :=
| Ok (a : A)
| Raise (e : exn).

Arguments Ok {A} a.
Arguments Raise {A} e.

Definition M (A : Type) : Type := PlaylistManager -> result A * PlaylistManager.

Definition ret {A} (a : A) : M A := fun m => (Ok a, m).

Definition raise {A} (e : exn) : M A := fun m => (Raise e, m).

Definition bind {A B} (c : M A) (k : A -> M B) : M B :=
  fun m =>
    match c m with
    | (Ok a, m') => k a m'
    | (Raise e, m') => (Raise e, m')
    end.

Declare Scope manager_scope.
Delimit Scope manager_scope with mgr.

Notation "x <- c ;; k" := (bind c (fun x => k))
  (at level 61, c at next level, right associativity) : manager_scope.
Notation "c ;; k" := (bind c (fun _ => k))
  (at level 61, right associativity) : manager_scope.

Local Open Scope manager_scope.

(** *** The session *)

Definition get_session : M Database := fun m => (Ok (session m), m).

Definition modify_session (f : Database -> Database) : M unit :=
  fun m => (Ok tt, mkManager (engine m) (f (session m)) (commits m)).

(** [session.query(Track).filter_by(...).first()] *)
Definition query_track_first (f : Track.t -> bool) : M (option Z) :=
  d <- get_session ;;
  ret (option_map Track.id (find f (track d))).

(** [session.query(Playlist).filter_by(...).first()] *)
Definition query_playlist_first (f : Playlist.t -> bool) : M (option Z) :=
  d <- get_session ;;
  ret (option_map Playlist.id (find f (playlist d))).

(** [session.add(track)]; yields the key the new row receives. *)
Definition session_add_track (x : Track.t) : M Z :=
  d <- get_session ;;
  modify_session (insert_track x) ;;
  ret (track_seq d).

(** [session.add(playlist)] *)
Definition session_add_playlist (p : Playlist.t) : M Z :=
  d <- get_session ;;
  modify_session (insert_playlist p) ;;
  ret (playlist_seq d).

(** [session.merge(entity)] for an entity of this session: the entity is
    already the session's own copy. *)
Definition session_merge : M unit := ret tt.

(** [session.delete(playlist)] *)
Definition session_delete_playlist (k : Z) : M unit :=
  modify_session (remove_playlist k).

(** [session.commit()] *)
Definition session_commit : M unit :=
  fun m => (Ok tt, mkManager (session m) (session m) (S (commits m))).

(** [session.close()]: the transaction in progress is ended without being
    committed; the session object stays in place and starts a new transaction
    when it is used again. *)
Definition session_close : M unit :=
  fun m => (Ok tt, mkManager (engine m) (engine m) (commits m)).

(** ** [PlaylistManager] *)

(** [PlaylistManager.__init__] over the content [file] of the store:
    [create_all] adds missing tables and no rows, then a session is opened. *)
Definition PlaylistManager_init (file : Database) : PlaylistManager :=
  mkManager file file 0.

(** The filters [filter_by(title=title)] and [filter_by(id=id)] on tracks
    and [filter_by(title=title)] on playlists. *)
Definition track_by_title (title : option string) (x : Track.t) : bool :=
  match title with
  | Some s => String.eqb (Track.title x) s
  | None => false
  end.

Definition track_by_id (id : option Z) (x : Track.t) : bool :=
  match id with
  | Some k => Z.eqb (Track.id x) k
  | None => false
  end.

Definition playlist_by_title (title : string) (p : Playlist.t) : bool :=
  String.eqb (Playlist.title p) title.

Definition get_track (title : option string) (id : option Z)
    : M (option Z) :=
  if truthy_str title then query_track_first (track_by_title title)
  else if truthy_int id then query_track_first (track_by_id id)
  else ret None.

Definition get_or_create_track (title artist album : string) (duration : Z)
    (stream_url : string) (cover_art_url : option string) : M Z :=
  track <- get_track (Some title) None ;;
  match track with
  | None =>
      let cover_art_url :=
        match cover_art_url with
        | Some u => if truthy_str cover_art_url then u else ""
        | None => ""
        end in
      track <- session_add_track
                 (Track.init title artist album duration [] false None
                    (Some stream_url) cover_art_url) ;;
      session_commit ;;
      ret track
  | Some track => ret track
  end.

Definition add_track_cover_art (track : option Z) (cover_art_url : string)
    : M unit :=
  match track with
  | None => ret tt
  | Some track =>
      modify_session
        (update_track track (Track.set_cover_art_url cover_art_url)) ;;
      session_merge ;;
      session_commit
  end.

Definition get_playlist (title : string) : M (option Z) :=
  query_playlist_first (playlist_by_title title).

Definition get_or_create_playlist (title : string) (now : datetime) : M Z :=
  playlist <- get_playlist title ;;
  match playlist with
  | Some playlist => ret playlist
  | None =>
      playlist <- session_add_playlist (Playlist.init title now false None) ;;
      session_commit ;;
      ret playlist
  end.

Definition playlist_exists (title : string) : M bool :=
  playlist <- get_playlist title ;;
  ret (match playlist with Some _ => true | None => false end).

Definition rename_playlist (playlist : option Z) (new_title : string)
    : M unit :=
  match playlist with
  | None => ret tt
  | Some playlist =>
      modify_session
        (update_playlist playlist (Playlist.set_title new_title)) ;;
      session_merge ;;
      session_commit
  end.

Definition edit_playlist_description (playlist : option Z)
    (new_description : string) : M unit :=
  match playlist with
  | None => ret tt
  | Some playlist =>
      modify_session
        (update_playlist playlist (Playlist.set_description new_description)) ;;
      session_merge ;;
      session_commit
  end.

Definition delete_playlist (playlist : option Z) : M unit :=
  match playlist with
  | None => ret tt
  | Some playlist =>
      session_delete_playlist playlist ;;
      session_commit
  end.

(** [track.playlists]: an attribute access, which fails on [None]. *)
Definition track_playlists (track : option Z) : M (list Z) :=
  match track with
  | None => raise AttributeError
  | Some track =>
      d <- get_session ;;
      ret (playlists_of d track)
  end.

(** [track.playlists = playlists] *)
Definition set_track_playlists (track : option Z) (playlists : list Z)
    : M unit :=
  match track with
  | None => raise AttributeError
  | Some track =>
      modify_session (update_track track (Track.set_playlists playlists))
  end.

(** [playlist in playlists] *)
Definition contains (playlist : Z) (playlists : list Z) : bool :=
  existsb (Z.eqb playlist) playlists.

(** [playlists.remove(playlist)]: drops the first occurrence. *)
Fixpoint list_remove (playlist : Z) (playlists : list Z) : list Z :=
  match playlists with
  | [] => []
  | p :: rest =>
      if Z.eqb playlist p then rest else p :: list_remove playlist rest
  end.

Definition add_track_to_playlist (track : option Z) (playlist : Z)
    : M unit :=
  playlists <- track_playlists track ;;
  if contains playlist playlists then ret tt
  else
    let playlists := (playlists ++ [playlist])%list in
    set_track_playlists track playlists ;;
    session_commit.

Definition create_and_add_track_to_playlist (title artist album : string)
    (duration : Z) (stream_url : string) (playlist : Z)
    (cover_art_url : option string) : M Z :=
  track <- get_or_create_track title artist album duration stream_url
             cover_art_url ;;
  add_track_to_playlist (Some track) playlist ;;
  ret track.

Definition add_track_to_liked_songs (track : option Z) (now : datetime)
    : M unit :=
  liked_songs_playlist <- get_or_create_playlist "Liked Songs" now ;;
  add_track_to_playlist track liked_songs_playlist.

Definition create_and_add_track_to_liked_songs (title artist album : string)
    (duration : Z) (stream_url : string) (cover_art_url : option string)
    (now : datetime) : M Z :=
  liked_songs_playlist <- get_or_create_playlist "Liked Songs" now ;;
  create_and_add_track_to_playlist title artist album duration stream_url
    liked_songs_playlist cover_art_url.

Definition remove_track_from_playlist (track : option Z) (playlist : Z)
    : M unit :=
  playlists <- track_playlists track ;;
  if contains playlist playlists then
    let playlists := list_remove playlist playlists in
    set_track_playlists track playlists ;;
    session_commit
  else ret tt.

Definition remove_track_from_liked_songs (track : option Z) (now : datetime)
    : M unit :=
  liked_songs_playlist <- get_or_create_playlist "Liked Songs" now ;;
  remove_track_from_playlist track liked_songs_playlist.

(** The left operand of [in] is evaluated before [track.playlists]. *)
Definition track_is_liked (track : option Z) (now : datetime) : M bool :=
  liked_songs_playlist <- get_or_create_playlist "Liked Songs" now ;;
  playlists <- track_playlists track ;;
  ret (contains liked_songs_playlist playlists).

(** [open_session]: the session of a constructed manager exists and is
    active, also after [close_session], so the call returns at once. *)
Definition open_session : M unit := ret tt.

Definition commit_session : M unit := session_commit.

Definition close_session : M unit := session_close.

(** ** Entity objects and the session that owns them

    What the caller holds is an object, and an object belongs to the session
    that loaded it.  [session.close()] detaches every object of the session;
    the session then goes on with objects of its own.  [session.commit()]
    expires every object of the session, so that after a commit no
    [playlists] collection is loaded until it is read again.  A detached
    object keeps the collections it had loaded; reading one it has not
    loaded raises [DetachedInstanceError].

    An entity object is its key together with the number of closes that
    preceded the session that loaded it; it is attached while that number is
    the number of closes so far.  [loaded] lists the tracks whose
    [playlists] the session holds loaded, and [kept] the detached track
    objects that hold theirs.  What the code does with a detached track that
    kept its collection, or with a detached playlist given to a membership
    operation, depends on how the mapper brings a detached object back into
    a session: there the result is [None]. *)

Record Entity : Type := mkEntity {
  key : Z;
  owner : nat
}.

Definition entity_eqb (a b : Entity) : bool :=
  Z.eqb (key a) (key b) && Nat.eqb (owner a) (owner b).

Record Objects : Type := mkObjects {
  manager : PlaylistManager;
  closes : nat;
  loaded : list Z;
  kept : list Entity
}.

Definition OM (A : Type) : Type := Objects -> option (result A * Objects).

Module Obj.

Definition ret {A} (a : A) : OM A := fun o => Some (Ok a, o).

Definition raise {A} (e : exn) : OM A := fun o => Some (Raise e, o).

Definition bind {A B} (c : OM A) (k : A -> OM B) : OM B :=
  fun o =>
    match c o with
    | Some (Ok a, o') => k a o'
    | Some (Raise e, o') => Some (Raise e, o')
    | None => None
    end.

(** The objects of a manager just constructed. *)
Definition init (m : PlaylistManager) : Objects := mkObjects m 0 [] [].

(** What stays loaded after a step of the manager: nothing when the step
    committed. *)
Definition expire (m m' : PlaylistManager) (l : list Z) : list Z :=
  if Nat.eqb (commits m') (commits m) then l else [].

(** An operation that reads no attribute of an entity given to it. *)
Definition lift {A} (c : M A) : OM A :=
  fun o =>
    let (r, m') := c (manager o) in
    Some (r, mkObjects m' (closes o) (expire (manager o) m' (loaded o))
               (kept o)).

(** The object the session has for a key. *)
Definition object_of (k : Z) : OM Entity :=
  fun o => Some (Ok (mkEntity k (closes o)), o).

Definition object_of_option (k : option Z) : OM (option Entity) :=
  match k with
  | Some k => bind (object_of k) (fun e => ret (Some e))
  | None => ret None
  end.

Definition get_track (title : option string) (id : option Z)
    : OM (option Entity) :=
  bind (lift (get_track title id)) object_of_option.

Definition get_or_create_track (title artist album : string) (duration : Z)
    (stream_url : string) (cover_art_url : option string) : OM Entity :=
  bind (lift (get_or_create_track title artist album duration stream_url
                cover_art_url)) object_of.

Definition get_playlist (title : string) : OM (option Entity) :=
  bind (lift (get_playlist title)) object_of_option.

Definition get_or_create_playlist (title : string) (now : datetime)
    : OM Entity :=
  bind (lift (get_or_create_playlist title now)) object_of.

Definition playlist_exists (title : string) : OM bool :=
  lift (playlist_exists title).

(** [track.playlists]: fails on [None], loads the collection of an attached
    track, and raises on a detached track that has not loaded it. *)
Definition track_playlists (track : option Entity) : OM (list Z) :=
  fun o =>
    match track with
    | None => Some (Raise AttributeError, o)
    | Some t =>
        if Nat.eqb (owner t) (closes o) then
          Some (Ok (playlists_of (session (manager o)) (key t)),
                mkObjects (manager o) (closes o) (key t :: loaded o) (kept o))
        else if Nat.ltb (owner t) (closes o) then
          if existsb (entity_eqb t) (kept o) then None
          else Some (Raise DetachedInstanceError, o)
        else None
    end.

(** [playlist in playlists] compares objects: it is the comparison of keys
    for a playlist of the session. *)
Definition attached (e : Entity) : OM unit :=
  fun o => if Nat.eqb (owner e) (closes o) then Some (Ok tt, o) else None.

(** [track.playlists = playlists], reached with an attached track only. *)
Definition set_track_playlists (track : option Entity) (playlists : list Z)
    : OM unit :=
  match track with
  | None => raise AttributeError
  | Some t =>
      bind (attached t)
        (fun _ => lift (set_track_playlists (Some (key t)) playlists))
  end.

Definition session_commit : OM unit := lift session_commit.

Definition add_track_to_playlist (track : option Entity) (playlist : Entity)
    : OM unit :=
  bind (track_playlists track) (fun playlists =>
  bind (attached playlist) (fun _ =>
  if contains (key playlist) playlists then ret tt
  else
    let playlists := (playlists ++ [key playlist])%list in
    bind (set_track_playlists track playlists) (fun _ => session_commit))).

Definition add_track_to_liked_songs (track : option Entity) (now : datetime)
    : OM unit :=
  bind (get_or_create_playlist "Liked Songs" now)
    (fun liked_songs_playlist =>
       add_track_to_playlist track liked_songs_playlist).

Definition remove_track_from_playlist (track : option Entity)
    (playlist : Entity) : OM unit :=
  bind (track_playlists track) (fun playlists =>
  bind (attached playlist) (fun _ =>
  if contains (key playlist) playlists then
    let playlists := list_remove (key playlist) playlists in
    bind (set_track_playlists track playlists) (fun _ => session_commit)
  else ret tt)).

Definition remove_track_from_liked_songs (track : option Entity)
    (now : datetime) : OM unit :=
  bind (get_or_create_playlist "Liked Songs" now)
    (fun liked_songs_playlist =>
       remove_track_from_playlist track liked_songs_playlist).

Definition track_is_liked (track : option Entity) (now : datetime)
    : OM bool :=
  bind (get_or_create_playlist "Liked Songs" now)
    (fun liked_songs_playlist =>
  bind (track_playlists track) (fun playlists =>
  ret (contains (key liked_songs_playlist) playlists))).

(** [close_session]: the objects of the session are detached, those that
    hold a loaded collection keep it, and the session goes on. *)
Definition close_session : OM unit :=
  fun o =>
    let (r, m') := close_session (manager o) in
    Some (r, mkObjects m' (S (closes o)) []
               (kept o ++ map (fun k => mkEntity k (closes o)) (loaded o))).

(** Every kept object belongs to a session that was closed. *)
Definition kept_detached (o : Objects) : bool :=
  forallb (fun e => Nat.ltb (owner e) (closes o)) (kept o).

End Obj.

(** ** Well-formed stores

    Keys are positive, below the sequence of their table and pairwise
    distinct, and no track lists a playlist twice.  The empty store is
    well formed and every operation of the manager keeps the store so. *)

Record wf_db (d : Database) : Prop := mk_wf_db {
  wf_track_seq : 0 < track_seq d;
  wf_playlist_seq : 0 < playlist_seq d;
  wf_track_ids : Forall (fun x => 0 < Track.id x < track_seq d) (track d);
  wf_track_nodup : NoDup (map Track.id (track d));
  wf_playlists_nodup : Forall (fun x => NoDup (Track.playlists x)) (track d);
  wf_playlist_ids :
    Forall (fun p => 0 < Playlist.id p < playlist_seq d) (playlist d);
  wf_playlist_nodup : NoDup (map Playlist.id (playlist d))
}.

Definition wf (m : PlaylistManager) : Prop :=
  wf_db (engine m) /\ wf_db (session m).

(** The track that [get_or_create_track] takes for the existing one: the
    result of [get_track(title=title)]. *)
Definition first_titled (title : string) (d : Database) : option Track.t :=
  if truthy_str (Some title)
  then find (track_by_title (Some title)) (track d)
  else None.

(** The key [get_or_create_playlist] answers with: that of the first row with
    the title, or the next key of the table when there is no such row. *)
Definition playlist_key (title : string) (d : Database) : Z :=
  match find (playlist_by_title title) (playlist d) with
  | Some p => Playlist.id p
  | None => playlist_seq d
  end.


(** [committed m m']: going from [m] to [m'] either changed nothing or ended
    with a commit that left nothing pending. *)
Definition committed (m m' : PlaylistManager) : Prop :=
  m' = m \/ (engine m' = session m' /\ (commits m < commits m')%nat).

(** ** Further invariants of the store *)

(** Every row of [playlist_track] names a playlist row and a track row. *)
Definition ref_ok (d : Database) : Prop :=
  forall r, In r (playlist_track d) ->
    (exists p, find_playlist d (fst r) = Some p) /\
    (exists x, find_track d (snd r) = Some x).

Definition refs (m : PlaylistManager) : Prop :=
  ref_ok (engine m) /\ ref_ok (session m).

(** Nothing is pending: the session shows what is persisted. *)
Definition clean (m : PlaylistManager) : Prop := engine m = session m.

(** No two playlist rows carry the same title. *)
Definition unique_titles (d : Database) : Prop :=
  NoDup (map Playlist.title (playlist d)).

(** Every track is a streamed one: it has no local path and owns a stream
    row whose key is positive, below the sequence and shared with no other
    track. *)
Definition streamed (d : Database) : Prop :=
  0 < stream_seq d /\
  Forall (fun x => Track.path x = None /\
                   exists s, Track.stream x = Some s /\
                             0 < Stream.id s < stream_seq d) (track d) /\
  NoDup (map Stream.id (stream d)).

(** Two stores whose tracks have, row by row, the same local path and the
    same stream, and that have the same stream sequence. *)
Definition same_sources (d d' : Database) : Prop :=
  map Track.path (track d') = map Track.path (track d) /\
  map Track.stream (track d') = map Track.stream (track d) /\
  stream_seq d' = stream_seq d.

(** The seconds a track contributes to a total duration. *)
Definition duration_of (d : Database) (k : Z) : Z :=
  match find_track d k with
  | Some x => Track.duration x
  | None => 0
  end.

(** ** Sample runs, from a new store *)

(** One track, "Song A", and no playlist. *)
Definition one_track : PlaylistManager :=
  snd (get_or_create_track "Song A" "Artist A" "Album A" 200
         "http://stream/a" None (PlaylistManager_init empty_db)).

(** "Song A" added to the playlist "Liked Songs". *)
Definition liked_track : PlaylistManager :=
  snd (add_track_to_liked_songs (Some 1) 1700000000 one_track).

(** After that, a second playlist, "Road Trip", with no track. *)
Definition road_trip : PlaylistManager :=
  snd (get_or_create_playlist "Road Trip" 1700000100 liked_track).

(** The row of "Song A". *)
Definition song_a : Track.t :=
  Track.mk 1 "Song A" "Artist A" "Album A" 200 None
    (Some (Stream.mk 1 (Some "http://stream/a"))) false "" [].

(** From a new store: "Song A", then a playlist "Mix", the track added to
    it, and the playlist renamed to "Liked Songs". *)
Definition renamed_mix : PlaylistManager :=
  snd ((track <- get_or_create_track "Song A" "Artist A" "Album A" 200
                   "http://stream/a" None ;;
        playlist <- get_or_create_playlist "Mix" 1700000000 ;;
        add_track_to_playlist (Some track) playlist ;;
        rename_playlist (Some playlist) "Liked Songs")
         (PlaylistManager_init empty_db)).

(** A track with the empty title followed by a track "Song B". *)
Definition untitled_track : PlaylistManager :=
  snd ((get_or_create_track "" "Artist A" "Album A" 200 "http://stream/a"
          None ;;
        get_or_create_track "Song B" "Artist B" "Album B" 245
          "http://stream/b" None)
         (PlaylistManager_init empty_db)).

(** * Properties *)

(** ** Lists and tables *)

Lemma find_app_last {A} (f : A -> bool) (l : list A) (x : A) :
  find f (l ++ [x]) =
  match find f l with
  | Some y => Some y
  | None => if f x then Some x else None
  end.
Proof.
  induction l as [|a l IH]; simpl.
  - reflexivity.
  - destruct (f a); [reflexivity | exact IH].
Qed.

Lemma find_map_update {A} (test sel : A -> bool) (g : A -> A) (l : list A) :
  (forall x, test (g x) = test x) ->
  find test (map (fun x => if sel x then g x else x) l) =
  option_map (fun x => if sel x then g x else x) (find test l).
Proof.
  intros Hg. induction l as [|a l IH]; simpl.
  - reflexivity.
  - destruct (sel a) eqn:Es.
    + rewrite Hg. destruct (test a); simpl; [now rewrite Es | exact IH].
    + destruct (test a); simpl; [now rewrite Es | exact IH].
Qed.

Lemma find_map_same {A} (test : A -> bool) (g : A -> A) (l : list A) :
  (forall x, test (g x) = test x) ->
  find test (map g l) = option_map g (find test l).
Proof.
  intros Hg. induction l as [|a l IH]; simpl.
  - reflexivity.
  - rewrite Hg. destruct (test a); [reflexivity | exact IH].
Qed.

Lemma find_none_filter {A} (f : A -> bool) (l : list A) :
  find f (filter (fun x => negb (f x)) l) = None.
Proof.
  induction l as [|a l IH]; simpl.
  - reflexivity.
  - destruct (f a) eqn:E; simpl; [exact IH | now rewrite E].
Qed.

Lemma contains_In (p : Z) (l : list Z) : contains p l = true <-> In p l.
Proof.
  unfold contains. rewrite existsb_exists. split.
  - intros [x [Hx E]]. apply Z.eqb_eq in E. now subst.
  - intros H. exists p. split; [assumption | apply Z.eqb_refl].
Qed.

Lemma contains_app_last (p : Z) (l : list Z) :
  contains p (l ++ [p]) = true.
Proof.
  apply contains_In, in_or_app. right. now left.
Qed.

Lemma list_remove_absent (p : Z) (l : list Z) :
  contains p l = false -> list_remove p l = l.
Proof.
  induction l as [|a l IH]; simpl; intros H.
  - reflexivity.
  - apply orb_false_iff in H as [Ha Hl]. rewrite Ha. now rewrite IH.
Qed.

Lemma list_remove_In (p q : Z) (l : list Z) :
  In q (list_remove p l) -> In q l.
Proof.
  induction l as [|a l IH]; simpl; intros H.
  - assumption.
  - destruct (Z.eqb p a); [now right |].
    destruct H as [H|H]; [now left | right; auto].
Qed.

Lemma list_remove_NoDup (p : Z) (l : list Z) :
  NoDup l -> NoDup (list_remove p l).
Proof.
  induction 1 as [|a l Hn Hd IH]; simpl.
  - constructor.
  - destruct (Z.eqb p a); [assumption |].
    constructor; [| assumption].
    intros Hin. apply Hn. eapply list_remove_In; eassumption.
Qed.

Lemma list_remove_NoDup_absent (p : Z) (l : list Z) :
  NoDup l -> contains p (list_remove p l) = false.
Proof.
  induction 1 as [|a l Hn Hd IH]; simpl.
  - reflexivity.
  - destruct (Z.eqb p a) eqn:E.
    + apply Z.eqb_eq in E. subst a.
      destruct (contains p l) eqn:C; [| reflexivity].
      apply contains_In in C. contradiction.
    + simpl. rewrite E. exact IH.
Qed.

Lemma NoDup_app_last (p : Z) (l : list Z) :
  NoDup l -> contains p l = false -> NoDup (l ++ [p]).
Proof.
  intros Hd Hc. apply NoDup_app.
  - assumption.
  - constructor; [intros [] | constructor].
  - intros x Hx [Hp | []]. subst x.
    apply contains_In in Hx. congruence.
Qed.

Lemma wf_empty_db : wf_db empty_db.
Proof.
  constructor; simpl; try lia; constructor.
Qed.

Lemma NoDup_map_app_fresh {A} (key : A -> Z) (l : list A) (x : A) (n : Z) :
  NoDup (map key l) ->
  Forall (fun y => 0 < key y < n) l ->
  key x = n ->
  NoDup (map key (l ++ [x])).
Proof.
  intros Hd Hb Hk. rewrite map_app. simpl. apply NoDup_app.
  - assumption.
  - constructor; [intros [] | constructor].
  - intros k Hin [Hx | []]. subst k.
    apply in_map_iff in Hin as [y [Hy Hin]].
    rewrite Forall_forall in Hb. specialize (Hb y Hin). lia.
Qed.

Lemma wf_insert_track (x : Track.t) (d : Database) :
  wf_db d -> NoDup (Track.playlists x) -> wf_db (insert_track x d).
Proof.
  intros [H1 H2 H3 H4 H5 H6 H7] Hx. unfold insert_track.
  destruct (Track.stream x); constructor; simpl; try lia; try assumption.
  all: try (apply Forall_app; split;
            [ eapply Forall_impl; [| exact H3]; simpl; intros; lia
            | constructor; [simpl; lia | constructor] ]).
  all: try (eapply NoDup_map_app_fresh; [exact H4 | exact H3 | reflexivity]).
  all: apply Forall_app; split; [assumption | constructor; [exact Hx | constructor]].
Qed.

Lemma wf_insert_playlist (p : Playlist.t) (d : Database) :
  wf_db d -> wf_db (insert_playlist p d).
Proof.
  intros [H1 H2 H3 H4 H5 H6 H7]. unfold insert_playlist.
  constructor; simpl; try lia; try assumption.
  - apply Forall_app; split.
    + eapply Forall_impl; [| exact H6]; simpl; intros; lia.
    + constructor; [simpl; lia | constructor].
  - eapply NoDup_map_app_fresh; [exact H7 | exact H6 | reflexivity].
Qed.

Lemma wf_update_track (k : Z) (f : Track.t -> Track.t) (d : Database) :
  (forall x, Track.id (f x) = Track.id x) ->
  (forall x, In x (track d) -> Track.id x = k -> NoDup (Track.playlists (f x))) ->
  wf_db d -> wf_db (update_track k f d).
Proof.
  intros Hid Hnd [H1 H2 H3 H4 H5 H6 H7]. unfold update_track.
  assert (Hmap : map Track.id
            (map (fun x => if Z.eqb (Track.id x) k then f x else x) (track d))
          = map Track.id (track d)).
  { rewrite map_map. apply map_ext. intros x.
    destruct (Z.eqb (Track.id x) k); [apply Hid | reflexivity]. }
  constructor; simpl; try assumption.
  - rewrite Forall_forall in *. intros y Hy.
    apply in_map_iff in Hy as [x [Hy Hin]]. subst y.
    specialize (H3 x Hin).
    destruct (Z.eqb (Track.id x) k); [rewrite Hid |]; assumption.
  - now rewrite Hmap.
  - rewrite Forall_forall in *. intros y Hy.
    apply in_map_iff in Hy as [x [Hy Hin]]. subst y.
    destruct (Z.eqb (Track.id x) k) eqn:E.
    + apply Hnd; [assumption | now apply Z.eqb_eq].
    + now apply H5.
Qed.

Lemma wf_update_playlist (k : Z) (f : Playlist.t -> Playlist.t)
    (d : Database) :
  (forall p, Playlist.id (f p) = Playlist.id p) ->
  wf_db d -> wf_db (update_playlist k f d).
Proof.
  intros Hid [H1 H2 H3 H4 H5 H6 H7]. unfold update_playlist.
  constructor; simpl; try assumption.
  - rewrite Forall_forall in *. intros y Hy.
    apply in_map_iff in Hy as [x [Hy Hin]]. subst y.
    specialize (H6 x Hin).
    destruct (Z.eqb (Playlist.id x) k); [rewrite Hid |]; assumption.
  - replace (map Playlist.id _) with (map Playlist.id (playlist d));
      [assumption |].
    rewrite map_map. apply map_ext. intros x.
    destruct (Z.eqb (Playlist.id x) k); [now rewrite Hid | reflexivity].
Qed.

Lemma NoDup_map_filter {A} (key : A -> Z) (f : A -> bool) (l : list A) :
  NoDup (map key l) -> NoDup (map key (filter f l)).
Proof.
  induction l as [|a l IH]; simpl; intros H.
  - constructor.
  - inversion H as [|? ? Hn Hd]; subst.
    destruct (f a); simpl; [| auto].
    constructor; [| auto].
    intros Hin. apply Hn.
    apply in_map_iff in Hin as [y [Hy Hin]].
    apply filter_In in Hin as [Hin _].
    apply in_map_iff. now exists y.
Qed.

Lemma wf_remove_playlist (k : Z) (d : Database) :
  wf_db d -> wf_db (remove_playlist k d).
Proof.
  intros [H1 H2 H3 H4 H5 H6 H7]. unfold remove_playlist.
  constructor; simpl; try assumption.
  - rewrite Forall_forall in *. intros y Hy.
    apply in_map_iff in Hy as [x [Hy Hin]]. subst y. simpl. now apply H3.
  - rewrite map_map. simpl. assumption.
  - rewrite Forall_forall in *. intros y Hy.
    apply in_map_iff in Hy as [x [Hy Hin]]. subst y. simpl.
    apply NoDup_filter. now apply H5.
  - rewrite Forall_forall in *. intros y Hy.
    apply filter_In in Hy as [Hy _]. now apply H6.
  - now apply NoDup_map_filter.
Qed.

(** ** The operations, case by case *)

Lemma get_track_run (title : option string) (id : option Z)
    (m : PlaylistManager) :
  get_track title id m =
  (Ok (if truthy_str title
       then option_map Track.id (find (track_by_title title) (track (session m)))
       else if truthy_int id
       then option_map Track.id (find (track_by_id id) (track (session m)))
       else None), m).
Proof.
  unfold get_track. destruct (truthy_str title); [reflexivity |].
  destruct (truthy_int id); reflexivity.
Qed.

Lemma get_playlist_run (title : string) (m : PlaylistManager) :
  get_playlist title m =
  (Ok (option_map Playlist.id
         (find (playlist_by_title title) (playlist (session m)))), m).
Proof. reflexivity. Qed.

Lemma get_or_create_playlist_found (title : string) (now : datetime)
    (m : PlaylistManager) (p : Playlist.t) :
  find (playlist_by_title title) (playlist (session m)) = Some p ->
  get_or_create_playlist title now m = (Ok (Playlist.id p), m).
Proof.
  intros H. unfold get_or_create_playlist, bind.
  rewrite get_playlist_run, H. reflexivity.
Qed.

Lemma get_or_create_playlist_created (title : string) (now : datetime)
    (m : PlaylistManager) :
  find (playlist_by_title title) (playlist (session m)) = None ->
  get_or_create_playlist title now m =
  (Ok (playlist_seq (session m)),
   let d := insert_playlist (Playlist.init title now false None) (session m) in
   mkManager d d (S (commits m))).
Proof.
  intros H. unfold get_or_create_playlist, bind.
  rewrite get_playlist_run, H. reflexivity.
Qed.

Lemma find_inserted_playlist (title : string) (now : datetime)
    (d : Database) :
  find (playlist_by_title title) (playlist d) = None ->
  find (playlist_by_title title)
       (playlist (insert_playlist (Playlist.init title now false None) d)) =
  Some (Playlist.set_id (playlist_seq d) (Playlist.init title now false None)).
Proof.
  intros H. simpl. rewrite find_app_last, H.
  unfold playlist_by_title. simpl. now rewrite String.eqb_refl.
Qed.

(** [get_or_create_playlist] always returns a key, and the row it names is
    the first one with the title in the state it leaves. *)
Lemma get_or_create_playlist_spec (title : string) (now : datetime)
    (m : PlaylistManager) :
  exists p,
    get_or_create_playlist title now m =
      (Ok (Playlist.id p), snd (get_or_create_playlist title now m)) /\
    find (playlist_by_title title)
         (playlist (session (snd (get_or_create_playlist title now m)))) =
      Some p.
Proof.
  destruct (find (playlist_by_title title) (playlist (session m))) as [p|] eqn:E.
  - exists p. rewrite (get_or_create_playlist_found _ _ _ _ E). now split.
  - eexists. rewrite (get_or_create_playlist_created _ _ _ E).
    split; [| cbn [snd session]; apply find_inserted_playlist; exact E].
    reflexivity.
Qed.

Lemma get_or_create_track_found (title artist album : string)
    (duration : Z) (stream_url : string) (cover_art_url : option string)
    (m : PlaylistManager) (x : Track.t) :
  first_titled title (session m) = Some x ->
  get_or_create_track title artist album duration stream_url cover_art_url m
  = (Ok (Track.id x), m).
Proof.
  intros H. unfold get_or_create_track, bind. rewrite get_track_run.
  unfold first_titled in H. destruct (truthy_str (Some title)).
  - now rewrite H.
  - discriminate.
Qed.

Lemma get_or_create_track_created (title artist album : string)
    (duration : Z) (stream_url : string) (cover_art_url : option string)
    (m : PlaylistManager) :
  first_titled title (session m) = None ->
  get_or_create_track title artist album duration stream_url cover_art_url m
  = (Ok (track_seq (session m)),
     let d := insert_track
                (Track.init title artist album duration [] false None
                   (Some stream_url)
                   (if truthy_str cover_art_url
                    then match cover_art_url with Some u => u | None => "" end
                    else ""))
                (session m) in
     mkManager d d (S (commits m))).
Proof.
  intros H. unfold get_or_create_track, bind. rewrite get_track_run.
  unfold first_titled in H.
  replace (if truthy_str (Some title)
           then option_map Track.id
                  (find (track_by_title (Some title)) (track (session m)))
           else if truthy_int None
           then option_map Track.id
                  (find (track_by_id None) (track (session m)))
           else None) with (@None Z).
  - destruct cover_art_url as [u|]; reflexivity.
  - destruct (truthy_str (Some title)); [now rewrite H | reflexivity].
Qed.

Lemma playlists_of_update (k : Z) (l : list Z) (d : Database) (x : Track.t) :
  find_track d k = Some x ->
  playlists_of (update_track k (Track.set_playlists l) d) k = l.
Proof.
  unfold playlists_of, find_track, update_track. simpl. intros H.
  rewrite find_map_update by reflexivity. rewrite H. simpl.
  apply find_some in H as [_ H]. now rewrite H.
Qed.

Lemma find_track_In (d : Database) (k : Z) (x : Track.t) :
  find_track d k = Some x -> In x (track d) /\ Track.id x = k.
Proof.
  intros H. apply find_some in H as [H1 H2].
  split; [assumption | now apply Z.eqb_eq].
Qed.

(** ** Every operation keeps the store well formed *)

Lemma wf_init (file : Database) : wf_db file -> wf (PlaylistManager_init file).
Proof. intros H. split; exact H. Qed.

Lemma wf_get_or_create_playlist (title : string) (now : datetime)
    (m : PlaylistManager) :
  wf m -> wf (snd (get_or_create_playlist title now m)).
Proof.
  intros Hw.
  destruct (find (playlist_by_title title) (playlist (session m))) as [p|] eqn:E.
  - now rewrite (get_or_create_playlist_found _ _ _ _ E).
  - rewrite (get_or_create_playlist_created _ _ _ E). simpl.
    destruct Hw as [_ Hs]. split; simpl; now apply wf_insert_playlist.
Qed.

Lemma wf_get_or_create_track (title artist album : string) (duration : Z)
    (stream_url : string) (cover_art_url : option string)
    (m : PlaylistManager) :
  wf m ->
  wf (snd (get_or_create_track title artist album duration stream_url
             cover_art_url m)).
Proof.
  intros Hw.
  destruct (first_titled title (session m)) as [x|] eqn:E.
  - now rewrite (get_or_create_track_found _ _ _ _ _ _ _ _ E).
  - rewrite (get_or_create_track_created _ _ _ _ _ _ _ E). simpl.
    destruct Hw as [_ Hs].
    split; simpl; apply wf_insert_track; try assumption; constructor.
Qed.

Lemma wf_set_playlists (k : Z) (l : list Z) (m : PlaylistManager) :
  NoDup l -> wf m ->
  wf (mkManager (update_track k (Track.set_playlists l) (session m))
                (update_track k (Track.set_playlists l) (session m))
                (S (commits m))).
Proof.
  intros Hl [_ Hs].
  split; simpl; apply wf_update_track; auto.
Qed.

Lemma wf_playlists_of (d : Database) (k : Z) :
  wf_db d -> NoDup (playlists_of d k).
Proof.
  intros Hw. unfold playlists_of.
  destruct (find_track d k) as [x|] eqn:E; [| constructor].
  apply find_track_In in E as [Hin _].
  pose proof (wf_playlists_nodup d Hw) as H.
  rewrite Forall_forall in H. now apply H.
Qed.

Lemma wf_add_track_to_playlist (track : option Z) (playlist : Z)
    (m : PlaylistManager) :
  wf m -> wf (snd (add_track_to_playlist track playlist m)).
Proof.
  intros Hw. destruct track as [k|]; [| exact Hw].
  unfold add_track_to_playlist, bind. simpl.
  destruct (contains playlist (playlists_of (session m) k)) eqn:C;
    simpl; [assumption |].
  apply wf_set_playlists; [| assumption].
  apply NoDup_app_last; [| assumption].
  apply wf_playlists_of, Hw.
Qed.

Lemma wf_remove_track_from_playlist (track : option Z) (playlist : Z)
    (m : PlaylistManager) :
  wf m -> wf (snd (remove_track_from_playlist track playlist m)).
Proof.
  intros Hw. destruct track as [k|]; [| exact Hw].
  unfold remove_track_from_playlist, bind. simpl.
  destruct (contains playlist (playlists_of (session m) k)) eqn:C;
    simpl; [| assumption].
  apply wf_set_playlists; [| assumption].
  apply list_remove_NoDup, wf_playlists_of, Hw.
Qed.

Lemma wf_add_track_to_liked_songs (track : option Z) (now : datetime)
    (m : PlaylistManager) :
  wf m -> wf (snd (add_track_to_liked_songs track now m)).
Proof.
  intros Hw. unfold add_track_to_liked_songs, bind.
  destruct (get_or_create_playlist_spec "Liked Songs" now m) as [p [E _]].
  rewrite E. apply wf_add_track_to_playlist.
  now apply wf_get_or_create_playlist.
Qed.

Lemma wf_remove_track_from_liked_songs (track : option Z) (now : datetime)
    (m : PlaylistManager) :
  wf m -> wf (snd (remove_track_from_liked_songs track now m)).
Proof.
  intros Hw. unfold remove_track_from_liked_songs, bind.
  destruct (get_or_create_playlist_spec "Liked Songs" now m) as [p [E _]].
  rewrite E. apply wf_remove_track_from_playlist.
  now apply wf_get_or_create_playlist.
Qed.

Lemma wf_track_is_liked (track : option Z) (now : datetime)
    (m : PlaylistManager) :
  wf m -> wf (snd (track_is_liked track now m)).
Proof.
  intros Hw. unfold track_is_liked, bind.
  destruct (get_or_create_playlist_spec "Liked Songs" now m) as [p [E _]].
  rewrite E. apply (wf_get_or_create_playlist "Liked Songs" now) in Hw.
  destruct track; exact Hw.
Qed.

Lemma wf_create_and_add_track_to_playlist (title artist album : string)
    (duration : Z) (stream_url : string) (playlist : Z)
    (cover_art_url : option string) (m : PlaylistManager) :
  wf m ->
  wf (snd (create_and_add_track_to_playlist title artist album duration
             stream_url playlist cover_art_url m)).
Proof.
  intros Hw. unfold create_and_add_track_to_playlist, bind.
  pose proof (wf_get_or_create_track title artist album duration stream_url
                cover_art_url m Hw) as H1.
  destruct (get_or_create_track title artist album duration stream_url
              cover_art_url m) as [[k|e] m1]; simpl in H1; [| exact H1].
  pose proof (wf_add_track_to_playlist (Some k) playlist m1 H1) as H2.
  destruct (add_track_to_playlist (Some k) playlist m1) as [[[]|e] m2];
    exact H2.
Qed.

Lemma wf_create_and_add_track_to_liked_songs (title artist album : string)
    (duration : Z) (stream_url : string) (cover_art_url : option string)
    (now : datetime) (m : PlaylistManager) :
  wf m ->
  wf (snd (create_and_add_track_to_liked_songs title artist album duration
             stream_url cover_art_url now m)).
Proof.
  intros Hw. unfold create_and_add_track_to_liked_songs, bind.
  destruct (get_or_create_playlist_spec "Liked Songs" now m) as [p [E _]].
  rewrite E. apply wf_create_and_add_track_to_playlist.
  now apply wf_get_or_create_playlist.
Qed.

Lemma wf_add_track_cover_art (track : option Z) (cover_art_url : string)
    (m : PlaylistManager) :
  wf m -> wf (snd (add_track_cover_art track cover_art_url m)).
Proof.
  intros Hw. destruct track as [k|]; [| exact Hw]. simpl.
  destruct Hw as [_ Hs]. split; simpl; apply wf_update_track; auto.
  all: intros x Hin _; simpl;
    pose proof (wf_playlists_nodup _ Hs) as H;
    rewrite Forall_forall in H; now apply H.
Qed.

Lemma wf_rename_playlist (playlist : option Z) (new_title : string)
    (m : PlaylistManager) :
  wf m -> wf (snd (rename_playlist playlist new_title m)).
Proof.
  intros Hw. destruct playlist as [k|]; [| exact Hw]. simpl.
  destruct Hw as [_ Hs]. split; simpl; apply wf_update_playlist; auto.
Qed.

Lemma wf_edit_playlist_description (playlist : option Z)
    (new_description : string) (m : PlaylistManager) :
  wf m -> wf (snd (edit_playlist_description playlist new_description m)).
Proof.
  intros Hw. destruct playlist as [k|]; [| exact Hw]. simpl.
  destruct Hw as [_ Hs]. split; simpl; apply wf_update_playlist; auto.
Qed.

Lemma wf_delete_playlist (playlist : option Z) (m : PlaylistManager) :
  wf m -> wf (snd (delete_playlist playlist m)).
Proof.
  intros Hw. destruct playlist as [k|]; [| exact Hw]. simpl.
  destruct Hw as [_ Hs]. split; simpl; now apply wf_remove_playlist.
Qed.

Lemma wf_close_session (m : PlaylistManager) :
  wf m -> wf (snd (close_session m)).
Proof. intros [He _]. split; exact He. Qed.

Lemma wf_commit_session (m : PlaylistManager) :
  wf m -> wf (snd (commit_session m)).
Proof. intros [_ Hs]. split; exact Hs. Qed.

Create HintDb store_wf.

#[local] Hint Resolve wf_empty_db wf_init wf_get_or_create_playlist
  wf_get_or_create_track wf_add_track_cover_art wf_rename_playlist
  wf_edit_playlist_description wf_delete_playlist wf_add_track_to_playlist
  wf_create_and_add_track_to_playlist wf_add_track_to_liked_songs
  wf_create_and_add_track_to_liked_songs wf_remove_track_from_playlist
  wf_remove_track_from_liked_songs wf_track_is_liked wf_close_session
  wf_commit_session : store_wf.

(** ** Get-or-create of playlists *)





(** ** Membership *)

Lemma update_track_absent (k : Z) (f : Track.t -> Track.t) (d : Database) :
  find_track d k = None -> update_track k f d = d.
Proof.
  unfold find_track, update_track. intros H. destruct d as [ts ps a b c].
  simpl in *. f_equal.
  rewrite <- (map_id ts) at 2. apply map_ext_in. intros x Hx.
  destruct (Z.eqb (Track.id x) k) eqn:E; [| reflexivity].
  now rewrite (find_none _ _ H x Hx) in E.
Qed.

Lemma add_track_to_playlist_member (T P : Z) (m : PlaylistManager) :
  contains P (playlists_of (session m) T) = true ->
  add_track_to_playlist (Some T) P m = (Ok tt, m).
Proof.
  intros H. unfold add_track_to_playlist, bind. simpl. now rewrite H.
Qed.

Lemma add_track_to_playlist_new (T P : Z) (m : PlaylistManager) :
  contains P (playlists_of (session m) T) = false ->
  add_track_to_playlist (Some T) P m =
  (Ok tt,
   let d := update_track T
              (Track.set_playlists (playlists_of (session m) T ++ [P]))
              (session m) in
   mkManager d d (S (commits m))).
Proof.
  intros H. unfold add_track_to_playlist, bind. simpl. now rewrite H.
Qed.

Lemma remove_track_from_playlist_absent (T P : Z) (m : PlaylistManager) :
  contains P (playlists_of (session m) T) = false ->
  remove_track_from_playlist (Some T) P m = (Ok tt, m).
Proof.
  intros H. unfold remove_track_from_playlist, bind. simpl. now rewrite H.
Qed.

Lemma remove_track_from_playlist_member (T P : Z) (m : PlaylistManager) :
  contains P (playlists_of (session m) T) = true ->
  remove_track_from_playlist (Some T) P m =
  (Ok tt,
   let d := update_track T
              (Track.set_playlists
                 (list_remove P (playlists_of (session m) T)))
              (session m) in
   mkManager d d (S (commits m))).
Proof.
  intros H. unfold remove_track_from_playlist, bind. simpl. now rewrite H.
Qed.

Lemma member_has_track (T P : Z) (d : Database) :
  contains P (playlists_of d T) = true -> exists x, find_track d T = Some x.
Proof.
  unfold playlists_of. destruct (find_track d T) as [x|].
  - intros _. now exists x.
  - discriminate.
Qed.

(** C2. Adding a track to a playlist a second time returns at once: the
    store and the number of tracks of the playlist are those left by the
    first add (and for a track of the store the whole manager state is);
    removing a track from a playlist it is not in leaves the manager state
    as it was. *)
Theorem membership_set_semantics (T P : Z) (m : PlaylistManager) :
  let m1 := snd (add_track_to_playlist (Some T) P m) in
  let m2 := snd (add_track_to_playlist (Some T) P m1) in
  fst (add_track_to_playlist (Some T) P m) = Ok tt /\
  fst (add_track_to_playlist (Some T) P m1) = Ok tt /\
  session m2 = session m1 /\
  engine m2 = engine m1 /\
  get_length (session m2) P = get_length (session m1) P /\
  (forall x, find_track (session m) T = Some x ->
     contains P (playlists_of (session m1) T) = true /\ m2 = m1) /\
  (contains P (playlists_of (session m) T) = false ->
   remove_track_from_playlist (Some T) P m = (Ok tt, m)).
Proof.
  intros m1 m2.
  assert (Hrem : contains P (playlists_of (session m) T) = false ->
                 remove_track_from_playlist (Some T) P m = (Ok tt, m))
    by apply remove_track_from_playlist_absent.
  destruct (contains P (playlists_of (session m) T)) eqn:C.
  - (* already a member: both adds return at once *)
    assert (E1 : m1 = m)
      by (unfold m1; now rewrite add_track_to_playlist_member).
    assert (E2 : m2 = m1).
    { unfold m2. rewrite E1. now rewrite add_track_to_playlist_member. }
    rewrite add_track_to_playlist_member by assumption.
    rewrite E2. repeat split; try reflexivity; try assumption.
    + rewrite E1. now rewrite add_track_to_playlist_member.
    + now rewrite E1.
  - rewrite (add_track_to_playlist_new _ _ _ C).
    assert (E1 : m1 =
              let d := update_track T
                         (Track.set_playlists
                            (playlists_of (session m) T ++ [P])) (session m) in
              mkManager d d (S (commits m)))
      by (unfold m1; now rewrite add_track_to_playlist_new).
    destruct (find_track (session m) T) as [x|] eqn:F.
    + (* the track is in the store: the first add records the pairing *)
      assert (C1 : contains P (playlists_of (session m1) T) = true).
      { rewrite E1. simpl. rewrite (playlists_of_update _ _ _ _ F).
        apply contains_app_last. }
      assert (E2 : m2 = m1)
        by (unfold m2; now rewrite add_track_to_playlist_member).
      rewrite add_track_to_playlist_member by assumption.
      rewrite E2. repeat split; try reflexivity; try assumption.
    + (* no such track: neither add changes a row *)
      assert (S1 : session m1 = session m /\ engine m1 = session m).
      { rewrite E1. simpl. now rewrite update_track_absent. }
      destruct S1 as [S1 S1'].
      assert (C1 : contains P (playlists_of (session m1) T) = false).
      { rewrite S1. exact C. }
      rewrite (add_track_to_playlist_new _ _ _ C1).
      assert (S2 : session m2 = session m1 /\ engine m2 = session m1).
      { unfold m2. rewrite (add_track_to_playlist_new _ _ _ C1). simpl.
        rewrite update_track_absent; [now split |]. now rewrite S1. }
      destruct S2 as [S2 S2'].
      repeat split; try reflexivity; try congruence; try discriminate.
      exact Hrem.
Qed.

Lemma membership_set_semantics_witness :
  find_track (session road_trip) 1
    = Some (Track.set_playlists [1] song_a) /\
  contains 2 (playlists_of (session road_trip) 1) = false /\
  remove_track_from_playlist (Some 1) 2 road_trip = (Ok tt, road_trip) /\
  snd (add_track_to_playlist (Some 1) 2
         (snd (add_track_to_playlist (Some 1) 2 road_trip))) =
  snd (add_track_to_playlist (Some 1) 2 road_trip).
Proof.
  split; [reflexivity |]. split; [reflexivity |].
  destruct (membership_set_semantics 1 2 road_trip)
    as [_ [_ [_ [_ [_ [Hadd Hrem]]]]]].
  split.
  - apply Hrem. reflexivity.
  - apply (Hadd (Track.set_playlists [1] song_a)). reflexivity.
Defined.

(** ** Absent operands *)

(** C7. [rename_playlist], [edit_playlist_description], [delete_playlist]
    and [add_track_cover_art] called with [None] for the entity return
    normally and leave the manager state as it was. *)
Theorem null_entity_is_a_no_op (x : string) (m : PlaylistManager) :
  rename_playlist None x m = (Ok tt, m) /\
  edit_playlist_description None x m = (Ok tt, m) /\
  delete_playlist None m = (Ok tt, m) /\
  add_track_cover_art None x m = (Ok tt, m).
Proof. repeat split. Qed.

(** C10. The membership operations have no guard for an absent track:
    [add_track_to_playlist], [remove_track_from_playlist],
    [add_track_to_liked_songs], [remove_track_from_liked_songs] and
    [track_is_liked] all raise when the track is [None]. *)
Theorem null_track_raises (P : Z) (now : datetime) (m : PlaylistManager) :
  fst (add_track_to_playlist None P m) = Raise AttributeError /\
  fst (remove_track_from_playlist None P m) = Raise AttributeError /\
  fst (add_track_to_liked_songs None now m) = Raise AttributeError /\
  fst (remove_track_from_liked_songs None now m) = Raise AttributeError /\
  fst (track_is_liked None now m) = Raise AttributeError.
Proof.
  split; [reflexivity |]. split; [reflexivity |].
  unfold add_track_to_liked_songs, remove_track_from_liked_songs,
    track_is_liked, bind.
  destruct (get_or_create_playlist_spec "Liked Songs" now m) as [p [E _]].
  rewrite E. repeat split.
Qed.

(** ** Deleting a playlist *)

Lemma In_playlist_track (d : Database) (r : Z * Z) :
  In r (playlist_track d) <->
  exists x, In x (track d) /\ In (fst r) (Track.playlists x) /\
            snd r = Track.id x.
Proof.
  unfold playlist_track. rewrite in_flat_map. split.
  - intros [x [Hx Hr]]. exists x. split; [assumption |].
    apply in_map_iff in Hr as [p [Hp Hin]]. subst r. simpl. now split.
  - intros [x [Hx [Hp Hs]]]. exists x. split; [assumption |].
    apply in_map_iff. exists (fst r). split; [| assumption].
    rewrite <- Hs. now destruct r.
Qed.

Lemma get_track_remove_playlist (title : option string) (id : option Z)
    (P : Z) (d : Database) :
  option_map Track.id
    (find (if truthy_str title then track_by_title title else track_by_id id)
          (track (remove_playlist P d))) =
  option_map Track.id
    (find (if truthy_str title then track_by_title title else track_by_id id)
          (track d)).
Proof.
  simpl. rewrite find_map_same.
  - now destruct (find _ (track d)).
  - intros x. now destruct (truthy_str title).
Qed.

(** C9. Deleting a playlist [P] removes its row and every [playlist_track]
    row that pairs it with a track, and nothing else: the other playlists and
    pairings stay, and the [track] table keeps every row, with the same key
    and the same fields, [P] only being dropped from its [playlists]; hence
    [get_track] answers after the deletion as it did before. *)
Theorem delete_playlist_keeps_tracks (P : Z) (m : PlaylistManager) :
  let m' := snd (delete_playlist (Some P) m) in
  fst (delete_playlist (Some P) m) = Ok tt /\
  engine m' = session m' /\
  find_playlist (session m') P = None /\
  (forall q, In q (playlist (session m')) <->
             In q (playlist (session m)) /\ Playlist.id q <> P) /\
  (forall r, In r (playlist_track (session m')) <->
             In r (playlist_track (session m)) /\ fst r <> P) /\
  map Track.id (track (session m')) = map Track.id (track (session m)) /\
  (forall x, In x (track (session m)) ->
     In (Track.set_playlists
           (filter (fun p => negb (Z.eqb p P)) (Track.playlists x)) x)
        (track (session m'))) /\
  (forall title id, fst (get_track title id m') = fst (get_track title id m)).
Proof.
  intros m'. subst m'. simpl.
  split; [reflexivity |]. split; [reflexivity |].
  split; [apply (find_none_filter (fun p => Z.eqb (Playlist.id p) P)) |].
  split.
  { intros q. rewrite filter_In, negb_true_iff, Z.eqb_neq. reflexivity. }
  split.
  { intros r. rewrite !In_playlist_track. simpl. split.
    - intros [y [Hy [Hp Hs]]].
      apply in_map_iff in Hy as [x [Hy Hx]]. subst y. simpl in *.
      apply filter_In in Hp as [Hp Hne].
      apply negb_true_iff, Z.eqb_neq in Hne.
      split; [now exists x | exact Hne].
    - intros [[x [Hx [Hp Hs]]] Hne].
      eexists. split; [apply in_map; exact Hx |]. simpl.
      split; [| assumption].
      apply filter_In. split; [assumption |].
      now apply negb_true_iff, Z.eqb_neq. }
  split; [now rewrite map_map |].
  split.
  { intros x Hx.
    apply (in_map (fun x => Track.set_playlists
            (filter (fun p => negb (Z.eqb p P)) (Track.playlists x)) x)).
    exact Hx. }
  intros title id. rewrite !get_track_run. simpl.
  pose proof (get_track_remove_playlist title id P (session m)) as H.
  simpl in H.
  destruct (truthy_str title).
  - now rewrite H.
  - destruct (truthy_int id); [now rewrite H | reflexivity].
Qed.

Lemma delete_playlist_keeps_tracks_witness :
  let m' := snd (delete_playlist (Some 1) liked_track) in
  In (Track.set_playlists [1] song_a) (track (session liked_track)) /\
  In (1, 1) (playlist_track (session liked_track)) /\
  In song_a (track (session m')) /\
  playlist (session m') = [] /\
  playlist_track (session m') = [] /\
  fst (get_track (Some "Song A") None m') = Ok (Some 1).
Proof.
  intros m'.
  destruct (delete_playlist_keeps_tracks 1 liked_track)
    as [_ [_ [_ [_ [_ [_ [Hin Hget]]]]]]].
  split; [now left |]. split; [now left |].
  split; [apply (Hin (Track.set_playlists [1] song_a)); now left |].
  split; [reflexivity |]. split; [reflexivity |].
  unfold m'. rewrite Hget. reflexivity.
Defined.

(** ** Liked Songs *)

Lemma get_or_create_playlist_fst (title : string) (now : datetime)
    (m : PlaylistManager) :
  fst (get_or_create_playlist title now m) =
  Ok (playlist_key title (session m)).
Proof.
  unfold playlist_key.
  destruct (find (playlist_by_title title) (playlist (session m)))
    as [p|] eqn:E.
  - now rewrite (get_or_create_playlist_found _ _ _ _ E).
  - now rewrite (get_or_create_playlist_created _ _ _ E).
Qed.

Lemma get_or_create_playlist_key (title : string) (now : datetime)
    (m : PlaylistManager) :
  playlist_key title (session (snd (get_or_create_playlist title now m))) =
  playlist_key title (session m).
Proof.
  unfold playlist_key at 2.
  destruct (find (playlist_by_title title) (playlist (session m)))
    as [p|] eqn:E.
  - rewrite (get_or_create_playlist_found _ _ _ _ E). simpl.
    unfold playlist_key. now rewrite E.
  - rewrite (get_or_create_playlist_created _ _ _ E). cbn [snd session].
    unfold playlist_key. now rewrite (find_inserted_playlist _ _ _ E).
Qed.

Lemma get_or_create_playlist_track (title : string) (now : datetime)
    (m : PlaylistManager) :
  track (session (snd (get_or_create_playlist title now m))) =
  track (session m).
Proof.
  destruct (find (playlist_by_title title) (playlist (session m)))
    as [p|] eqn:E.
  - now rewrite (get_or_create_playlist_found _ _ _ _ E).
  - now rewrite (get_or_create_playlist_created _ _ _ E).
Qed.

Lemma get_or_create_playlist_exists (title : string) (now : datetime)
    (m : PlaylistManager) :
  fst (playlist_exists title (snd (get_or_create_playlist title now m))) =
  Ok true.
Proof.
  destruct (get_or_create_playlist_spec title now m) as [p [_ F]].
  unfold playlist_exists, bind. rewrite get_playlist_run, F. reflexivity.
Qed.

Lemma get_or_create_playlist_run (title : string) (now : datetime)
    (m : PlaylistManager) :
  get_or_create_playlist title now m =
  (Ok (playlist_key title (session m)),
   snd (get_or_create_playlist title now m)).
Proof.
  rewrite <- (get_or_create_playlist_fst title now m).
  now destruct (get_or_create_playlist title now m).
Qed.

Lemma playlists_of_track (d d' : Database) (k : Z) :
  track d' = track d -> playlists_of d' k = playlists_of d k.
Proof. unfold playlists_of, find_track. now intros ->. Qed.

Lemma track_is_liked_run (T : Z) (now : datetime) (m : PlaylistManager) :
  track_is_liked (Some T) now m =
  (Ok (contains (playlist_key "Liked Songs" (session m))
         (playlists_of (session m) T)),
   snd (get_or_create_playlist "Liked Songs" now m)).
Proof.
  unfold track_is_liked, bind. rewrite get_or_create_playlist_run. simpl.
  now rewrite (playlists_of_track (session m)
                 (session (snd (get_or_create_playlist "Liked Songs" now m)))
                 T (get_or_create_playlist_track _ _ _)).
Qed.

Lemma add_track_to_liked_songs_run (T : Z) (now : datetime)
    (m : PlaylistManager) :
  add_track_to_liked_songs (Some T) now m =
  add_track_to_playlist (Some T) (playlist_key "Liked Songs" (session m))
    (snd (get_or_create_playlist "Liked Songs" now m)).
Proof.
  unfold add_track_to_liked_songs, bind at 1.
  now rewrite get_or_create_playlist_run.
Qed.

Lemma remove_track_from_liked_songs_run (T : Z) (now : datetime)
    (m : PlaylistManager) :
  remove_track_from_liked_songs (Some T) now m =
  remove_track_from_playlist (Some T)
    (playlist_key "Liked Songs" (session m))
    (snd (get_or_create_playlist "Liked Songs" now m)).
Proof.
  unfold remove_track_from_liked_songs, bind at 1.
  now rewrite get_or_create_playlist_run.
Qed.

Lemma same_key_same_row {A} (key : A -> Z) (l : list A) (a b : A) :
  NoDup (map key l) -> In a l -> In b l -> key a = key b -> a = b.
Proof.
  induction l as [|c l IH]; simpl; intros Hd Ha Hb E.
  - contradiction.
  - inversion Hd as [|? ? Hn Hd']; subst.
    destruct Ha as [Ha|Ha], Hb as [Hb|Hb]; subst.
    + reflexivity.
    + exfalso. apply Hn. rewrite E. now apply in_map.
    + exfalso. apply Hn. rewrite <- E. now apply in_map.
    + now apply IH.
Qed.

(** In a well-formed store the key of "Liked Songs" is either the key of a
    row with that title or the key of no row at all. *)
Lemma playlist_key_row (title : string) (d : Database) (p : Playlist.t) :
  wf_db d ->
  find_playlist d (playlist_key title d) = Some p ->
  Playlist.title p = title.
Proof.
  intros Hw Hp. unfold playlist_key in Hp.
  apply find_some in Hp as [Hin Hid]. apply Z.eqb_eq in Hid.
  destruct (find (playlist_by_title title) (playlist d)) as [q|] eqn:E.
  - apply find_some in E as [Hq Ht].
    assert (p = q)
      by (eapply same_key_same_row;
          [apply (wf_playlist_nodup d Hw) | assumption | assumption
          | exact Hid]).
    subst q. now apply String.eqb_eq.
  - pose proof (wf_playlist_ids d Hw) as Hb.
    rewrite Forall_forall in Hb. specialize (Hb p Hin). lia.
Qed.

Lemma playlist_key_ext (title : string) (d d' : Database) :
  playlist d' = playlist d -> playlist_seq d' = playlist_seq d ->
  playlist_key title d' = playlist_key title d.
Proof. unfold playlist_key. now intros -> ->. Qed.

Lemma playlist_exists_run (title : string) (m : PlaylistManager) :
  playlist_exists title m =
  (Ok (match find (playlist_by_title title) (playlist (session m)) with
       | Some _ => true
       | None => false
       end), m).
Proof.
  unfold playlist_exists, bind. rewrite get_playlist_run.
  now destruct (find _ _).
Qed.

Lemma add_track_to_playlist_effect (T P : Z) (m : PlaylistManager)
    (x : Track.t) :
  find_track (session m) T = Some x ->
  let m' := snd (add_track_to_playlist (Some T) P m) in
  fst (add_track_to_playlist (Some T) P m) = Ok tt /\
  contains P (playlists_of (session m') T) = true /\
  playlist (session m') = playlist (session m) /\
  playlist_seq (session m') = playlist_seq (session m).
Proof.
  intros F m'. subst m'.
  destruct (contains P (playlists_of (session m) T)) eqn:C.
  - rewrite (add_track_to_playlist_member _ _ _ C). now repeat split.
  - rewrite (add_track_to_playlist_new _ _ _ C). cbn [fst snd session].
    rewrite (playlists_of_update _ _ _ _ F).
    repeat split. apply contains_app_last.
Qed.

Lemma remove_track_from_playlist_effect (T P : Z) (m : PlaylistManager) :
  NoDup (playlists_of (session m) T) ->
  let m' := snd (remove_track_from_playlist (Some T) P m) in
  fst (remove_track_from_playlist (Some T) P m) = Ok tt /\
  contains P (playlists_of (session m') T) = false /\
  playlist (session m') = playlist (session m) /\
  playlist_seq (session m') = playlist_seq (session m).
Proof.
  intros Hd m'. subst m'.
  destruct (contains P (playlists_of (session m) T)) eqn:C.
  - rewrite (remove_track_from_playlist_member _ _ _ C). cbn [fst snd session].
    destruct (member_has_track _ _ _ C) as [x F].
    rewrite (playlists_of_update _ _ _ _ F).
    repeat split. now apply list_remove_NoDup_absent.
  - rewrite (remove_track_from_playlist_absent _ _ _ C). now repeat split.
Qed.

(** C4, as the code has it.  A track of the store all of whose playlists
    are playlists not titled "Liked Songs" is not liked, and so is a track
    that [get_or_create_track] has just created; right after
    [add_track_to_liked_songs] the track is liked; right after
    [remove_track_from_liked_songs] it is not.  Opening the manager adds no
    row: on a new store there is no "Liked Songs" playlist, and the
    playlist exists after any of the three operations. *)
Theorem liked_songs_singleton (T : Z) (x : Track.t)
    (now0 now1 now2 : datetime) (m : PlaylistManager) :
  wf m ->
  find_track (session m) T = Some x ->
  (Forall (fun k => exists p, find_playlist (session m) k = Some p /\
                              Playlist.title p <> "Liked Songs")
          (Track.playlists x) ->
   fst (track_is_liked (Some T) now0 m) = Ok false) /\
  (let m1 := snd (add_track_to_liked_songs (Some T) now1 m) in
   fst (add_track_to_liked_songs (Some T) now1 m) = Ok tt /\
   fst (track_is_liked (Some T) now2 m1) = Ok true) /\
  (let m1 := snd (remove_track_from_liked_songs (Some T) now1 m) in
   fst (remove_track_from_liked_songs (Some T) now1 m) = Ok tt /\
   fst (track_is_liked (Some T) now2 m1) = Ok false) /\
  (forall file, session (PlaylistManager_init file) = file) /\
  fst (playlist_exists "Liked Songs" (PlaylistManager_init empty_db))
    = Ok false /\
  fst (playlist_exists "Liked Songs"
         (snd (track_is_liked (Some T) now0 m))) = Ok true /\
  fst (playlist_exists "Liked Songs"
         (snd (add_track_to_liked_songs (Some T) now1 m))) = Ok true /\
  fst (playlist_exists "Liked Songs"
         (snd (remove_track_from_liked_songs (Some T) now1 m))) = Ok true /\
  (forall title artist album duration stream_url cover_art_url,
     first_titled title (session m) = None ->
     let r := get_or_create_track title artist album duration stream_url
                cover_art_url m in
     fst r = Ok (track_seq (session m)) /\
     fst (track_is_liked (Some (track_seq (session m))) now0 (snd r))
       = Ok false).
Proof.
  intros Hw F.
  set (K := playlist_key "Liked Songs" (session m)).
  set (m0 := snd (get_or_create_playlist "Liked Songs" now1 m)).
  assert (K0 : playlist_key "Liked Songs" (session m0) = K)
    by apply get_or_create_playlist_key.
  assert (F0 : find_track (session m0) T = Some x).
  { unfold find_track, m0. now rewrite get_or_create_playlist_track. }
  assert (W0 : wf m0) by now apply wf_get_or_create_playlist.
  assert (X0 : fst (playlist_exists "Liked Songs" m0) = Ok true)
    by apply get_or_create_playlist_exists.
  rewrite playlist_exists_run in X0. simpl in X0.
  split.
  { (* not liked before *)
    intros Hall. rewrite track_is_liked_run. simpl. f_equal.
    destruct (contains _ _) eqn:C; [| reflexivity]. exfalso.
    apply contains_In in C. unfold playlists_of in C. rewrite F in C.
    rewrite Forall_forall in Hall.
    destruct (Hall _ C) as [p [Hp Ht]].
    apply Ht. eapply playlist_key_row; [apply Hw | exact Hp]. }
  split.
  { (* liked after the add *)
    intros m1. subst m1. rewrite add_track_to_liked_songs_run. fold K m0.
    destruct (add_track_to_playlist_effect T K m0 x F0) as [A1 [A2 [A3 A4]]].
    split; [exact A1 |].
    rewrite track_is_liked_run. simpl. f_equal.
    rewrite (playlist_key_ext _ _ _ A3 A4), K0. exact A2. }
  split.
  { (* not liked after the removal *)
    intros m1. subst m1. rewrite remove_track_from_liked_songs_run.
    fold K m0.
    destruct (remove_track_from_playlist_effect T K m0
                (wf_playlists_of _ _ (proj2 W0))) as [A1 [A2 [A3 A4]]].
    split; [exact A1 |].
    rewrite track_is_liked_run. simpl. f_equal.
    rewrite (playlist_key_ext _ _ _ A3 A4), K0. exact A2. }
  split; [reflexivity |]. split; [reflexivity |].
  split.
  { rewrite track_is_liked_run. apply get_or_create_playlist_exists. }
  split.
  { rewrite add_track_to_liked_songs_run. fold K m0.
    destruct (add_track_to_playlist_effect T K m0 x F0) as [_ [_ [A3 _]]].
    rewrite playlist_exists_run. simpl. rewrite A3. exact X0. }
  split.
  { rewrite remove_track_from_liked_songs_run. fold K m0.
    destruct (remove_track_from_playlist_effect T K m0
                (wf_playlists_of _ _ (proj2 W0))) as [_ [_ [A3 _]]].
    rewrite playlist_exists_run. simpl. rewrite A3. exact X0. }
  (* a track just created is in no playlist *)
  intros title artist album duration stream_url cover_art_url E r.
  unfold r. rewrite (get_or_create_track_created _ _ _ _ _ _ _ E).
  split; [reflexivity |].
  rewrite track_is_liked_run. cbn [fst snd session]. f_equal.
  replace (playlists_of _ (track_seq (session m))) with (@nil Z);
    [reflexivity |].
  unfold playlists_of, find_track, insert_track, Track.init. simpl.
  rewrite find_app_last. simpl. rewrite Z.eqb_refl.
  destruct (find (fun y => Z.eqb (Track.id y) (track_seq (session m)))
                 (track (session m))) as [y|] eqn:Ey; [| reflexivity].
  apply find_some in Ey as [Hin Hid]. apply Z.eqb_eq in Hid.
  pose proof (wf_track_ids _ (proj2 Hw)) as Hb.
  rewrite Forall_forall in Hb. specialize (Hb y Hin). lia.
Qed.

Lemma wf_one_track : wf one_track.
Proof. unfold one_track. auto with store_wf. Qed.

Lemma wf_liked_track : wf liked_track.
Proof. unfold liked_track, one_track. auto with store_wf. Qed.

Lemma wf_untitled_track : wf untitled_track.
Proof.
  unfold untitled_track, bind.
  pose proof (wf_get_or_create_track "" "Artist A" "Album A" 200
                "http://stream/a" None _ (wf_init _ wf_empty_db)) as H.
  destruct (get_or_create_track "" "Artist A" "Album A" 200
              "http://stream/a" None (PlaylistManager_init empty_db))
    as [[k|e] m1]; simpl in H; [| exact H].
  now apply wf_get_or_create_track.
Qed.

Lemma liked_songs_singleton_witness :
  wf one_track /\
  find_track (session one_track) 1 = Some song_a /\
  fst (track_is_liked (Some 1) 1700000000 one_track) = Ok false /\
  fst (track_is_liked (Some 1) 1700000200
         (snd (add_track_to_liked_songs (Some 1) 1700000100 one_track)))
    = Ok true /\
  fst (track_is_liked (Some 1) 1700000200
         (snd (remove_track_from_liked_songs (Some 1) 1700000100 liked_track)))
    = Ok false /\
  first_titled "Song B" (session one_track) = None /\
  fst (track_is_liked (Some 2) 1700000000
         (snd (get_or_create_track "Song B" "Artist B" "Album B" 245
                 "http://stream/b" None one_track)))
    = Ok false.
Proof.
  split; [exact wf_one_track |]. split; [reflexivity |].
  destruct (liked_songs_singleton 1 song_a 1700000000 1700000100 1700000200
              one_track wf_one_track eq_refl)
    as (H0 & [_ H1] & _ & _ & _ & _ & _ & _ & H9).
  destruct (liked_songs_singleton 1 (Track.set_playlists [1] song_a)
              1700000000 1700000100 1700000200
              liked_track wf_liked_track eq_refl) as [_ [_ [[_ H2] _]]].
  split; [apply H0; constructor |].
  split; [exact H1 |]. split; [exact H2 |].
  split; [reflexivity |].
  apply (H9 "Song B" "Artist B" "Album B" 245 "http://stream/b" None
           eq_refl).
Defined.

(** C4 as stated fails: a track that no liked-songs operation has touched
    is liked once a playlist it is in is renamed to "Liked Songs".  From a
    new store, "Song A" is created and added to a playlist "Mix", and the
    playlist is renamed; [track_is_liked] then answers [true]. *)
Lemma renamed_playlist_is_liked_counterexample :
  track (session renamed_mix) = [Track.set_playlists [1] song_a] /\
  playlist (session renamed_mix)
    = [Playlist.mk 1 "Liked Songs" "" 1700000000 false] /\
  track_is_liked (Some 1) 1700000100 renamed_mix = (Ok true, renamed_mix).
Proof. repeat split. Qed.

(** ** Looking a track up *)

Lemma find_id_zero (d : Database) :
  wf_db d -> find (track_by_id (Some 0)) (track d) = None.
Proof.
  intros Hw. destruct (find _ _) as [x|] eqn:E; [| reflexivity].
  apply find_some in E as [Hin Hid]. simpl in Hid. apply Z.eqb_eq in Hid.
  pose proof (wf_track_ids d Hw) as Hb. rewrite Forall_forall in Hb.
  specialize (Hb x Hin). lia.
Qed.

Lemma find_all_false {A} (f : A -> bool) (l : list A) :
  (forall x, In x l -> f x = false) -> find f l = None.
Proof.
  intros H. destruct (find f l) as [x|] eqn:E; [| reflexivity].
  apply find_some in E as [Hin Hf]. rewrite (H x Hin) in Hf. discriminate.
Qed.

Lemma truthy_str_nonempty (t : string) :
  t <> "" -> truthy_str (Some t) = true.
Proof.
  intros H. simpl. apply negb_true_iff, String.eqb_neq. exact H.
Qed.

(** C5, as the code has it.  With a non-empty title the answer is the first
    track with that title, whatever the id; with no title and an id the
    answer is the first track with that id; when no track has the title, or
    the id, that is looked up, the answer is [None]; the call never raises
    and never changes the manager state. *)
Theorem get_track_lookup (m : PlaylistManager) :
  wf m ->
  (forall t id, t <> "" ->
     get_track (Some t) id m =
     (Ok (option_map Track.id
            (find (track_by_title (Some t)) (track (session m)))), m)) /\
  (forall k,
     get_track None (Some k) m =
     (Ok (option_map Track.id
            (find (track_by_id (Some k)) (track (session m)))), m)) /\
  (forall t id, t <> "" ->
     (forall x, In x (track (session m)) -> Track.title x <> t) ->
     get_track (Some t) id m = (Ok None, m)) /\
  (forall k,
     (forall x, In x (track (session m)) -> Track.id x <> k) ->
     get_track None (Some k) m = (Ok None, m)) /\
  (forall title id, exists r, get_track title id m = (Ok r, m)).
Proof.
  intros Hw.
  assert (Hid : forall k,
     get_track None (Some k) m =
     (Ok (option_map Track.id
            (find (track_by_id (Some k)) (track (session m)))), m)).
  { intros k. rewrite get_track_run. simpl.
    destruct (Z.eqb_spec k 0) as [->|Hk]; simpl; [| reflexivity].
    now rewrite (find_id_zero _ (proj2 Hw)). }
  assert (Ht : forall t id, t <> "" ->
     get_track (Some t) id m =
     (Ok (option_map Track.id
            (find (track_by_title (Some t)) (track (session m)))), m)).
  { intros t id Hne. rewrite get_track_run.
    now rewrite (truthy_str_nonempty t Hne). }
  split; [exact Ht |].
  split; [exact Hid |].
  split.
  { intros t id Hne Hno. rewrite (Ht t id Hne).
    rewrite find_all_false; [reflexivity |].
    intros x Hx. simpl. apply String.eqb_neq. now apply Hno. }
  split.
  { intros k Hno. rewrite Hid.
    rewrite find_all_false; [reflexivity |].
    intros x Hx. simpl. apply Z.eqb_neq. now apply Hno. }
  intros title id. rewrite get_track_run. eexists. reflexivity.
Qed.

Lemma get_track_lookup_witness :
  wf untitled_track /\
  "Song B" <> "" /\
  get_track (Some "Song B") (Some 1) untitled_track =
    (Ok (Some 2), untitled_track) /\
  get_track None (Some 1) untitled_track = (Ok (Some 1), untitled_track) /\
  get_track None (Some 0) untitled_track = (Ok None, untitled_track).
Proof.
  split; [exact wf_untitled_track |].
  split; [discriminate |].
  destruct (get_track_lookup untitled_track wf_untitled_track)
    as [H1 [H3 _]].
  split; [| split].
  - rewrite (H1 "Song B" (Some 1)); [reflexivity | discriminate].
  - rewrite (H3 1). reflexivity.
  - rewrite (H3 0). reflexivity.
Defined.

(** C5 as stated fails on an empty title: with the title [""] and the id
    [2], [get_track] answers with track 2, "Song B", although track 1 is
    the first track whose title is [""]. *)
Lemma get_track_empty_title_counterexample :
  fst (get_track (Some "") (Some 2) untitled_track) = Ok (Some 2) /\
  option_map Track.id
    (find (track_by_title (Some "")) (track (session untitled_track)))
    = Some 1 /\
  ~ (forall (m : PlaylistManager) (t : string) (k : Z),
       fst (get_track (Some t) (Some k) m) =
       Ok (option_map Track.id
             (find (track_by_title (Some t)) (track (session m))))).
Proof.
  split; [reflexivity |]. split; [reflexivity |].
  intros H. specialize (H untitled_track "" 2). discriminate H.
Qed.

(** ** Commits *)

Lemma committed_refl (m : PlaylistManager) : committed m m.
Proof. now left. Qed.

Lemma committed_trans (m m1 m2 : PlaylistManager) :
  committed m m1 -> committed m1 m2 -> committed m m2.
Proof.
  intros [->|[E1 L1]] [->|[E2 L2]].
  - now left.
  - now right.
  - now right.
  - right. split; [assumption | lia].
Qed.

Lemma committed_commit (d : Database) (m : PlaylistManager) :
  committed m (mkManager d d (S (commits m))).
Proof. right. simpl. split; [reflexivity | lia]. Qed.

Lemma committed_get_or_create_playlist (title : string) (now : datetime)
    (m : PlaylistManager) :
  committed m (snd (get_or_create_playlist title now m)).
Proof.
  destruct (find (playlist_by_title title) (playlist (session m)))
    as [p|] eqn:E.
  - rewrite (get_or_create_playlist_found _ _ _ _ E). apply committed_refl.
  - rewrite (get_or_create_playlist_created _ _ _ E). apply committed_commit.
Qed.

Lemma committed_get_or_create_track (title artist album : string)
    (duration : Z) (stream_url : string) (cover_art_url : option string)
    (m : PlaylistManager) :
  committed m (snd (get_or_create_track title artist album duration
                      stream_url cover_art_url m)).
Proof.
  destruct (first_titled title (session m)) as [x|] eqn:E.
  - rewrite (get_or_create_track_found _ _ _ _ _ _ _ _ E).
    apply committed_refl.
  - rewrite (get_or_create_track_created _ _ _ _ _ _ _ E).
    apply committed_commit.
Qed.

Lemma committed_add_track_to_playlist (track : option Z) (P : Z)
    (m : PlaylistManager) :
  committed m (snd (add_track_to_playlist track P m)).
Proof.
  destruct track as [T|]; [| apply committed_refl].
  destruct (contains P (playlists_of (session m) T)) eqn:C.
  - rewrite (add_track_to_playlist_member _ _ _ C). apply committed_refl.
  - rewrite (add_track_to_playlist_new _ _ _ C). apply committed_commit.
Qed.

Lemma committed_remove_track_from_playlist (track : option Z) (P : Z)
    (m : PlaylistManager) :
  committed m (snd (remove_track_from_playlist track P m)).
Proof.
  destruct track as [T|]; [| apply committed_refl].
  destruct (contains P (playlists_of (session m) T)) eqn:C.
  - rewrite (remove_track_from_playlist_member _ _ _ C).
    apply committed_commit.
  - rewrite (remove_track_from_playlist_absent _ _ _ C).
    apply committed_refl.
Qed.

Lemma committed_create_and_add_track_to_playlist
    (title artist album : string) (duration : Z) (stream_url : string)
    (P : Z) (cover_art_url : option string) (m : PlaylistManager) :
  committed m (snd (create_and_add_track_to_playlist title artist album
                      duration stream_url P cover_art_url m)).
Proof.
  unfold create_and_add_track_to_playlist, bind.
  pose proof (committed_get_or_create_track title artist album duration
                stream_url cover_art_url m) as H1.
  destruct (get_or_create_track title artist album duration stream_url
              cover_art_url m) as [[k|e] m1]; simpl in H1; [| exact H1].
  pose proof (committed_add_track_to_playlist (Some k) P m1) as H2.
  destruct (add_track_to_playlist (Some k) P m1) as [[[]|e] m2];
    simpl in *; eapply committed_trans; eassumption.
Qed.

(** C6, as the code has it.  [get_track], [get_playlist] and
    [playlist_exists] leave the manager state (store, session and number of
    commits) as it was; so does [track_is_liked] when a "Liked Songs"
    playlist exists, and otherwise it creates that playlist and commits.
    Every mutating operation either changes nothing or ends with a commit
    after which nothing is pending. *)
Theorem reads_and_commits (m : PlaylistManager) :
  (forall title id, snd (get_track title id m) = m) /\
  (forall title, snd (get_playlist title m) = m) /\
  (forall title, snd (playlist_exists title m) = m) /\
  (forall track now,
     fst (playlist_exists "Liked Songs" m) = Ok true ->
     snd (track_is_liked track now m) = m) /\
  (forall track now,
     fst (playlist_exists "Liked Songs" m) = Ok false ->
     let m' := snd (track_is_liked track now m) in
     engine m' = session m' /\ commits m' = S (commits m) /\
     fst (playlist_exists "Liked Songs" m') = Ok true) /\
  (forall title artist album duration stream_url cover_art_url,
     committed m (snd (get_or_create_track title artist album duration
                         stream_url cover_art_url m))) /\
  (forall track cover_art_url,
     committed m (snd (add_track_cover_art track cover_art_url m))) /\
  (forall title now,
     committed m (snd (get_or_create_playlist title now m))) /\
  (forall playlist new_title,
     committed m (snd (rename_playlist playlist new_title m))) /\
  (forall playlist new_description,
     committed m
       (snd (edit_playlist_description playlist new_description m))) /\
  (forall playlist, committed m (snd (delete_playlist playlist m))) /\
  (forall track playlist,
     committed m (snd (add_track_to_playlist track playlist m))) /\
  (forall title artist album duration stream_url playlist cover_art_url,
     committed m
       (snd (create_and_add_track_to_playlist title artist album duration
               stream_url playlist cover_art_url m))) /\
  (forall track now,
     committed m (snd (add_track_to_liked_songs track now m))) /\
  (forall title artist album duration stream_url cover_art_url now,
     committed m
       (snd (create_and_add_track_to_liked_songs title artist album duration
               stream_url cover_art_url now m))) /\
  (forall track playlist,
     committed m (snd (remove_track_from_playlist track playlist m))) /\
  (forall track now,
     committed m (snd (remove_track_from_liked_songs track now m))).
Proof.
  split; [intros; now rewrite get_track_run |].
  split; [reflexivity |].
  split; [intros; now rewrite playlist_exists_run |].
  split.
  { intros track now H. rewrite playlist_exists_run in H. simpl in H.
    destruct (find (playlist_by_title "Liked Songs") (playlist (session m)))
      as [p|] eqn:E; [| discriminate].
    unfold track_is_liked, bind.
    rewrite (get_or_create_playlist_found _ _ _ _ E).
    now destruct track. }
  split.
  { intros track now H m'. rewrite playlist_exists_run in H. simpl in H.
    destruct (find (playlist_by_title "Liked Songs") (playlist (session m)))
      as [p|] eqn:E; [discriminate |].
    assert (Em : m' = snd (get_or_create_playlist "Liked Songs" now m)).
    { unfold m', track_is_liked, bind.
      rewrite get_or_create_playlist_run. now destruct track. }
    rewrite Em. split; [| split].
    - now rewrite (get_or_create_playlist_created _ _ _ E).
    - now rewrite (get_or_create_playlist_created _ _ _ E).
    - apply get_or_create_playlist_exists. }
  split; [intros; apply committed_get_or_create_track |].
  split.
  { intros [k|] u; [right; simpl; split; [reflexivity | lia]
                   | apply committed_refl]. }
  split; [intros; apply committed_get_or_create_playlist |].
  split.
  { intros [k|] u; [right; simpl; split; [reflexivity | lia]
                   | apply committed_refl]. }
  split.
  { intros [k|] u; [right; simpl; split; [reflexivity | lia]
                   | apply committed_refl]. }
  split.
  { intros [k|]; [right; simpl; split; [reflexivity | lia]
                 | apply committed_refl]. }
  split; [intros; apply committed_add_track_to_playlist |].
  split; [intros; apply committed_create_and_add_track_to_playlist |].
  split.
  { intros track now. unfold add_track_to_liked_songs, bind.
    rewrite get_or_create_playlist_run.
    eapply committed_trans; [apply committed_get_or_create_playlist |].
    apply committed_add_track_to_playlist. }
  split.
  { intros. unfold create_and_add_track_to_liked_songs, bind.
    rewrite get_or_create_playlist_run.
    eapply committed_trans; [apply committed_get_or_create_playlist |].
    apply committed_create_and_add_track_to_playlist. }
  split; [intros; apply committed_remove_track_from_playlist |].
  intros track now. unfold remove_track_from_liked_songs, bind.
  rewrite get_or_create_playlist_run.
  eapply committed_trans; [apply committed_get_or_create_playlist |].
  apply committed_remove_track_from_playlist.
Qed.

Lemma reads_and_commits_witness :
  fst (playlist_exists "Liked Songs" liked_track) = Ok true /\
  snd (track_is_liked (Some 1) 1700000500 liked_track) = liked_track /\
  fst (playlist_exists "Liked Songs" one_track) = Ok false /\
  commits (snd (track_is_liked (Some 1) 1700000500 one_track)) =
    S (commits one_track).
Proof.
  split; [reflexivity |].
  split.
  - apply (proj1 (proj2 (proj2 (proj2 (reads_and_commits liked_track))))).
    reflexivity.
  - split; [reflexivity |].
    apply (proj1 (proj2 (proj2 (proj2 (proj2
             (reads_and_commits one_track))))) (Some 1) 1700000500).
    reflexivity.
Defined.

(** C6 as stated fails for [track_is_liked]: on a store with one track and
    no "Liked Songs" playlist the call answers [false], and it has inserted
    the playlist and committed. *)
Lemma track_is_liked_commits_counterexample :
  let m' := snd (track_is_liked (Some 1) 1700000500 one_track) in
  fst (track_is_liked (Some 1) 1700000500 one_track) = Ok false /\
  playlist (engine one_track) = [] /\
  playlist (engine m') =
    [Playlist.mk 1 "Liked Songs" "" 1700000500 false] /\
  commits m' = S (commits one_track) /\
  m' <> one_track.
Proof.
  repeat split. discriminate.
Qed.

(** ** Closing the session *)

Lemma expire_same (m : PlaylistManager) (l : list Z) : Obj.expire m m l = l.
Proof. unfold Obj.expire. now rewrite Nat.eqb_refl. Qed.

Lemma lift_run {A} (c : M A) (o : Objects) :
  Obj.lift c o =
  Some (fst (c (manager o)),
        mkObjects (snd (c (manager o))) (closes o)
          (Obj.expire (manager o) (snd (c (manager o))) (loaded o))
          (kept o)).
Proof. unfold Obj.lift. now destruct (c (manager o)). Qed.

Lemma lift_read {A} (c : M A) (o : Objects) :
  snd (c (manager o)) = manager o ->
  Obj.lift c o = Some (fst (c (manager o)), o).
Proof.
  intros E. rewrite lift_run, E, expire_same. now destruct o.
Qed.

Lemma obj_get_track_run (title : option string) (id : option Z)
    (o : Objects) :
  exists r,
    Obj.get_track title id o = Some (Ok r, o) /\
    fst (get_track title id (manager o)) = Ok (option_map key r) /\
    (forall e, r = Some e -> owner e = closes o).
Proof.
  unfold Obj.get_track, Obj.bind.
  rewrite lift_read by now rewrite get_track_run.
  rewrite get_track_run. cbn [fst].
  match goal with |- context [Ok ?v] => destruct v as [k|] eqn:E end.
  - exists (Some (mkEntity k (closes o))). simpl.
    repeat split. now intros e [= <-].
  - exists None. simpl. repeat split. discriminate.
Qed.

Lemma obj_get_playlist_run (title : string) (o : Objects) :
  exists r,
    Obj.get_playlist title o = Some (Ok r, o) /\
    option_map key r =
      option_map Playlist.id
        (find (playlist_by_title title) (playlist (session (manager o)))) /\
    (forall e, r = Some e -> owner e = closes o).
Proof.
  unfold Obj.get_playlist, Obj.bind.
  rewrite lift_read by reflexivity. rewrite get_playlist_run. cbn [fst].
  destruct (find (playlist_by_title title) (playlist (session (manager o))))
    as [p|].
  - exists (Some (mkEntity (Playlist.id p) (closes o))). simpl.
    repeat split. now intros e [= <-].
  - exists None. simpl. repeat split. discriminate.
Qed.

Lemma obj_get_or_create_playlist_run (title : string) (now : datetime)
    (o : Objects) :
  Obj.get_or_create_playlist title now o =
  Some (Ok (mkEntity (playlist_key title (session (manager o))) (closes o)),
        mkObjects (snd (get_or_create_playlist title now (manager o)))
          (closes o)
          (Obj.expire (manager o)
             (snd (get_or_create_playlist title now (manager o))) (loaded o))
          (kept o)).
Proof.
  unfold Obj.get_or_create_playlist, Obj.bind.
  rewrite lift_run, get_or_create_playlist_fst. reflexivity.
Qed.

Lemma obj_get_or_create_track_run (title artist album : string)
    (duration : Z) (stream_url : string) (cover_art_url : option string)
    (o : Objects) :
  exists k,
    fst (get_or_create_track title artist album duration stream_url
           cover_art_url (manager o)) = Ok k /\
    Obj.get_or_create_track title artist album duration stream_url
      cover_art_url o =
    Some (Ok (mkEntity k (closes o)),
          mkObjects
            (snd (get_or_create_track title artist album duration stream_url
                    cover_art_url (manager o)))
            (closes o)
            (Obj.expire (manager o)
               (snd (get_or_create_track title artist album duration
                       stream_url cover_art_url (manager o))) (loaded o))
            (kept o)).
Proof.
  unfold Obj.get_or_create_track, Obj.bind. rewrite lift_run.
  destruct (first_titled title (session (manager o))) as [x|] eqn:E.
  - rewrite (get_or_create_track_found _ _ _ _ _ _ _ _ E).
    eexists. split; reflexivity.
  - rewrite (get_or_create_track_created _ _ _ _ _ _ _ E).
    eexists. split; reflexivity.
Qed.

Lemma obj_close_session_run (o : Objects) :
  Obj.close_session o =
  Some (Ok tt,
        mkObjects (snd (close_session (manager o))) (S (closes o)) []
          (kept o ++ map (fun k => mkEntity k (closes o)) (loaded o))).
Proof. reflexivity. Qed.

(** Reading [playlists] on a track of a closed session that has not loaded
    it raises. *)
Lemma detached_track_playlists (t : Entity) (o : Objects) :
  (owner t < closes o)%nat ->
  existsb (entity_eqb t) (kept o) = false ->
  Obj.track_playlists (Some t) o = Some (Raise DetachedInstanceError, o).
Proof.
  intros Hlt Hk. unfold Obj.track_playlists.
  destruct (Nat.eqb_spec (owner t) (closes o)) as [E|_]; [lia |].
  destruct (Nat.ltb_spec (owner t) (closes o)) as [_|E]; [| lia].
  now rewrite Hk.
Qed.

(** On objects of the session the membership operations act on the manager
    as they are described on keys. *)
Lemma attached_track_playlists (t : Entity) (o : Objects) :
  owner t = closes o ->
  Obj.track_playlists (Some t) o =
  Some (fst (track_playlists (Some (key t)) (manager o)),
        mkObjects (manager o) (closes o) (key t :: loaded o) (kept o)).
Proof.
  intros E. unfold Obj.track_playlists. apply Nat.eqb_eq in E.
  now rewrite E.
Qed.

Lemma attached_add_track_to_playlist (t P : Entity) (o : Objects) :
  owner t = closes o -> owner P = closes o ->
  exists l,
    Obj.add_track_to_playlist (Some t) P o =
    Some (fst (add_track_to_playlist (Some (key t)) (key P) (manager o)),
          mkObjects
            (snd (add_track_to_playlist (Some (key t)) (key P) (manager o)))
            (closes o) l (kept o)).
Proof.
  intros Et EP. unfold Obj.add_track_to_playlist, Obj.bind at 1.
  rewrite (attached_track_playlists t o Et). cbn [fst].
  unfold Obj.bind at 1, Obj.attached. cbn [closes].
  apply Nat.eqb_eq in EP. rewrite EP.
  destruct (contains (key P) (playlists_of (session (manager o)) (key t)))
    eqn:C; simpl; rewrite C.
  - rewrite (add_track_to_playlist_member _ _ _ C). eexists. reflexivity.
  - rewrite (add_track_to_playlist_new _ _ _ C).
    unfold Obj.bind, Obj.set_track_playlists, Obj.attached. cbn [closes].
    apply Nat.eqb_eq in Et. rewrite Et. simpl. eexists. reflexivity.
Qed.

Lemma attached_remove_track_from_playlist (t P : Entity) (o : Objects) :
  owner t = closes o -> owner P = closes o ->
  exists l,
    Obj.remove_track_from_playlist (Some t) P o =
    Some (fst (remove_track_from_playlist (Some (key t)) (key P)
                 (manager o)),
          mkObjects
            (snd (remove_track_from_playlist (Some (key t)) (key P)
                    (manager o)))
            (closes o) l (kept o)).
Proof.
  intros Et EP. unfold Obj.remove_track_from_playlist, Obj.bind at 1.
  rewrite (attached_track_playlists t o Et). cbn [fst].
  unfold Obj.bind at 1, Obj.attached. cbn [closes].
  apply Nat.eqb_eq in EP. rewrite EP.
  destruct (contains (key P) (playlists_of (session (manager o)) (key t)))
    eqn:C; simpl; rewrite C.
  - rewrite (remove_track_from_playlist_member _ _ _ C).
    unfold Obj.bind, Obj.set_track_playlists, Obj.attached. cbn [closes].
    apply Nat.eqb_eq in Et. rewrite Et. simpl. eexists. reflexivity.
  - rewrite (remove_track_from_playlist_absent _ _ _ C).
    eexists. reflexivity.
Qed.

Lemma kept_detached_absent (t : Entity) (o : Objects) :
  Obj.kept_detached o = true -> owner t = closes o ->
  existsb (entity_eqb t) (kept o) = false.
Proof.
  unfold Obj.kept_detached. intros Hk Et.
  destruct (existsb (entity_eqb t) (kept o)) eqn:E; [| reflexivity].
  apply existsb_exists in E as [e [He Heq]].
  rewrite forallb_forall in Hk. specialize (Hk e He).
  apply Nat.ltb_lt in Hk.
  unfold entity_eqb in Heq. apply andb_true_iff in Heq as [_ Heq].
  apply Nat.eqb_eq in Heq. lia.
Qed.

(** C8, as the code has it.  [close_session] ends the unit of work in
    progress, dropping what was not committed, detaches the objects of the
    session and leaves the session in place: no operation looks at whether
    the session was closed or opens another one.  The lookups and the
    get-or-create operations that follow run on the same session, answer
    from the persisted store and hand out objects of the session.  A
    membership operation given a track object of a closed session raises
    [DetachedInstanceError] when the object has not kept its [playlists]
    loaded, as is the case of a track obtained from [get_or_create_track]
    when nothing was loaded. *)
Theorem close_session_keeps_session (o : Objects) :
  let m := manager o in
  let o' := mkObjects (snd (close_session m)) (S (closes o)) []
              (kept o ++ map (fun k => mkEntity k (closes o)) (loaded o)) in
  Obj.close_session o = Some (Ok tt, o') /\
  engine (manager o') = engine m /\
  session (manager o') = engine m /\
  commits (manager o') = commits m /\
  (engine m = session m -> manager o' = m) /\
  open_session (manager o') = (Ok tt, manager o') /\
  (forall title id,
     get_track title id (manager o') =
     get_track title id (mkManager (engine m) (engine m) (commits m)) /\
     exists r,
       Obj.get_track title id o' = Some (Ok r, o') /\
       fst (get_track title id (manager o')) = Ok (option_map key r) /\
       (forall e, r = Some e -> owner e = closes o')) /\
  (forall title,
     exists r,
       Obj.get_playlist title o' = Some (Ok r, o') /\
       option_map key r =
         option_map Playlist.id
           (find (playlist_by_title title) (playlist (engine m))) /\
       (forall e, r = Some e -> owner e = closes o')) /\
  (forall title, exists b, Obj.playlist_exists title o' = Some (Ok b, o')) /\
  (forall title now,
     exists p o'',
       Obj.get_or_create_playlist title now o' = Some (Ok p, o'') /\
       key p = playlist_key title (engine m) /\
       owner p = closes o' /\ closes o'' = closes o') /\
  (forall title artist album duration stream_url cover_art_url,
     exists t o'',
       Obj.get_or_create_track title artist album duration stream_url
         cover_art_url o' = Some (Ok t, o'') /\
       owner t = closes o' /\ closes o'' = closes o') /\
  (forall t,
     (owner t <= closes o)%nat ->
     existsb (entity_eqb t) (kept o') = false ->
     (forall P,
        Obj.add_track_to_playlist (Some t) P o' =
        Some (Raise DetachedInstanceError, o')) /\
     (forall P,
        Obj.remove_track_from_playlist (Some t) P o' =
        Some (Raise DetachedInstanceError, o')) /\
     (forall now,
        exists o'',
          Obj.add_track_to_liked_songs (Some t) now o' =
          Some (Raise DetachedInstanceError, o'') /\
          closes o'' = closes o') /\
     (forall now,
        exists o'',
          Obj.remove_track_from_liked_songs (Some t) now o' =
          Some (Raise DetachedInstanceError, o'') /\
          closes o'' = closes o') /\
     (forall now,
        exists o'',
          Obj.track_is_liked (Some t) now o' =
          Some (Raise DetachedInstanceError, o'') /\
          closes o'' = closes o')) /\
  (Obj.kept_detached o = true -> loaded o = [] ->
   forall title artist album duration stream_url cover_art_url P,
     exists o'',
       Obj.bind
         (Obj.get_or_create_track title artist album duration stream_url
            cover_art_url)
         (fun t =>
            Obj.bind Obj.close_session
              (fun _ => Obj.add_track_to_playlist (Some t) P)) o
       = Some (Raise DetachedInstanceError, o'') /\
       closes o'' = S (closes o)).
Proof.
  intros m o'.
  split; [reflexivity |]. split; [reflexivity |]. split; [reflexivity |].
  split; [reflexivity |].
  split.
  { intros E. subst o' m. destruct (manager o) as [e s c]. simpl in *.
    now subst. }
  split; [reflexivity |].
  split.
  { intros title id. split; [reflexivity |]. apply obj_get_track_run. }
  split; [intros title; apply obj_get_playlist_run |].
  split.
  { intros title. unfold Obj.playlist_exists.
    rewrite lift_read by now rewrite playlist_exists_run.
    eexists. reflexivity. }
  split.
  { intros title now. rewrite obj_get_or_create_playlist_run.
    eexists. eexists. split; [reflexivity |]. now repeat split. }
  split.
  { intros title artist album duration stream_url cover_art_url.
    destruct (obj_get_or_create_track_run title artist album duration
                stream_url cover_art_url o') as [k [_ E]].
    rewrite E. eexists. eexists. split; [reflexivity |]. now split. }
  split.
  { intros t Ht Hk.
    assert (Hlt : (owner t < closes o')%nat) by (simpl; lia).
    assert (Hraise : forall o1,
              closes o1 = closes o' -> kept o1 = kept o' ->
              Obj.track_playlists (Some t) o1 =
              Some (Raise DetachedInstanceError, o1)).
    { intros o1 E1 E2. apply detached_track_playlists.
      - now rewrite E1.
      - now rewrite E2. }
    split; [| split; [| split; [| split]]].
    - intros P. unfold Obj.add_track_to_playlist, Obj.bind.
      now rewrite (Hraise o' eq_refl eq_refl).
    - intros P. unfold Obj.remove_track_from_playlist, Obj.bind.
      now rewrite (Hraise o' eq_refl eq_refl).
    - intros now. unfold Obj.add_track_to_liked_songs, Obj.bind at 1.
      rewrite obj_get_or_create_playlist_run.
      unfold Obj.add_track_to_playlist, Obj.bind.
      rewrite Hraise by reflexivity. eexists. split; reflexivity.
    - intros now. unfold Obj.remove_track_from_liked_songs, Obj.bind at 1.
      rewrite obj_get_or_create_playlist_run.
      unfold Obj.remove_track_from_playlist, Obj.bind.
      rewrite Hraise by reflexivity. eexists. split; reflexivity.
    - intros now. unfold Obj.track_is_liked, Obj.bind at 1.
      rewrite obj_get_or_create_playlist_run.
      unfold Obj.bind.
      rewrite Hraise by reflexivity. eexists. split; reflexivity. }
  intros Hk Hl title artist album duration stream_url cover_art_url P.
  destruct (obj_get_or_create_track_run title artist album duration
              stream_url cover_art_url o) as [k [_ E]].
  unfold Obj.bind at 1. rewrite E.
  unfold Obj.bind at 1. rewrite obj_close_session_run.
  cbn [manager closes loaded kept].
  unfold Obj.add_track_to_playlist, Obj.bind.
  rewrite detached_track_playlists.
  - eexists. split; reflexivity.
  - simpl. lia.
  - cbn [kept]. rewrite Hl. unfold Obj.expire.
    destruct (Nat.eqb _ _); simpl; rewrite app_nil_r;
      now apply kept_detached_absent.
Qed.

Lemma close_session_keeps_session_witness :
  let o := Obj.init liked_track in
  let o' := mkObjects liked_track 1 [] [] in
  engine liked_track = session liked_track /\
  Obj.close_session o = Some (Ok tt, o') /\
  existsb (entity_eqb (mkEntity 1 0)) (kept o') = false /\
  Obj.add_track_to_playlist (Some (mkEntity 1 0)) (mkEntity 1 1) o' =
    Some (Raise DetachedInstanceError, o') /\
  Obj.kept_detached o = true /\ loaded o = [] /\
  (exists o'',
     Obj.bind
       (Obj.get_or_create_track "Song A" "Artist A" "Album A" 200
          "http://stream/a" None)
       (fun t =>
          Obj.bind Obj.close_session
            (fun _ => Obj.add_track_to_playlist (Some t) (mkEntity 1 1))) o
     = Some (Raise DetachedInstanceError, o'')).
Proof.
  intros o o'.
  destruct (close_session_keeps_session o)
    as (A1 & _ & _ & _ & A5 & _ & _ & _ & _ & _ & _ & A12 & A13).
  assert (Em : snd (close_session (manager o)) = liked_track)
    by (apply A5; reflexivity).
  split; [reflexivity |].
  split; [exact A1 |].
  split; [reflexivity |].
  split.
  - apply (proj1 (A12 (mkEntity 1 0) (le_n 0) eq_refl) (mkEntity 1 1)).
  - split; [reflexivity |]. split; [reflexivity |].
    destruct (A13 eq_refl eq_refl "Song A" "Artist A" "Album A" 200
                "http://stream/a" None (mkEntity 1 1)) as [o'' [E _]].
    now exists o''.
Defined.

(** C8 as stated fails: after [close_session] a lookup through the same
    session does not raise but answers, here that the playlist exists and
    which track has the title. *)
Lemma closed_session_answers_counterexample :
  fst ((close_session ;; playlist_exists "Liked Songs") liked_track)
    = Ok true /\
  (forall e,
     fst ((close_session ;; playlist_exists "Liked Songs") liked_track)
     <> Raise e) /\
  fst ((close_session ;; get_track (Some "Song A") None) liked_track)
    = Ok (Some 1).
Proof.
  split; [reflexivity |]. split; [| reflexivity].
  intros e. discriminate.
Qed.

(** ** Get-or-create of tracks *)

Lemma find_inserted_track (title : string) (x : Track.t) (d : Database) :
  Track.title x = title ->
  find (track_by_title (Some title)) (track d) = None ->
  option_map Track.id
    (find (track_by_title (Some title)) (track (insert_track x d))) =
  Some (track_seq d).
Proof.
  intros Ht H. unfold insert_track.
  destruct (Track.stream x); simpl; rewrite find_app_last, H; simpl;
    rewrite Ht, String.eqb_refl; reflexivity.
Qed.

(** X8. For a non-empty title [get_or_create_track] answers with the first
    track of that title when there is one, whatever the other arguments, and
    leaves the manager as it was; otherwise it inserts a track that is in no
    playlist and commits.  A second call with the same title, whatever its
    other arguments, returns the track of the first call and changes
    nothing. *)
Lemma get_or_create_track_nonempty (title artist album : string)
    (duration : Z) (stream_url : string) (cover_art_url : option string)
    (artist' album' : string) (duration' : Z) (stream_url' : string)
    (cover_art_url' : option string) (m : PlaylistManager) :
  title <> "" ->
  wf m ->
  let r := get_or_create_track title artist album duration stream_url
             cover_art_url m in
  (forall x, find (track_by_title (Some title)) (track (session m)) = Some x ->
     r = (Ok (Track.id x), m)) /\
  (find (track_by_title (Some title)) (track (session m)) = None ->
     exists x,
       fst r = Ok (Track.id x) /\
       find_track (session (snd r)) (Track.id x) = Some x /\
       track (session (snd r)) = (track (session m) ++ [x])%list /\
       Track.title x = title /\ Track.artist x = artist /\
       Track.playlists x = [] /\
       engine (snd r) = session (snd r)) /\
  get_or_create_track title artist' album' duration' stream_url'
    cover_art_url' (snd r) = (fst r, snd r).
Proof.
  intros Hne Hw r.
  assert (Hft : forall d, first_titled title d =
                          find (track_by_title (Some title)) (track d)).
  { intros d. unfold first_titled. now rewrite truthy_str_nonempty. }
  split; [| split].
  - intros x Hx. unfold r. apply get_or_create_track_found.
    now rewrite Hft.
  - intros Hnone. unfold r.
    rewrite get_or_create_track_created by now rewrite Hft.
    cbn [fst snd session engine]. unfold insert_track, Track.init. simpl.
    eexists. split; [| split; [| split; [reflexivity |]]].
    + simpl. reflexivity.
    + unfold find_track. simpl. rewrite find_app_last. simpl.
      rewrite Z.eqb_refl.
      destruct (find (fun x => Z.eqb (Track.id x) (track_seq (session m)))
                     (track (session m))) as [y|] eqn:E; [| reflexivity].
      apply find_some in E as [Hin Hid]. apply Z.eqb_eq in Hid.
      pose proof (wf_track_ids _ (proj2 Hw)) as Hb.
      rewrite Forall_forall in Hb. specialize (Hb y Hin). lia.
    + simpl. repeat split.
  - unfold r.
    destruct (find (track_by_title (Some title)) (track (session m)))
      as [x|] eqn:E.
    + rewrite <- Hft in E.
      rewrite (get_or_create_track_found _ _ _ _ _ _ _ _ E). simpl.
      now apply get_or_create_track_found.
    + pose proof E as E'. rewrite <- Hft in E'.
      rewrite (get_or_create_track_created _ _ _ _ _ _ _ E').
      cbn [fst snd].
      unfold get_or_create_track, bind. rewrite get_track_run.
      rewrite (truthy_str_nonempty title Hne). cbn [session].
      rewrite find_inserted_track; [reflexivity | | exact E].
      unfold Track.init. reflexivity.
Qed.

(** C3 at the empty title: from a new store, a first call with the title
    [""] creates track 1, and a second call with the same title and another
    artist does not answer with track 1 but creates track 2, so that two
    tracks carry the title. *)
Theorem get_or_create_track_empty_title :
  let r1 := get_or_create_track "" "Artist A" "Album A" 200
              "http://stream/a" None (PlaylistManager_init empty_db) in
  let r2 := get_or_create_track "" "Artist B" "Album A" 200
              "http://stream/a" None (snd r1) in
  fst r1 = Ok 1 /\
  fst r2 = Ok 2 /\
  map Track.title (track (session (snd r1))) = [""] /\
  map Track.title (track (session (snd r2))) = [""; ""] /\
  map Track.artist (track (session (snd r2))) = ["Artist A"; "Artist B"] /\
  fst (get_or_create_playlist "" 0
         (snd (get_or_create_playlist "" 0 (PlaylistManager_init empty_db))))
  = fst (get_or_create_playlist "" 0 (PlaylistManager_init empty_db)).
Proof. repeat split. Qed.

(** * Further properties of the manager *)

(** ** The store stays well formed *)

(** X1. A new store is well formed, and every operation of the manager, whatever
    its arguments and whether it returns or raises, leaves a well-formed
    store well formed: keys stay positive, pairwise distinct and below the
    sequence of their table, and no track lists a playlist twice. *)
Theorem operations_keep_well_formed :
  wf (PlaylistManager_init empty_db) /\
  forall m, wf m ->
    (forall title artist album duration stream_url cover_art_url,
       wf (snd (get_or_create_track title artist album duration stream_url
                  cover_art_url m))) /\
    (forall track cover_art_url,
       wf (snd (add_track_cover_art track cover_art_url m))) /\
    (forall title now, wf (snd (get_or_create_playlist title now m))) /\
    (forall playlist new_title,
       wf (snd (rename_playlist playlist new_title m))) /\
    (forall playlist new_description,
       wf (snd (edit_playlist_description playlist new_description m))) /\
    (forall playlist, wf (snd (delete_playlist playlist m))) /\
    (forall track playlist,
       wf (snd (add_track_to_playlist track playlist m))) /\
    (forall title artist album duration stream_url playlist cover_art_url,
       wf (snd (create_and_add_track_to_playlist title artist album duration
                  stream_url playlist cover_art_url m))) /\
    (forall track now, wf (snd (add_track_to_liked_songs track now m))) /\
    (forall title artist album duration stream_url cover_art_url now,
       wf (snd (create_and_add_track_to_liked_songs title artist album
                  duration stream_url cover_art_url now m))) /\
    (forall track playlist,
       wf (snd (remove_track_from_playlist track playlist m))) /\
    (forall track now,
       wf (snd (remove_track_from_liked_songs track now m))) /\
    (forall track now, wf (snd (track_is_liked track now m))) /\
    wf (snd (commit_session m)) /\
    wf (snd (close_session m)).
Proof.
  split; [auto with store_wf |].
  intros m Hw.
  repeat (split; [solve [intros; auto with store_wf] |]).
  auto with store_wf.
Qed.

Lemma operations_keep_well_formed_witness :
  wf liked_track /\
  wf (snd (delete_playlist (Some 1) liked_track)) /\
  wf (snd (remove_track_from_liked_songs (Some 1) 1700000300 liked_track)).
Proof.
  destruct operations_keep_well_formed as [H0 H].
  assert (H1 : wf one_track).
  { apply (proj1 (H _ H0)). }
  assert (H2 : wf liked_track).
  { apply (proj1 (proj2 (proj2 (proj2 (proj2 (proj2 (proj2 (proj2 (proj2
              (H _ H1)))))))))). }
  split; [exact H2 |]. split.
  - apply (proj1 (proj2 (proj2 (proj2 (proj2 (proj2 (H _ H2))))))).
  - apply (proj1 (proj2 (proj2 (proj2 (proj2 (proj2 (proj2 (proj2 (proj2
             (proj2 (proj2 (proj2 (H _ H2))))))))))))).
Defined.

(** ** Nothing stays pending *)

Lemma committed_clean (m m' : PlaylistManager) :
  committed m m' -> clean m -> clean m'.
Proof. intros [->|[E _]] H; [exact H | exact E]. Qed.

Lemma committed_add_track_cover_art (track : option Z) (u : string)
    (m : PlaylistManager) :
  committed m (snd (add_track_cover_art track u m)).
Proof.
  destruct track as [k|]; [| apply committed_refl].
  right. simpl. split; [reflexivity | lia].
Qed.

Lemma committed_rename_playlist (playlist : option Z) (t : string)
    (m : PlaylistManager) :
  committed m (snd (rename_playlist playlist t m)).
Proof.
  destruct playlist as [k|]; [| apply committed_refl].
  right. simpl. split; [reflexivity | lia].
Qed.

Lemma committed_edit_playlist_description (playlist : option Z) (t : string)
    (m : PlaylistManager) :
  committed m (snd (edit_playlist_description playlist t m)).
Proof.
  destruct playlist as [k|]; [| apply committed_refl].
  right. simpl. split; [reflexivity | lia].
Qed.

Lemma committed_delete_playlist (playlist : option Z) (m : PlaylistManager) :
  committed m (snd (delete_playlist playlist m)).
Proof.
  destruct playlist as [k|]; [| apply committed_refl].
  right. simpl. split; [reflexivity | lia].
Qed.

Lemma committed_add_track_to_liked_songs (track : option Z) (now : datetime)
    (m : PlaylistManager) :
  committed m (snd (add_track_to_liked_songs track now m)).
Proof.
  unfold add_track_to_liked_songs, bind. rewrite get_or_create_playlist_run.
  eapply committed_trans; [apply committed_get_or_create_playlist |].
  apply committed_add_track_to_playlist.
Qed.

Lemma committed_remove_track_from_liked_songs (track : option Z)
    (now : datetime) (m : PlaylistManager) :
  committed m (snd (remove_track_from_liked_songs track now m)).
Proof.
  unfold remove_track_from_liked_songs, bind.
  rewrite get_or_create_playlist_run.
  eapply committed_trans; [apply committed_get_or_create_playlist |].
  apply committed_remove_track_from_playlist.
Qed.

Lemma committed_create_and_add_track_to_liked_songs
    (title artist album : string) (duration : Z) (stream_url : string)
    (cover_art_url : option string) (now : datetime) (m : PlaylistManager) :
  committed m (snd (create_and_add_track_to_liked_songs title artist album
                      duration stream_url cover_art_url now m)).
Proof.
  unfold create_and_add_track_to_liked_songs, bind.
  rewrite get_or_create_playlist_run.
  eapply committed_trans; [apply committed_get_or_create_playlist |].
  apply committed_create_and_add_track_to_playlist.
Qed.

Lemma committed_track_is_liked (track : option Z) (now : datetime)
    (m : PlaylistManager) :
  committed m (snd (track_is_liked track now m)).
Proof.
  unfold track_is_liked, bind. rewrite get_or_create_playlist_run.
  pose proof (committed_get_or_create_playlist "Liked Songs" now m) as H.
  now destruct track.
Qed.

Create HintDb committed.

#[local] Hint Resolve committed_get_or_create_track
  committed_add_track_cover_art committed_get_or_create_playlist
  committed_rename_playlist committed_edit_playlist_description
  committed_delete_playlist committed_add_track_to_playlist
  committed_create_and_add_track_to_playlist
  committed_add_track_to_liked_songs
  committed_create_and_add_track_to_liked_songs
  committed_remove_track_from_playlist
  committed_remove_track_from_liked_songs committed_track_is_liked
  : committed.

(** X2. A manager opened on a store has nothing pending, and no operation,
    returning or raising, leaves anything pending when nothing was before it:
    between two calls the session shows exactly what is persisted, so that
    [close_session] then drops nothing and leaves the state as it is. *)
Theorem nothing_stays_pending :
  (forall file, clean (PlaylistManager_init file)) /\
  forall m, clean m ->
    (forall title artist album duration stream_url cover_art_url,
       clean (snd (get_or_create_track title artist album duration
                     stream_url cover_art_url m))) /\
    (forall track cover_art_url,
       clean (snd (add_track_cover_art track cover_art_url m))) /\
    (forall title now, clean (snd (get_or_create_playlist title now m))) /\
    (forall playlist new_title,
       clean (snd (rename_playlist playlist new_title m))) /\
    (forall playlist new_description,
       clean (snd (edit_playlist_description playlist new_description m))) /\
    (forall playlist, clean (snd (delete_playlist playlist m))) /\
    (forall track playlist,
       clean (snd (add_track_to_playlist track playlist m))) /\
    (forall title artist album duration stream_url playlist cover_art_url,
       clean (snd (create_and_add_track_to_playlist title artist album
                     duration stream_url playlist cover_art_url m))) /\
    (forall track now, clean (snd (add_track_to_liked_songs track now m))) /\
    (forall title artist album duration stream_url cover_art_url now,
       clean (snd (create_and_add_track_to_liked_songs title artist album
                     duration stream_url cover_art_url now m))) /\
    (forall track playlist,
       clean (snd (remove_track_from_playlist track playlist m))) /\
    (forall track now,
       clean (snd (remove_track_from_liked_songs track now m))) /\
    (forall track now, clean (snd (track_is_liked track now m))) /\
    snd (close_session m) = m /\
    (commit_session ;; close_session) m =
      (Ok tt, mkManager (session m) (session m) (S (commits m))).
Proof.
  split; [reflexivity |].
  intros m Hc.
  repeat (split;
    [solve [intros; eapply committed_clean; [| exact Hc];
            auto with committed] |]).
  unfold clean in Hc. destruct m as [e s c]. simpl in *. subst.
  split; reflexivity.
Qed.

Lemma nothing_stays_pending_witness :
  clean liked_track /\
  clean (snd (rename_playlist (Some 1) "Favourites" liked_track)) /\
  snd (close_session liked_track) = liked_track.
Proof.
  destruct nothing_stays_pending as [_ H].
  assert (Hc : clean liked_track) by reflexivity.
  split; [exact Hc |]. split.
  - apply (proj1 (proj2 (proj2 (proj2 (H _ Hc))))).
  - apply (proj1 (proj2 (proj2 (proj2 (proj2 (proj2 (proj2 (proj2 (proj2
             (proj2 (proj2 (proj2 (proj2 (proj2 (H _ Hc))))))))))))))).
Defined.

(** ** No pairing is left dangling *)

Lemma find_exists {A} (f : A -> bool) (l : list A) (a : A) :
  In a l -> f a = true -> exists b, find f l = Some b.
Proof.
  intros Hin Hf. destruct (find f l) as [b|] eqn:E.
  - now exists b.
  - rewrite (find_none _ _ E a Hin) in Hf. discriminate.
Qed.

Lemma ref_ok_intro (d : Database) :
  (forall x k, In x (track d) -> In k (Track.playlists x) ->
               exists p, find_playlist d k = Some p) ->
  ref_ok d.
Proof.
  intros H r Hr. apply In_playlist_track in Hr as [x [Hx [Hk Hs]]].
  split.
  - eapply H; eassumption.
  - apply (find_exists _ _ x Hx). rewrite Hs. apply Z.eqb_refl.
Qed.

Lemma ref_ok_elim (d : Database) (x : Track.t) (k : Z) :
  ref_ok d -> In x (track d) -> In k (Track.playlists x) ->
  exists p, find_playlist d k = Some p.
Proof.
  intros H Hx Hk.
  apply (H (k, Track.id x)). apply In_playlist_track.
  exists x. now repeat split.
Qed.

Lemma ref_ok_empty_db : ref_ok empty_db.
Proof. intros r []. Qed.

Lemma find_app_some {A} (f : A -> bool) (l l' : list A) (a : A) :
  find f l = Some a -> find f (l ++ l') = Some a.
Proof.
  induction l as [|b l IH]; simpl; [discriminate |].
  destruct (f b); [trivial | exact IH].
Qed.

Lemma ref_insert_playlist (q : Playlist.t) (d : Database) :
  ref_ok d -> ref_ok (insert_playlist q d).
Proof.
  intros H. apply ref_ok_intro. simpl. intros x k Hx Hk.
  destruct (ref_ok_elim d x k H Hx Hk) as [p Hp].
  exists p. unfold find_playlist. simpl. now apply find_app_some.
Qed.

Lemma track_insert_track (y : Track.t) (d : Database) :
  exists y', track (insert_track y d) = (track d ++ [y'])%list /\
             Track.playlists y' = Track.playlists y /\
             Track.id y' = track_seq d /\
             Track.title y' = Track.title y /\
             Track.duration y' = Track.duration y.
Proof.
  unfold insert_track. destruct (Track.stream y); eexists; simpl;
    (split; [reflexivity | now repeat split]).
Qed.

Lemma ref_insert_track (y : Track.t) (d : Database) :
  Track.playlists y = [] -> ref_ok d -> ref_ok (insert_track y d).
Proof.
  intros Hy H. apply ref_ok_intro. intros x k Hx Hk.
  destruct (track_insert_track y d) as [y' [E [Hp _]]].
  rewrite E in Hx. apply in_app_or in Hx as [Hx | [Hx | []]].
  - destruct (ref_ok_elim d x k H Hx Hk) as [p Hq]. exists p.
    unfold find_playlist, insert_track in *.
    now destruct (Track.stream y).
  - subst x. rewrite Hp, Hy in Hk. contradiction.
Qed.

Lemma ref_update_track (k : Z) (f : Track.t -> Track.t) (d : Database) :
  (forall x q, In x (track d) -> In q (Track.playlists (f x)) ->
               exists p, find_playlist d q = Some p) ->
  ref_ok d -> ref_ok (update_track k f d).
Proof.
  intros Hf H. apply ref_ok_intro. simpl. intros x' q Hx Hq.
  apply in_map_iff in Hx as [x [E Hx]]. subst x'.
  change (find_playlist (update_track k f d) q) with (find_playlist d q).
  destruct (Z.eqb (Track.id x) k).
  - eapply Hf; eassumption.
  - eapply ref_ok_elim; eassumption.
Qed.

Lemma find_playlist_update (k q : Z) (f : Playlist.t -> Playlist.t)
    (d : Database) :
  (forall p, Playlist.id (f p) = Playlist.id p) ->
  find_playlist (update_playlist k f d) q =
  option_map (fun p => if Z.eqb (Playlist.id p) k then f p else p)
    (find_playlist d q).
Proof.
  intros Hid. unfold find_playlist, update_playlist. simpl.
  apply (find_map_update (fun p => Z.eqb (Playlist.id p) q)).
  intros p. now rewrite Hid.
Qed.

Lemma ref_update_playlist (k : Z) (f : Playlist.t -> Playlist.t)
    (d : Database) :
  (forall p, Playlist.id (f p) = Playlist.id p) ->
  ref_ok d -> ref_ok (update_playlist k f d).
Proof.
  intros Hid H. apply ref_ok_intro. simpl. intros x q Hx Hq.
  destruct (ref_ok_elim d x q H Hx Hq) as [p Hp].
  rewrite (find_playlist_update _ _ _ _ Hid), Hp. simpl. eauto.
Qed.

Lemma find_filter_other {A} (key : A -> Z) (k q : Z) (l : list A) :
  q <> k ->
  find (fun p => Z.eqb (key p) q)
       (filter (fun p => negb (Z.eqb (key p) k)) l) =
  find (fun p => Z.eqb (key p) q) l.
Proof.
  intros Hne. induction l as [|a l IH]; simpl; [reflexivity |].
  destruct (Z.eqb_spec (key a) k) as [E|E]; simpl.
  - destruct (Z.eqb_spec (key a) q) as [E'|E']; [congruence | exact IH].
  - destruct (Z.eqb (key a) q); [reflexivity | exact IH].
Qed.

Lemma ref_remove_playlist (k : Z) (d : Database) :
  ref_ok d -> ref_ok (remove_playlist k d).
Proof.
  intros H. apply ref_ok_intro. simpl. intros x' q Hx Hq.
  apply in_map_iff in Hx as [x [E Hx]]. subst x'. simpl in Hq.
  apply filter_In in Hq as [Hq Hne].
  apply negb_true_iff, Z.eqb_neq in Hne.
  destruct (ref_ok_elim d x q H Hx Hq) as [p Hp]. exists p.
  unfold find_playlist in *. simpl.
  now rewrite (find_filter_other Playlist.id k q _ Hne).
Qed.

Lemma playlists_of_ref (d : Database) (T q : Z) :
  ref_ok d -> In q (playlists_of d T) ->
  exists p, find_playlist d q = Some p.
Proof.
  intros H Hq. unfold playlists_of in Hq.
  destruct (find_track d T) as [x|] eqn:E; [| contradiction].
  apply find_track_In in E as [Hx _]. eapply ref_ok_elim; eassumption.
Qed.

Lemma refs_commit (d : Database) (m : PlaylistManager) (n : nat) :
  ref_ok d -> refs (mkManager d d n).
Proof. intros H. split; exact H. Qed.

Lemma refs_get_or_create_playlist (title : string) (now : datetime)
    (m : PlaylistManager) :
  refs m -> refs (snd (get_or_create_playlist title now m)).
Proof.
  intros Hr.
  destruct (find (playlist_by_title title) (playlist (session m)))
    as [p|] eqn:E.
  - now rewrite (get_or_create_playlist_found _ _ _ _ E).
  - rewrite (get_or_create_playlist_created _ _ _ E).
    apply (refs_commit _ m), ref_insert_playlist, Hr.
Qed.

Lemma refs_get_or_create_track (title artist album : string) (duration : Z)
    (stream_url : string) (cover_art_url : option string)
    (m : PlaylistManager) :
  refs m ->
  refs (snd (get_or_create_track title artist album duration stream_url
               cover_art_url m)).
Proof.
  intros Hr.
  destruct (first_titled title (session m)) as [x|] eqn:E.
  - now rewrite (get_or_create_track_found _ _ _ _ _ _ _ _ E).
  - rewrite (get_or_create_track_created _ _ _ _ _ _ _ E).
    apply (refs_commit _ m), ref_insert_track; [reflexivity | apply Hr].
Qed.

Lemma refs_add_track_to_playlist (track : option Z) (P : Z)
    (m : PlaylistManager) (p : Playlist.t) :
  find_playlist (session m) P = Some p ->
  refs m -> refs (snd (add_track_to_playlist track P m)).
Proof.
  intros Hp Hr. destruct track as [T|]; [| exact Hr].
  destruct (contains P (playlists_of (session m) T)) eqn:C.
  - now rewrite (add_track_to_playlist_member _ _ _ C).
  - rewrite (add_track_to_playlist_new _ _ _ C).
    apply (refs_commit _ m), ref_update_track; [| apply Hr].
    simpl. intros x q _ Hq. apply in_app_or in Hq as [Hq | [Hq | []]].
    + eapply playlists_of_ref; [apply Hr | exact Hq].
    + subst q. eauto.
Qed.

Lemma refs_remove_track_from_playlist (track : option Z) (P : Z)
    (m : PlaylistManager) :
  refs m -> refs (snd (remove_track_from_playlist track P m)).
Proof.
  intros Hr. destruct track as [T|]; [| exact Hr].
  destruct (contains P (playlists_of (session m) T)) eqn:C.
  - rewrite (remove_track_from_playlist_member _ _ _ C).
    apply (refs_commit _ m), ref_update_track; [| apply Hr].
    simpl. intros x q _ Hq. apply list_remove_In in Hq.
    eapply playlists_of_ref; [apply Hr | exact Hq].
  - now rewrite (remove_track_from_playlist_absent _ _ _ C).
Qed.

Lemma refs_create_and_add_track_to_playlist (title artist album : string)
    (duration : Z) (stream_url : string) (P : Z)
    (cover_art_url : option string) (m : PlaylistManager) (p : Playlist.t) :
  find_playlist (session m) P = Some p ->
  refs m ->
  refs (snd (create_and_add_track_to_playlist title artist album duration
               stream_url P cover_art_url m)).
Proof.
  intros Hp Hr. unfold create_and_add_track_to_playlist, bind.
  pose proof (refs_get_or_create_track title artist album duration
                stream_url cover_art_url m Hr) as H1.
  assert (Hp1 : find_playlist
                  (session (snd (get_or_create_track title artist album
                                   duration stream_url cover_art_url m))) P
                = Some p).
  { destruct (first_titled title (session m)) as [x|] eqn:E.
    - now rewrite (get_or_create_track_found _ _ _ _ _ _ _ _ E).
    - rewrite (get_or_create_track_created _ _ _ _ _ _ _ E).
      cbn [snd session]. unfold find_playlist, insert_track in *.
      now destruct (Track.stream _). }
  destruct (get_or_create_track title artist album duration stream_url
              cover_art_url m) as [[k|e] m1]; simpl in *; [| exact H1].
  pose proof (refs_add_track_to_playlist (Some k) P m1 p Hp1 H1) as H2.
  destruct (add_track_to_playlist (Some k) P m1) as [[[]|e] m2]; exact H2.
Qed.

Lemma liked_songs_row (now : datetime) (m : PlaylistManager) :
  exists p,
    find_playlist (session (snd (get_or_create_playlist "Liked Songs" now m)))
      (playlist_key "Liked Songs" (session m)) = Some p.
Proof.
  destruct (get_or_create_playlist_spec "Liked Songs" now m) as [p [E F]].
  rewrite get_or_create_playlist_run in E. injection E as E.
  apply find_some in F as [Hin _].
  apply (find_exists _ _ p Hin). rewrite E. apply Z.eqb_refl.
Qed.

(** X3. A new store has no pairing, and every operation keeps each
    [playlist_track] row attached to a playlist row and a track row, provided
    the playlist handed to [add_track_to_playlist] or
    [create_and_add_track_to_playlist] is one of the store: deleting a
    playlist takes its pairings with it, and the other operations pair
    tracks only with playlists that exist. *)
Theorem no_dangling_membership :
  refs (PlaylistManager_init empty_db) /\
  forall m, refs m ->
    (forall title artist album duration stream_url cover_art_url,
       refs (snd (get_or_create_track title artist album duration stream_url
                    cover_art_url m))) /\
    (forall track cover_art_url,
       refs (snd (add_track_cover_art track cover_art_url m))) /\
    (forall title now, refs (snd (get_or_create_playlist title now m))) /\
    (forall playlist new_title,
       refs (snd (rename_playlist playlist new_title m))) /\
    (forall playlist new_description,
       refs (snd (edit_playlist_description playlist new_description m))) /\
    (forall playlist, refs (snd (delete_playlist playlist m))) /\
    (forall track playlist p,
       find_playlist (session m) playlist = Some p ->
       refs (snd (add_track_to_playlist track playlist m))) /\
    (forall title artist album duration stream_url playlist cover_art_url p,
       find_playlist (session m) playlist = Some p ->
       refs (snd (create_and_add_track_to_playlist title artist album
                    duration stream_url playlist cover_art_url m))) /\
    (forall track now, refs (snd (add_track_to_liked_songs track now m))) /\
    (forall title artist album duration stream_url cover_art_url now,
       refs (snd (create_and_add_track_to_liked_songs title artist album
                    duration stream_url cover_art_url now m))) /\
    (forall track playlist,
       refs (snd (remove_track_from_playlist track playlist m))) /\
    (forall track now,
       refs (snd (remove_track_from_liked_songs track now m))) /\
    (forall track now, refs (snd (track_is_liked track now m))) /\
    refs (snd (commit_session m)) /\
    refs (snd (close_session m)).
Proof.
  split; [split; apply ref_ok_empty_db |].
  intros m Hr.
  split; [intros; now apply refs_get_or_create_track |].
  split.
  { intros [k|] u; [| exact Hr]. simpl.
    apply (refs_commit _ m), ref_update_track; [| apply Hr].
    simpl. intros x q Hx Hq. eapply ref_ok_elim; [apply Hr | | ]; eassumption. }
  split; [intros; now apply refs_get_or_create_playlist |].
  split.
  { intros [k|] u; [| exact Hr]. simpl.
    apply (refs_commit _ m), ref_update_playlist; [reflexivity | apply Hr]. }
  split.
  { intros [k|] u; [| exact Hr]. simpl.
    apply (refs_commit _ m), ref_update_playlist; [reflexivity | apply Hr]. }
  split.
  { intros [k|]; [| exact Hr]. simpl.
    apply (refs_commit _ m), ref_remove_playlist, Hr. }
  split; [intros; eapply refs_add_track_to_playlist; eassumption |].
  split;
    [intros; eapply refs_create_and_add_track_to_playlist; eassumption |].
  split.
  { intros track now. unfold add_track_to_liked_songs, bind.
    rewrite get_or_create_playlist_run.
    destruct (liked_songs_row now m) as [p Hp].
    eapply refs_add_track_to_playlist; [exact Hp |].
    now apply refs_get_or_create_playlist. }
  split.
  { intros. unfold create_and_add_track_to_liked_songs, bind.
    rewrite get_or_create_playlist_run.
    destruct (liked_songs_row now m) as [p Hp].
    eapply refs_create_and_add_track_to_playlist; [exact Hp |].
    now apply refs_get_or_create_playlist. }
  split; [intros; now apply refs_remove_track_from_playlist |].
  split.
  { intros track now. unfold remove_track_from_liked_songs, bind.
    rewrite get_or_create_playlist_run.
    apply refs_remove_track_from_playlist.
    now apply refs_get_or_create_playlist. }
  split.
  { intros track now. unfold track_is_liked, bind.
    rewrite get_or_create_playlist_run.
    pose proof (refs_get_or_create_playlist "Liked Songs" now m Hr) as H.
    now destruct track. }
  split; [split; apply Hr | split; apply Hr].
Qed.

Lemma no_dangling_membership_witness :
  refs road_trip /\
  find_playlist (session road_trip) 2
    = Some (Playlist.mk 2 "Road Trip" "" 1700000100 false) /\
  refs (snd (add_track_to_playlist (Some 1) 2 road_trip)) /\
  playlist_track (session road_trip) = [(1, 1)] /\
  refs (snd (delete_playlist (Some 1) road_trip)) /\
  playlist_track (session (snd (delete_playlist (Some 1) road_trip))) = [].
Proof.
  destruct no_dangling_membership as [H0 H].
  assert (H1 : refs one_track) by apply (proj1 (H _ H0)).
  assert (H2 : refs liked_track).
  { destruct (H _ H1) as (_ & _ & _ & _ & _ & _ & _ & _ & A & _).
    apply A. }
  assert (H3 : refs road_trip).
  { destruct (H _ H2) as (_ & _ & A & _). apply A. }
  destruct (H _ H3) as (_ & _ & _ & _ & _ & Adel & Aadd & _).
  split; [exact H3 |]. split; [reflexivity |].
  split; [eapply Aadd; reflexivity |].
  split; [reflexivity |].
  split; [apply Adel | reflexivity].
Defined.

(** ** What a membership operation leaves alone *)

Lemma find_track_update (k k' : Z) (f : Track.t -> Track.t) (d : Database) :
  (forall x, Track.id (f x) = Track.id x) ->
  find_track (update_track k f d) k' =
  option_map (fun x => if Z.eqb (Track.id x) k then f x else x)
    (find_track d k').
Proof.
  intros Hid. unfold find_track, update_track. simpl.
  apply (find_map_update (fun x => Z.eqb (Track.id x) k')).
  intros x. now rewrite Hid.
Qed.

Lemma playlists_of_update_other (k k' : Z) (f : Track.t -> Track.t)
    (d : Database) :
  (forall x, Track.id (f x) = Track.id x) ->
  k' <> k ->
  playlists_of (update_track k f d) k' = playlists_of d k'.
Proof.
  intros Hid Hne. unfold playlists_of. rewrite find_track_update by exact Hid.
  destruct (find_track d k') as [x|] eqn:E; [| reflexivity]. simpl.
  apply find_track_In in E as [_ E].
  destruct (Z.eqb_spec (Track.id x) k); [congruence | reflexivity].
Qed.

Lemma playlists_of_set (k : Z) (l : list Z) (d : Database) :
  playlists_of (update_track k (Track.set_playlists l) d) k =
  match find_track d k with Some _ => l | None => [] end.
Proof.
  destruct (find_track d k) as [x|] eqn:E.
  - eapply playlists_of_update. exact E.
  - rewrite update_track_absent by exact E. unfold playlists_of.
    now rewrite E.
Qed.

Lemma contains_app_other (P Q : Z) (l : list Z) :
  Q <> P -> contains Q (l ++ [P]) = contains Q l.
Proof.
  intros Hne. unfold contains. rewrite existsb_app. simpl.
  apply Z.eqb_neq in Hne. rewrite Hne. now rewrite !orb_false_r.
Qed.

Lemma contains_remove_other (P Q : Z) (l : list Z) :
  Q <> P -> contains Q (list_remove P l) = contains Q l.
Proof.
  intros Hne. induction l as [|a l IH]; simpl; [reflexivity |].
  destruct (Z.eqb_spec P a) as [E|E]; simpl.
  - subst a. apply Z.eqb_neq in Hne. now rewrite Hne.
  - now rewrite IH.
Qed.

Lemma get_track_update_track (title : option string) (id : option Z)
    (k : Z) (f : Track.t -> Track.t) (m m' : PlaylistManager) :
  (forall x, Track.id (f x) = Track.id x) ->
  (forall x, Track.title (f x) = Track.title x) ->
  session m' = update_track k f (session m) ->
  fst (get_track title id m') = fst (get_track title id m).
Proof.
  intros Hid Ht E. rewrite !get_track_run, E. cbn [fst]. f_equal.
  assert (H : forall test : Track.t -> bool,
             (forall x, test (f x) = test x) ->
             option_map Track.id
               (find test (track (update_track k f (session m)))) =
             option_map Track.id (find test (track (session m)))).
  { intros test Hp. simpl. rewrite (find_map_update test) by exact Hp.
    destruct (find test (track (session m))) as [x|]; [| reflexivity].
    simpl. destruct (Z.eqb (Track.id x) k); [now rewrite Hid | reflexivity]. }
  destruct (truthy_str title).
  - apply H. intros x. destruct title; simpl; [now rewrite Ht | reflexivity].
  - destruct (truthy_int id); [| reflexivity].
    apply H. intros x. destruct id; simpl; [now rewrite Hid | reflexivity].
Qed.

(** X4. Adding a track to a playlist, or removing it, touches that one pairing
    only: whether any other track is in any playlist, and whether the same
    track is in any other playlist, is as before; the playlist table is
    unchanged and [get_track] answers as before. *)
Theorem membership_frame (T P T' Q : Z) (m : PlaylistManager) :
  T' <> T \/ Q <> P ->
  let ma := snd (add_track_to_playlist (Some T) P m) in
  let mr := snd (remove_track_from_playlist (Some T) P m) in
  contains Q (playlists_of (session ma) T') =
    contains Q (playlists_of (session m) T') /\
  contains Q (playlists_of (session mr) T') =
    contains Q (playlists_of (session m) T') /\
  playlist (session ma) = playlist (session m) /\
  playlist (session mr) = playlist (session m) /\
  (forall title id,
     fst (get_track title id ma) = fst (get_track title id m)) /\
  (forall title id,
     fst (get_track title id mr) = fst (get_track title id m)).
Proof.
  intros Hne ma mr. subst ma mr.
  destruct (contains P (playlists_of (session m) T)) eqn:C.
  - rewrite (add_track_to_playlist_member _ _ _ C).
    rewrite (remove_track_from_playlist_member _ _ _ C).
    cbn [snd session].
    split; [reflexivity |]. split; [| split; [reflexivity |]].
    + destruct (Z.eq_dec T' T) as [->|HT].
      * destruct Hne as [Hne|Hne]; [congruence |].
        rewrite playlists_of_set.
        destruct (member_has_track _ _ _ C) as [x F]. rewrite F.
        now apply contains_remove_other.
      * now rewrite playlists_of_update_other.
    + split; [reflexivity |]. split; [reflexivity |].
      intros title id. now apply (get_track_update_track title id T
        (Track.set_playlists (list_remove P (playlists_of (session m) T)))).
  - rewrite (add_track_to_playlist_new _ _ _ C).
    rewrite (remove_track_from_playlist_absent _ _ _ C).
    cbn [snd session].
    split; [| split; [reflexivity |]].
    + destruct (Z.eq_dec T' T) as [->|HT].
      * destruct Hne as [Hne|Hne]; [congruence |].
        rewrite playlists_of_set. unfold playlists_of at 2.
        destruct (find_track (session m) T) as [x|] eqn:F; [| reflexivity].
        rewrite contains_app_other by exact Hne.
        unfold playlists_of. now rewrite F.
      * now rewrite playlists_of_update_other.
    + split; [reflexivity |]. split; [reflexivity |].
      split; [| reflexivity].
      intros title id. now apply (get_track_update_track title id T
        (Track.set_playlists (playlists_of (session m) T ++ [P]))).
Qed.

Lemma membership_frame_witness :
  contains 1 (playlists_of
                (session (snd (add_track_to_playlist (Some 1) 2 road_trip))) 1)
  = true /\
  contains 1 (playlists_of
                (session (snd (remove_track_from_playlist (Some 1) 2
                                 road_trip))) 1)
  = true.
Proof.
  destruct (membership_frame 1 2 1 1 road_trip) as [Ha [Hr _]].
  - right. discriminate.
  - split; [rewrite Ha | rewrite Hr]; reflexivity.
Defined.

(** ** Adding and then removing *)

Lemma list_remove_app_last (P : Z) (l : list Z) :
  contains P l = false -> list_remove P (l ++ [P]) = l.
Proof.
  induction l as [|a l IH]; simpl; intros H.
  - now rewrite Z.eqb_refl.
  - apply orb_false_iff in H as [Ha Hl]. rewrite Ha. now rewrite IH.
Qed.

Lemma update_track_twice (k : Z) (l1 l2 : list Z) (d : Database) :
  update_track k (Track.set_playlists l2)
    (update_track k (Track.set_playlists l1) d) =
  update_track k (Track.set_playlists l2) d.
Proof.
  unfold update_track. simpl. f_equal. rewrite map_map.
  apply map_ext. intros x.
  destruct (Z.eqb (Track.id x) k) eqn:E; simpl; now rewrite E.
Qed.

Lemma update_track_same (k : Z) (x : Track.t) (d : Database) :
  wf_db d -> find_track d k = Some x ->
  update_track k (Track.set_playlists (Track.playlists x)) d = d.
Proof.
  intros Hw F. apply find_track_In in F as [Hx Hk].
  unfold update_track. destruct d as [ts ps a b c]. simpl in *. f_equal.
  rewrite <- (map_id ts) at 2. apply map_ext_in. intros y Hy.
  destruct (Z.eqb_spec (Track.id y) k) as [E|E]; [| reflexivity].
  assert (y = x).
  { eapply same_key_same_row;
      [apply (wf_track_nodup _ Hw) | exact Hy | exact Hx | congruence]. }
  subst y. now destruct x.
Qed.

(** X5. In a well-formed store, adding a track to a playlist it is not in and
    then removing it from that playlist brings the store back to what it
    was, after two commits. *)
Theorem add_then_remove_restores (T P : Z) (x : Track.t)
    (m : PlaylistManager) :
  wf m ->
  find_track (session m) T = Some x ->
  contains P (Track.playlists x) = false ->
  (add_track_to_playlist (Some T) P ;;
   remove_track_from_playlist (Some T) P) m =
  (Ok tt, mkManager (session m) (session m) (S (S (commits m)))).
Proof.
  intros Hw F C.
  assert (Hl : playlists_of (session m) T = Track.playlists x)
    by (unfold playlists_of; now rewrite F).
  unfold bind at 1.
  rewrite add_track_to_playlist_new by now rewrite Hl.
  cbv zeta.
  rewrite remove_track_from_playlist_member.
  - cbn [session commits]. rewrite playlists_of_set, F, Hl.
    rewrite update_track_twice, (list_remove_app_last _ _ C).
    now rewrite (update_track_same _ _ _ (proj2 Hw) F).
  - cbn [session]. rewrite playlists_of_set, F. apply contains_app_last.
Qed.

Lemma add_then_remove_restores_witness :
  wf road_trip /\
  find_track (session road_trip) 1 = Some (Track.set_playlists [1] song_a) /\
  snd ((add_track_to_playlist (Some 1) 2 ;;
        remove_track_from_playlist (Some 1) 2) road_trip) =
  mkManager (session road_trip) (session road_trip)
    (S (S (commits road_trip))).
Proof.
  assert (Hw : wf road_trip)
    by (unfold road_trip, liked_track, one_track; auto with store_wf).
  split; [exact Hw |]. split; [reflexivity |].
  rewrite (add_then_remove_restores 1 2 (Track.set_playlists [1] song_a)
             road_trip Hw eq_refl eq_refl).
  reflexivity.
Defined.

(** ** Length and total duration of a playlist *)

Lemma rows_of_track (P k : Z) (l : list Z) :
  map snd (filter (fun r : Z * Z => Z.eqb (fst r) P)
                  (map (fun p => (p, k)) l)) =
  repeat k (count_occ Z.eq_dec l P).
Proof.
  induction l as [|a l IH]; simpl; [reflexivity |].
  destruct (Z.eq_dec a P) as [E|E].
  - subst a. rewrite Z.eqb_refl. simpl. now rewrite IH.
  - apply Z.eqb_neq in E. rewrite E. exact IH.
Qed.

Lemma tracks_of_rows (d : Database) (P : Z) :
  tracks_of d P =
  flat_map (fun x => repeat (Track.id x)
                       (count_occ Z.eq_dec (Track.playlists x) P))
           (track d).
Proof.
  unfold tracks_of, playlist_track.
  induction (track d) as [|x ts IH]; simpl; [reflexivity |].
  rewrite filter_app, map_app, IH. now rewrite rows_of_track.
Qed.

Lemma split_row (T : Z) (x : Track.t) (ts : list Track.t) :
  NoDup (map Track.id ts) ->
  find (fun y => Z.eqb (Track.id y) T) ts = Some x ->
  exists l1 l2,
    ts = (l1 ++ x :: l2)%list /\
    (forall y, In y l1 -> Track.id y <> T) /\
    (forall y, In y l2 -> Track.id y <> T).
Proof.
  induction ts as [|a ts IH]; simpl; intros Hd F; [discriminate |].
  inversion Hd as [|? ? Hn Hd']; subst.
  destruct (Z.eqb_spec (Track.id a) T) as [E|E].
  - injection F as ->. exists [], ts. split; [reflexivity |].
    split; [intros y [] |].
    intros y Hy Ey. apply Hn. rewrite E, <- Ey. now apply in_map.
  - destruct (IH Hd' F) as [l1 [l2 [E1 [H1 H2]]]].
    exists (a :: l1), l2. split; [now rewrite E1 |].
    split; [| exact H2].
    intros y [Hy|Hy]; [now subst y | now apply H1].
Qed.

Lemma map_update_other (T : Z) (f : Track.t -> Track.t) (l : list Track.t) :
  (forall y, In y l -> Track.id y <> T) ->
  map (fun y => if Z.eqb (Track.id y) T then f y else y) l = l.
Proof.
  intros H. rewrite <- (map_id l) at 2. apply map_ext_in. intros y Hy.
  destruct (Z.eqb_spec (Track.id y) T) as [E|E]; [| reflexivity].
  now apply H in Hy.
Qed.

(** The tracks of every playlist before and after the playlists of the one
    track with key [T] are replaced: the same tracks, up to the share of
    track [T]. *)
Lemma tracks_of_update (T : Z) (x : Track.t) (d : Database) :
  wf_db d -> find_track d T = Some x ->
  exists A B : Z -> list Z,
    (forall Q, tracks_of d Q =
               (A Q ++ repeat T (count_occ Z.eq_dec (Track.playlists x) Q)
                  ++ B Q)%list) /\
    (forall Q l, tracks_of (update_track T (Track.set_playlists l) d) Q =
                 (A Q ++ repeat T (count_occ Z.eq_dec l Q) ++ B Q)%list).
Proof.
  intros Hw F.
  destruct (split_row T x (track d) (wf_track_nodup d Hw) F)
    as [l1 [l2 [E [H1 H2]]]].
  apply find_track_In in F as [_ Hid].
  set (g := fun Q (y : Track.t) =>
              repeat (Track.id y)
                (count_occ Z.eq_dec (Track.playlists y) Q)).
  exists (fun Q => flat_map (g Q) l1), (fun Q => flat_map (g Q) l2).
  split; intros Q.
  - rewrite tracks_of_rows, E, flat_map_app. simpl. now rewrite Hid.
  - intros l. rewrite tracks_of_rows. simpl. rewrite E, map_app. simpl.
    rewrite (map_update_other T _ l1 H1), (map_update_other T _ l2 H2).
    rewrite flat_map_app. simpl.
    apply Z.eqb_eq in Hid. rewrite Hid. simpl.
    apply Z.eqb_eq in Hid. now rewrite Hid.
Qed.

Lemma duration_of_update (T k : Z) (l : list Z) (d : Database) :
  duration_of (update_track T (Track.set_playlists l) d) k =
  duration_of d k.
Proof.
  unfold duration_of. rewrite find_track_update by reflexivity.
  destruct (find_track d k) as [y|]; [| reflexivity]. simpl.
  now destruct (Z.eqb (Track.id y) T).
Qed.

Lemma get_total_duration_sum (d : Database) (P : Z) :
  get_total_duration d P =
  fold_right Z.add 0 (map (duration_of d) (tracks_of d P)).
Proof. reflexivity. Qed.

Lemma sum_app (l l' : list Z) :
  fold_right Z.add 0 (l ++ l') =
  fold_right Z.add 0 l + fold_right Z.add 0 l'.
Proof.
  induction l as [|a l IH]; simpl; [reflexivity | rewrite IH; lia].
Qed.

Lemma count_occ_app_last (P Q : Z) (l : list Z) :
  count_occ Z.eq_dec (l ++ [P]) Q =
  (count_occ Z.eq_dec l Q + (if Z.eq_dec P Q then 1 else 0))%nat.
Proof.
  rewrite count_occ_app. simpl. now destruct (Z.eq_dec P Q).
Qed.

Lemma count_occ_absent (P : Z) (l : list Z) :
  contains P l = false -> count_occ Z.eq_dec l P = 0%nat.
Proof.
  intros C. apply count_occ_not_In. intros H.
  apply contains_In in H. congruence.
Qed.

Lemma count_occ_list_remove (P Q : Z) (l : list Z) :
  count_occ Z.eq_dec (list_remove P l) Q =
  if Z.eq_dec P Q then Nat.pred (count_occ Z.eq_dec l Q)
  else count_occ Z.eq_dec l Q.
Proof.
  induction l as [|a l IH]; simpl.
  - now destruct (Z.eq_dec P Q).
  - destruct (Z.eqb_spec P a) as [E|E].
    + subst a. destruct (Z.eq_dec P Q) as [E'|E']; [reflexivity |].
      reflexivity.
    + simpl. rewrite IH.
      destruct (Z.eq_dec a Q) as [Ea|Ea], (Z.eq_dec P Q) as [Ep|Ep];
        try reflexivity.
      congruence.
Qed.

Lemma count_occ_member_once (P : Z) (l : list Z) :
  NoDup l -> contains P l = true -> count_occ Z.eq_dec l P = 1%nat.
Proof.
  intros Hd C. apply contains_In in C.
  pose proof (proj1 (NoDup_count_occ Z.eq_dec l) Hd P) as Hle.
  pose proof (proj1 (count_occ_In Z.eq_dec l P) C) as Hgt. lia.
Qed.

(** X6. In a well-formed store, adding a track to a playlist it is not in makes
    the playlist one track longer and its total duration greater by the
    duration of the track, and leaves the length and the total duration of
    every other playlist as they were. *)
Theorem add_grows_playlist (T P : Z) (x : Track.t) (m : PlaylistManager) :
  wf m ->
  find_track (session m) T = Some x ->
  contains P (Track.playlists x) = false ->
  let m' := snd (add_track_to_playlist (Some T) P m) in
  get_length (session m') P = S (get_length (session m) P) /\
  get_total_duration (session m') P =
    get_total_duration (session m) P + Track.duration x /\
  (forall Q, Q <> P ->
     get_length (session m') Q = get_length (session m) Q /\
     get_total_duration (session m') Q = get_total_duration (session m) Q).
Proof.
  intros Hw F C m'.
  assert (Hl : playlists_of (session m) T = Track.playlists x)
    by (unfold playlists_of; now rewrite F).
  assert (Em : session m' =
               update_track T
                 (Track.set_playlists (Track.playlists x ++ [P]))
                 (session m)).
  { unfold m'. rewrite add_track_to_playlist_new by now rewrite Hl.
    cbn [snd session]. now rewrite Hl. }
  destruct (tracks_of_update T x (session m) (proj2 Hw) F)
    as [A [B [H0 H1]]].
  assert (Hd : duration_of (session m) T = Track.duration x)
    by (unfold duration_of; now rewrite F).
  assert (Hdur : forall l,
            map (duration_of (session m')) l =
            map (duration_of (session m)) l).
  { intros l. apply map_ext. intros k. rewrite Em.
    apply duration_of_update. }
  split; [| split].
  - unfold get_length. rewrite Em, H1, H0.
    rewrite count_occ_app_last, (count_occ_absent _ _ C).
    destruct (Z.eq_dec P P); [| congruence].
    rewrite !length_app. simpl. lia.
  - rewrite !get_total_duration_sum, Hdur, Em, H1, H0.
    rewrite count_occ_app_last, (count_occ_absent _ _ C).
    destruct (Z.eq_dec P P); [| congruence].
    rewrite !map_app, !sum_app. simpl. rewrite Hd. lia.
  - intros Q HQ.
    assert (Et : tracks_of (session m') Q = tracks_of (session m) Q).
    { rewrite Em, H1, H0, count_occ_app_last.
      destruct (Z.eq_dec P Q); [congruence |].
      now rewrite Nat.add_0_r. }
    split.
    + unfold get_length. now rewrite Et.
    + now rewrite !get_total_duration_sum, Hdur, Et.
Qed.

(** X7. In a well-formed store, removing a track from a playlist it is in makes
    the playlist one track shorter and its total duration smaller by the
    duration of the track, and leaves every other playlist as it was. *)
Theorem remove_shrinks_playlist (T P : Z) (x : Track.t)
    (m : PlaylistManager) :
  wf m ->
  find_track (session m) T = Some x ->
  contains P (Track.playlists x) = true ->
  let m' := snd (remove_track_from_playlist (Some T) P m) in
  get_length (session m) P = S (get_length (session m') P) /\
  get_total_duration (session m) P =
    get_total_duration (session m') P + Track.duration x /\
  (forall Q, Q <> P ->
     get_length (session m') Q = get_length (session m) Q /\
     get_total_duration (session m') Q = get_total_duration (session m) Q).
Proof.
  intros Hw F C m'.
  assert (Hl : playlists_of (session m) T = Track.playlists x)
    by (unfold playlists_of; now rewrite F).
  assert (Em : session m' =
               update_track T
                 (Track.set_playlists (list_remove P (Track.playlists x)))
                 (session m)).
  { unfold m'. rewrite remove_track_from_playlist_member by now rewrite Hl.
    cbn [snd session]. now rewrite Hl. }
  destruct (tracks_of_update T x (session m) (proj2 Hw) F)
    as [A [B [H0 H1]]].
  assert (Hd : duration_of (session m) T = Track.duration x)
    by (unfold duration_of; now rewrite F).
  assert (Hdur : forall l,
            map (duration_of (session m')) l =
            map (duration_of (session m)) l).
  { intros l. apply map_ext. intros k. rewrite Em.
    apply duration_of_update. }
  assert (Hone : count_occ Z.eq_dec (Track.playlists x) P = 1%nat).
  { apply count_occ_member_once; [| exact C].
    rewrite <- Hl. apply wf_playlists_of, Hw. }
  split; [| split].
  - unfold get_length. rewrite Em, H1, H0, count_occ_list_remove, Hone.
    destruct (Z.eq_dec P P); [| congruence].
    rewrite !length_app. simpl. lia.
  - rewrite !get_total_duration_sum, Hdur, Em, H1, H0.
    rewrite count_occ_list_remove, Hone.
    destruct (Z.eq_dec P P); [| congruence].
    rewrite !map_app, !sum_app. simpl. rewrite Hd. lia.
  - intros Q HQ.
    assert (Et : tracks_of (session m') Q = tracks_of (session m) Q).
    { rewrite Em, H1, H0, count_occ_list_remove.
      now destruct (Z.eq_dec P Q); [congruence |]. }
    split.
    + unfold get_length. now rewrite Et.
    + now rewrite !get_total_duration_sum, Hdur, Et.
Qed.

Lemma add_grows_playlist_witness :
  let m' := snd (add_track_to_playlist (Some 1) 2 road_trip) in
  get_length (session road_trip) 2 = 0%nat /\
  get_length (session m') 2 = 1%nat /\
  get_total_duration (session m') 2 = 200 /\
  get_length (session m') 1 = 1%nat.
Proof.
  intros m'.
  assert (Hw : wf road_trip)
    by (unfold road_trip, liked_track, one_track; auto with store_wf).
  destruct (add_grows_playlist 1 2 (Track.set_playlists [1] song_a)
              road_trip Hw eq_refl eq_refl) as [H1 [H2 H3]].
  fold m' in H1, H2, H3.
  split; [reflexivity |]. split; [rewrite H1; reflexivity |].
  split; [rewrite H2; reflexivity |].
  destruct (H3 1) as [H4 _]; [discriminate |]. rewrite H4. reflexivity.
Defined.

Lemma remove_shrinks_playlist_witness :
  let m' := snd (remove_track_from_playlist (Some 1) 1 road_trip) in
  get_length (session road_trip) 1 = 1%nat /\
  get_length (session m') 1 = 0%nat /\
  get_total_duration (session road_trip) 1 = 200 /\
  get_total_duration (session m') 1 = 0.
Proof.
  intros m'.
  assert (Hw : wf road_trip)
    by (unfold road_trip, liked_track, one_track; auto with store_wf).
  destruct (remove_shrinks_playlist 1 1 (Track.set_playlists [1] song_a)
              road_trip Hw eq_refl eq_refl) as [H1 [H2 _]].
  fold m' in H1, H2.
  split; [reflexivity |].
  split; [apply eq_add_S; rewrite <- H1; reflexivity |].
  split; [reflexivity |].
  assert (E : get_total_duration (session road_trip) 1 = 200)
    by reflexivity.
  rewrite E in H2.
  change (Track.duration (Track.set_playlists [1] song_a)) with 200 in H2.
  lia.
Defined.

Lemma get_or_create_track_nonempty_witness :
  "Song A" <> "" /\
  wf one_track /\
  find (track_by_title (Some "Song A")) (track (session one_track))
    = Some song_a /\
  get_or_create_track "Song A" "Artist B" "Album B" 245 "http://stream/b"
    (Some "http://cover/b") one_track = (Ok 1, one_track).
Proof.
  assert (Hne : "Song A" <> "") by discriminate.
  split; [exact Hne |]. split; [exact wf_one_track |].
  split; [reflexivity |].
  destruct (get_or_create_track_nonempty "Song A" "Artist B" "Album B" 245
              "http://stream/b" (Some "http://cover/b")
              "Artist C" "Album C" 1 "http://stream/c" None
              one_track Hne wf_one_track) as [H _].
  apply (H song_a). reflexivity.
Defined.

(** ** Creating a track and adding it *)

Lemma find_track_by_key (d : Database) (x : Track.t) :
  wf_db d -> In x (track d) -> find_track d (Track.id x) = Some x.
Proof.
  intros Hw Hx.
  destruct (find_exists (fun y => Z.eqb (Track.id y) (Track.id x))
              (track d) x Hx (Z.eqb_refl _)) as [y Hy].
  unfold find_track. rewrite Hy. f_equal.
  apply find_some in Hy as [Hin Hid]. apply Z.eqb_eq in Hid.
  eapply same_key_same_row;
    [apply (wf_track_nodup d Hw) | exact Hin | exact Hx | exact Hid].
Qed.

Lemma find_track_fresh (d : Database) :
  wf_db d -> find_track d (track_seq d) = None.
Proof.
  intros Hw. unfold find_track.
  destruct (find _ (track d)) as [y|] eqn:E; [| reflexivity].
  apply find_some in E as [Hin Hid]. apply Z.eqb_eq in Hid.
  pose proof (wf_track_ids d Hw) as Hb. rewrite Forall_forall in Hb.
  specialize (Hb y Hin). lia.
Qed.

(** The track [get_or_create_track] answers with is a row of the store with
    the title asked for, the playlist table is not touched, and for a
    non-empty title the row is the first one with the title. *)
Lemma get_or_create_track_row (title artist album : string) (duration : Z)
    (stream_url : string) (cover_art_url : option string)
    (m : PlaylistManager) :
  wf m ->
  let r := get_or_create_track title artist album duration stream_url
             cover_art_url m in
  exists k x,
    r = (Ok k, snd r) /\
    find_track (session (snd r)) k = Some x /\
    Track.title x = title /\
    playlist (session (snd r)) = playlist (session m) /\
    playlist_seq (session (snd r)) = playlist_seq (session m) /\
    (title <> "" ->
     option_map Track.id
       (find (track_by_title (Some title)) (track (session (snd r))))
     = Some k).
Proof.
  intros Hw r. subst r.
  destruct (first_titled title (session m)) as [x|] eqn:E.
  - rewrite (get_or_create_track_found _ _ _ _ _ _ _ _ E). cbn [snd].
    unfold first_titled in E.
    destruct (truthy_str (Some title)); [| discriminate].
    pose proof E as E'. apply find_some in E' as [Hin Ht].
    exists (Track.id x), x. split; [reflexivity |].
    split; [now apply find_track_by_key; [apply Hw |] |].
    split; [now apply String.eqb_eq |].
    split; [reflexivity |]. split; [reflexivity |].
    intros _. now rewrite E.
  - rewrite (get_or_create_track_created _ _ _ _ _ _ _ E). cbn [snd session].
    set (y := Track.init title artist album duration [] false None
                (Some stream_url) _).
    destruct (track_insert_track y (session m)) as [y' [Et [_ [Hid [Hti _]]]]].
    exists (track_seq (session m)), y'. split; [reflexivity |].
    split.
    { unfold find_track. rewrite Et, find_app_last.
      pose proof (find_track_fresh _ (proj2 Hw)) as Hf.
      unfold find_track in Hf. rewrite Hf. simpl.
      now rewrite Hid, Z.eqb_refl. }
    split; [rewrite Hti; reflexivity |].
    split; [unfold insert_track; now destruct (Track.stream y) |].
    split; [unfold insert_track; now destruct (Track.stream y) |].
    intros Hne. apply find_inserted_track; [reflexivity |].
    unfold first_titled in E.
    now rewrite (truthy_str_nonempty title Hne) in E.
Qed.

Lemma first_titled_key (title : string) (d : Database) (k : Z) :
  title <> "" ->
  option_map Track.id (find (track_by_title (Some title)) (track d))
    = Some k ->
  exists x, first_titled title d = Some x /\ Track.id x = k.
Proof.
  intros Hne H. unfold first_titled.
  rewrite (truthy_str_nonempty title Hne).
  destruct (find _ (track d)) as [x|]; [| discriminate].
  injection H as H. now exists x.
Qed.

Lemma create_and_add_effect (title artist album : string) (duration : Z)
    (stream_url : string) (P : Z) (cover_art_url : option string)
    (m : PlaylistManager) :
  wf m ->
  let r := create_and_add_track_to_playlist title artist album duration
             stream_url P cover_art_url m in
  exists k x,
    r = (Ok k, snd r) /\
    find_track (session (snd r)) k = Some x /\
    Track.title x = title /\
    contains P (Track.playlists x) = true /\
    playlist (session (snd r)) = playlist (session m) /\
    playlist_seq (session (snd r)) = playlist_seq (session m) /\
    (title <> "" ->
     option_map Track.id
       (find (track_by_title (Some title)) (track (session (snd r))))
     = Some k).
Proof.
  intros Hw r. subst r.
  destruct (get_or_create_track_row title artist album duration stream_url
              cover_art_url m Hw) as [k [x [E [F [Ht [Hp [Hs Hfirst]]]]]]].
  set (m1 := snd (get_or_create_track title artist album duration
                    stream_url cover_art_url m)) in *.
  destruct (add_track_to_playlist_effect k P m1 x F) as [A1 [A2 [A3 A4]]].
  destruct (add_track_to_playlist (Some k) P m1) as [[[]|e] m2] eqn:Eadd;
    simpl in A1; [| discriminate].
  cbn [snd] in *.
  assert (Er : create_and_add_track_to_playlist title artist album duration
                 stream_url P cover_art_url m = (Ok k, m2)).
  { unfold create_and_add_track_to_playlist, bind. now rewrite E, Eadd. }
  rewrite Er. cbn [snd].
  assert (Hm2 : exists x2, find_track (session m2) k = Some x2 /\
                           Track.title x2 = title /\
                           forall test : Track.t -> bool,
                             (forall y l, test (Track.set_playlists l y)
                                          = test y) ->
                             option_map Track.id
                               (find test (track (session m2))) =
                             option_map Track.id
                               (find test (track (session m1)))).
  { destruct (contains P (playlists_of (session m1) k)) eqn:C.
    - rewrite (add_track_to_playlist_member _ _ _ C) in Eadd.
      injection Eadd as <-. exists x. now repeat split.
    - rewrite (add_track_to_playlist_new _ _ _ C) in Eadd.
      injection Eadd as <-. cbn [session].
      rewrite find_track_update by reflexivity. rewrite F. simpl.
      eexists. split; [reflexivity |].
      split.
      + destruct (Z.eqb (Track.id x) k); [simpl |]; exact Ht.
      + intros test Htest. rewrite (find_map_update test) by (intros; apply Htest).
        destruct (find test (track (session m1))) as [y|]; [| reflexivity].
        simpl. now destruct (Z.eqb (Track.id y) k). }
  destruct Hm2 as [x2 [F2 [Ht2 Hsame]]].
  exists k, x2. split; [reflexivity |]. split; [exact F2 |].
  split; [exact Ht2 |].
  split.
  { unfold playlists_of in A2. now rewrite F2 in A2. }
  split; [congruence |]. split; [congruence |].
  intros Hne. rewrite Hsame; [now apply Hfirst |].
  intros y l. reflexivity.
Qed.

(** X9. In a well-formed store [create_and_add_track_to_playlist] answers with a
    track of the store that has the title asked for and is in the playlist;
    for a non-empty title a second call, whatever its other track fields,
    answers with the same track and changes nothing. *)
Theorem create_and_add_track_to_playlist_member (title artist album : string)
    (duration : Z) (stream_url : string) (P : Z)
    (cover_art_url : option string) (m : PlaylistManager) :
  wf m ->
  let r := create_and_add_track_to_playlist title artist album duration
             stream_url P cover_art_url m in
  exists k x,
    fst r = Ok k /\
    find_track (session (snd r)) k = Some x /\
    Track.title x = title /\
    contains P (Track.playlists x) = true /\
    (title <> "" ->
     forall artist' album' duration' stream_url' cover_art_url',
       create_and_add_track_to_playlist title artist' album' duration'
         stream_url' P cover_art_url' (snd r) = (Ok k, snd r)).
Proof.
  intros Hw r.
  destruct (create_and_add_effect title artist album duration stream_url P
              cover_art_url m Hw) as [k [x [E [F [Ht [C [_ [_ Hfirst]]]]]]]].
  fold r in E, F, Hfirst. exists k, x.
  split; [now rewrite E |]. split; [exact F |]. split; [exact Ht |].
  split; [exact C |].
  intros Hne artist' album' duration' stream_url' cover_art_url'.
  destruct (first_titled_key title _ k Hne (Hfirst Hne)) as [y [Hy Hk]].
  unfold create_and_add_track_to_playlist, bind.
  rewrite (get_or_create_track_found _ _ _ _ _ _ _ _ Hy), Hk.
  rewrite add_track_to_playlist_member; [reflexivity |].
  unfold playlists_of. now rewrite F.
Qed.

Lemma create_and_add_track_to_playlist_member_witness :
  wf road_trip /\
  "Song B" <> "" /\
  fst (create_and_add_track_to_playlist "Song B" "Artist B" "Album B" 245
         "http://stream/b" 2 None road_trip) = Ok 2 /\
  contains 2 (playlists_of
    (session (snd (create_and_add_track_to_playlist "Song B" "Artist B"
                     "Album B" 245 "http://stream/b" 2 None road_trip))) 2)
  = true.
Proof.
  assert (Hw : wf road_trip)
    by (unfold road_trip, liked_track, one_track; auto with store_wf).
  split; [exact Hw |]. split; [discriminate |].
  destruct (create_and_add_track_to_playlist_member "Song B" "Artist B"
              "Album B" 245 "http://stream/b" 2 None road_trip Hw)
    as [k [x [E [F [_ [C _]]]]]].
  split; [reflexivity |].
  assert (Hk : k = 2) by (vm_compute in E; congruence).
  subst k. unfold playlists_of. rewrite F. exact C.
Defined.

Lemma create_and_add_track_to_liked_songs_run (title artist album : string)
    (duration : Z) (stream_url : string) (cover_art_url : option string)
    (now : datetime) (m : PlaylistManager) :
  create_and_add_track_to_liked_songs title artist album duration stream_url
    cover_art_url now m =
  create_and_add_track_to_playlist title artist album duration stream_url
    (playlist_key "Liked Songs" (session m)) cover_art_url
    (snd (get_or_create_playlist "Liked Songs" now m)).
Proof.
  unfold create_and_add_track_to_liked_songs, bind at 1.
  now rewrite get_or_create_playlist_run.
Qed.

(** X10. In a well-formed store [create_and_add_track_to_liked_songs] answers
    with a track that [track_is_liked] then reports as liked, without
    changing the state again. *)
Theorem create_and_add_track_to_liked_songs_liked
    (title artist album : string) (duration : Z) (stream_url : string)
    (cover_art_url : option string) (now now' : datetime)
    (m : PlaylistManager) :
  wf m ->
  let r := create_and_add_track_to_liked_songs title artist album duration
             stream_url cover_art_url now m in
  exists k,
    fst r = Ok k /\
    option_map Track.title (find_track (session (snd r)) k) = Some title /\
    track_is_liked (Some k) now' (snd r) = (Ok true, snd r).
Proof.
  intros Hw r. subst r.
  rewrite create_and_add_track_to_liked_songs_run.
  set (K := playlist_key "Liked Songs" (session m)).
  set (m0 := snd (get_or_create_playlist "Liked Songs" now m)).
  assert (W0 : wf m0) by now apply wf_get_or_create_playlist.
  destruct (create_and_add_effect title artist album duration stream_url K
              cover_art_url m0 W0) as [k [x [E [F [Ht [C [Hp [Hs _]]]]]]]].
  set (mr := snd (create_and_add_track_to_playlist title artist album
                    duration stream_url K cover_art_url m0)) in *.
  exists k. split; [now rewrite E |].
  split; [now rewrite F; simpl; rewrite Ht |].
  destruct (get_or_create_playlist_spec "Liked Songs" now m) as [p [_ Fp]].
  fold m0 in Fp. rewrite <- Hp in Fp.
  rewrite track_is_liked_run.
  rewrite (get_or_create_playlist_found _ _ _ _ Fp). cbn [snd].
  f_equal. f_equal.
  rewrite (playlist_key_ext _ _ _ Hp Hs).
  unfold m0. rewrite get_or_create_playlist_key. fold K.
  unfold playlists_of. now rewrite F.
Qed.

Lemma create_and_add_track_to_liked_songs_liked_witness :
  wf one_track /\
  fst (create_and_add_track_to_liked_songs "Song B" "Artist B" "Album B" 245
         "http://stream/b" None 1700000000 one_track) = Ok 2 /\
  fst (track_is_liked (Some 2) 1700000100
         (snd (create_and_add_track_to_liked_songs "Song B" "Artist B"
                 "Album B" 245 "http://stream/b" None 1700000000 one_track)))
  = Ok true.
Proof.
  split; [exact wf_one_track |].
  destruct (create_and_add_track_to_liked_songs_liked "Song B" "Artist B"
              "Album B" 245 "http://stream/b" None 1700000000 1700000100
              one_track wf_one_track) as [k [E [_ L]]].
  split; [reflexivity |].
  assert (Hk : k = 2) by (vm_compute in E; congruence).
  subst k. now rewrite L.
Defined.

(** ** Renaming a playlist *)

Lemma find_title_renamed (P : Z) (t : string) (p : Playlist.t)
    (l : list Playlist.t) :
  find (fun q => Z.eqb (Playlist.id q) P) l = Some p ->
  find (playlist_by_title t) l = None ->
  option_map Playlist.id
    (find (playlist_by_title t)
       (map (fun q => if Z.eqb (Playlist.id q) P
                      then Playlist.set_title t q else q) l)) = Some P.
Proof.
  induction l as [|a l IH]; simpl; intros Hp Ht; [discriminate |].
  destruct (playlist_by_title t a) eqn:Ea; [discriminate |].
  destruct (Z.eqb_spec (Playlist.id a) P) as [E|E].
  - unfold playlist_by_title at 1. simpl. rewrite String.eqb_refl.
    simpl. now rewrite E.
  - rewrite Ea. auto.
Qed.

Lemma find_title_not_renamed (P : Z) (t old : string) (q : Playlist.t)
    (l : list Playlist.t) :
  old <> t ->
  find (playlist_by_title old)
    (map (fun q => if Z.eqb (Playlist.id q) P
                   then Playlist.set_title t q else q) l) = Some q ->
  Playlist.id q <> P.
Proof.
  intros Hne F. apply find_some in F as [Hin Ht].
  apply in_map_iff in Hin as [a [Ea Ha]].
  destruct (Z.eqb_spec (Playlist.id a) P) as [E|E]; subst q.
  - unfold playlist_by_title in Ht. simpl in Ht.
    apply String.eqb_eq in Ht. congruence.
  - exact E.
Qed.

(** X11. Renaming a playlist of the store gives its row the new title and keeps
    its key, description and date; the other playlists and every track, and
    so every pairing, are as before.  A playlist with the new title exists
    afterwards; looking the new title up answers with the renamed playlist
    when no playlist had that title before, and looking any other title up
    never answers with it. *)
Theorem rename_playlist_effect (P : Z) (t : string) (p : Playlist.t)
    (m : PlaylistManager) :
  find_playlist (session m) P = Some p ->
  let m' := snd (rename_playlist (Some P) t m) in
  fst (rename_playlist (Some P) t m) = Ok tt /\
  find_playlist (session m') P = Some (Playlist.set_title t p) /\
  (forall Q, Q <> P ->
     find_playlist (session m') Q = find_playlist (session m) Q) /\
  track (session m') = track (session m) /\
  playlist_track (session m') = playlist_track (session m) /\
  fst (playlist_exists t m') = Ok true /\
  (fst (playlist_exists t m) = Ok false ->
   fst (get_playlist t m') = Ok (Some P)) /\
  (forall old, old <> t -> fst (get_playlist old m') <> Ok (Some P)) /\
  engine m' = session m'.
Proof.
  intros F m'.
  set (d := update_playlist P (Playlist.set_title t) (session m)).
  assert (Hs : session m' = d) by reflexivity.
  assert (He : engine m' = d) by reflexivity.
  pose proof F as F'. apply find_some in F' as [Hin Hid].
  apply Z.eqb_eq in Hid.
  split; [reflexivity |].
  split.
  { rewrite Hs. unfold d. rewrite find_playlist_update by reflexivity.
    rewrite F. simpl. apply Z.eqb_eq in Hid. now rewrite Hid. }
  split.
  { intros Q HQ. rewrite Hs. unfold d.
    rewrite find_playlist_update by reflexivity.
    destruct (find_playlist (session m) Q) as [q|] eqn:E; [| reflexivity].
    simpl. apply find_some in E as [_ E]. apply Z.eqb_eq in E.
    destruct (Z.eqb_spec (Playlist.id q) P); [congruence | reflexivity]. }
  split; [now rewrite Hs |]. split; [now rewrite Hs |].
  split.
  { rewrite playlist_exists_run, Hs. cbn [fst].
    destruct (find_exists (playlist_by_title t) (playlist d)
                (Playlist.set_title t p)) as [b Hb].
    - unfold d. simpl. apply in_map_iff. exists p. split; [| exact Hin].
      apply Z.eqb_eq in Hid. now rewrite Hid.
    - unfold playlist_by_title. simpl. apply String.eqb_refl.
    - now rewrite Hb. }
  split.
  { intros Hno. rewrite playlist_exists_run in Hno. cbn [fst] in Hno.
    rewrite get_playlist_run, Hs. cbn [fst]. f_equal.
    apply (find_title_renamed P t p); [exact F |].
    now destruct (find (playlist_by_title t) (playlist (session m))). }
  split; [| now rewrite Hs, He].
  intros old Hne. rewrite get_playlist_run, Hs. cbn [fst].
  destruct (find (playlist_by_title old) (playlist d)) as [q|] eqn:E;
    [| discriminate].
  simpl. intros H. injection H as H.
  now apply (find_title_not_renamed P t old q _ Hne E).
Qed.

Lemma rename_playlist_effect_witness :
  let m' := snd (rename_playlist (Some 2) "Summer" road_trip) in
  find_playlist (session road_trip) 2
    = Some (Playlist.mk 2 "Road Trip" "" 1700000100 false) /\
  fst (playlist_exists "Summer" road_trip) = Ok false /\
  find_playlist (session m') 2
    = Some (Playlist.mk 2 "Summer" "" 1700000100 false) /\
  fst (get_playlist "Summer" m') = Ok (Some 2) /\
  fst (get_playlist "Road Trip" m') <> Ok (Some 2).
Proof.
  intros m'.
  destruct (rename_playlist_effect 2 "Summer"
              (Playlist.mk 2 "Road Trip" "" 1700000100 false)
              road_trip eq_refl) as (_ & A & _ & _ & _ & _ & B & C & _).
  fold m' in A, B, C.
  split; [reflexivity |]. split; [reflexivity |].
  split; [exact A |]. split; [apply B; reflexivity |].
  apply C. discriminate.
Defined.

(** X12. Renaming a playlist to "Liked Songs" when no playlist has that title
    makes it the liked-songs playlist: [track_is_liked] then answers, for
    every track, whether the track was in the renamed playlist, and creates
    nothing. *)
Theorem rename_to_liked_songs (P T : Z) (p : Playlist.t) (now : datetime)
    (m : PlaylistManager) :
  find_playlist (session m) P = Some p ->
  fst (playlist_exists "Liked Songs" m) = Ok false ->
  let m' := snd (rename_playlist (Some P) "Liked Songs" m) in
  track_is_liked (Some T) now m' =
  (Ok (contains P (playlists_of (session m) T)), m').
Proof.
  intros F Hno m'.
  rewrite playlist_exists_run in Hno. simpl in Hno.
  assert (Hnone : find (playlist_by_title "Liked Songs")
                    (playlist (session m)) = None)
    by now destruct (find _ (playlist (session m))).
  pose proof (find_title_renamed P "Liked Songs" p _ F Hnone) as Hk.
  destruct (find (playlist_by_title "Liked Songs")
              (map (fun q => if Z.eqb (Playlist.id q) P
                             then Playlist.set_title "Liked Songs" q else q)
                   (playlist (session m)))) as [q|] eqn:E;
    [| discriminate].
  injection Hk as Hk.
  assert (E' : find (playlist_by_title "Liked Songs")
                 (playlist (session m')) = Some q) by exact E.
  rewrite track_is_liked_run.
  rewrite (get_or_create_playlist_found _ _ _ _ E'). cbn [snd].
  unfold playlist_key. rewrite E', Hk. reflexivity.
Qed.

Lemma rename_to_liked_songs_witness :
  let m := snd (rename_playlist (Some 1) "Old Likes" road_trip) in
  find_playlist (session m) 1
    = Some (Playlist.mk 1 "Old Likes" "" 1700000000 false) /\
  fst (playlist_exists "Liked Songs" m) = Ok false /\
  fst (track_is_liked (Some 1) 1700000300
         (snd (rename_playlist (Some 1) "Liked Songs" m))) = Ok true /\
  snd (track_is_liked (Some 1) 1700000300
         (snd (rename_playlist (Some 2) "Liked Songs" m)))
    = snd (rename_playlist (Some 2) "Liked Songs" m).
Proof.
  intros m. split; [reflexivity |]. split; [reflexivity |].
  split.
  - rewrite (rename_to_liked_songs 1 1
               (Playlist.mk 1 "Old Likes" "" 1700000000 false) 1700000300
               m eq_refl eq_refl).
    reflexivity.
  - rewrite (rename_to_liked_songs 2 1
               (Playlist.mk 2 "Road Trip" "" 1700000100 false) 1700000300
               m eq_refl eq_refl).
    reflexivity.
Defined.

(** ** Editing a description, setting a cover *)

Lemma playlist_track_update (k : Z) (f : Track.t -> Track.t) (d : Database) :
  (forall x, Track.id (f x) = Track.id x) ->
  (forall x, Track.playlists (f x) = Track.playlists x) ->
  playlist_track (update_track k f d) = playlist_track d.
Proof.
  intros Hid Hp. unfold playlist_track. simpl.
  induction (track d) as [|x ts IH]; simpl; [reflexivity |].
  rewrite IH. f_equal.
  destruct (Z.eqb (Track.id x) k); [now rewrite Hid, Hp | reflexivity].
Qed.

(** X13. Editing the description of a playlist of the store stores the new
    description in its row and changes no key and no title: every title
    lookup answers as before, the other playlists and the tracks are
    untouched, and of two edits in a row the second one alone counts. *)
Theorem edit_playlist_description_effect (P : Z) (s s' : string)
    (p : Playlist.t) (m : PlaylistManager) :
  find_playlist (session m) P = Some p ->
  let m' := snd (edit_playlist_description (Some P) s m) in
  find_playlist (session m') P = Some (Playlist.set_description s p) /\
  (forall Q, Q <> P ->
     find_playlist (session m') Q = find_playlist (session m) Q) /\
  (forall title, fst (get_playlist title m') = fst (get_playlist title m)) /\
  track (session m') = track (session m) /\
  session (snd (edit_playlist_description (Some P) s' m')) =
    session (snd (edit_playlist_description (Some P) s' m)) /\
  engine m' = session m'.
Proof.
  intros F m'.
  set (d := update_playlist P (Playlist.set_description s) (session m)).
  assert (Hs : session m' = d) by reflexivity.
  pose proof F as F'. apply find_some in F' as [Hin Hid].
  split.
  { rewrite Hs. unfold d. rewrite find_playlist_update by reflexivity.
    rewrite F. simpl. now rewrite Hid. }
  split.
  { intros Q HQ. rewrite Hs. unfold d.
    rewrite find_playlist_update by reflexivity.
    destruct (find_playlist (session m) Q) as [q|] eqn:E; [| reflexivity].
    simpl. apply find_some in E as [_ E]. apply Z.eqb_eq in E.
    destruct (Z.eqb_spec (Playlist.id q) P); [congruence | reflexivity]. }
  split.
  { intros title. rewrite !get_playlist_run, Hs. cbn [fst]. f_equal.
    unfold d. simpl.
    rewrite (find_map_update (playlist_by_title title)) by reflexivity.
    destruct (find (playlist_by_title title) (playlist (session m)))
      as [q|]; [| reflexivity].
    simpl. now destruct (Z.eqb (Playlist.id q) P). }
  split; [reflexivity |].
  split; [| reflexivity].
  simpl. unfold update_playlist. simpl. f_equal. rewrite map_map.
  apply map_ext. intros q.
  destruct (Z.eqb (Playlist.id q) P) eqn:E; simpl; now rewrite E.
Qed.

Lemma edit_playlist_description_effect_witness :
  find_playlist (session road_trip) 2
    = Some (Playlist.mk 2 "Road Trip" "" 1700000100 false) /\
  find_playlist
    (session (snd (edit_playlist_description (Some 2) "For the car"
                     road_trip))) 2
    = Some (Playlist.mk 2 "Road Trip" "For the car" 1700000100 false).
Proof.
  split; [reflexivity |].
  apply (proj1 (edit_playlist_description_effect 2 "For the car" ""
                  (Playlist.mk 2 "Road Trip" "" 1700000100 false)
                  road_trip eq_refl)).
Defined.

(** X14. Setting the cover of a track of the store stores the url in its row and
    changes nothing else: the other tracks, every pairing and every playlist
    are untouched, [get_track] answers as before, and of two calls in a row
    the second one alone counts. *)
Theorem add_track_cover_art_effect (T : Z) (u u' : string) (x : Track.t)
    (m : PlaylistManager) :
  find_track (session m) T = Some x ->
  let m' := snd (add_track_cover_art (Some T) u m) in
  find_track (session m') T = Some (Track.set_cover_art_url u x) /\
  (forall T', T' <> T ->
     find_track (session m') T' = find_track (session m) T') /\
  (forall title id, fst (get_track title id m') = fst (get_track title id m)) /\
  playlist_track (session m') = playlist_track (session m) /\
  playlist (session m') = playlist (session m) /\
  session (snd (add_track_cover_art (Some T) u' m')) =
    session (snd (add_track_cover_art (Some T) u' m)) /\
  engine m' = session m'.
Proof.
  intros F m'.
  set (d := update_track T (Track.set_cover_art_url u) (session m)).
  assert (Hs : session m' = d) by reflexivity.
  pose proof F as F'. apply find_some in F' as [Hin Hid].
  split.
  { rewrite Hs. unfold d. rewrite find_track_update by reflexivity.
    rewrite F. simpl. now rewrite Hid. }
  split.
  { intros T' HT. rewrite Hs. unfold d.
    rewrite find_track_update by reflexivity.
    destruct (find_track (session m) T') as [y|] eqn:E; [| reflexivity].
    simpl. apply find_some in E as [_ E]. apply Z.eqb_eq in E.
    destruct (Z.eqb_spec (Track.id y) T); [congruence | reflexivity]. }
  split.
  { intros title id.
    now apply (get_track_update_track title id T
                 (Track.set_cover_art_url u)). }
  split; [rewrite Hs; now apply playlist_track_update |].
  split; [reflexivity |].
  split; [| reflexivity].
  simpl. unfold update_track. simpl. f_equal. rewrite map_map.
  apply map_ext. intros y.
  destruct (Z.eqb (Track.id y) T) eqn:E; simpl; now rewrite E.
Qed.

Lemma add_track_cover_art_effect_witness :
  find_track (session one_track) 1 = Some song_a /\
  find_track
    (session (snd (add_track_cover_art (Some 1) "http://cover/a" one_track)))
    1
  = Some (Track.set_cover_art_url "http://cover/a" song_a).
Proof.
  split; [reflexivity |].
  apply (proj1 (add_track_cover_art_effect 1 "http://cover/a" "" song_a
                  one_track eq_refl)).
Defined.

(** ** A playlist just created *)

Lemma find_playlist_fresh (d : Database) :
  wf_db d -> find_playlist d (playlist_seq d) = None.
Proof.
  intros Hw. unfold find_playlist.
  destruct (find _ (playlist d)) as [y|] eqn:E; [| reflexivity].
  apply find_some in E as [Hin Hid]. apply Z.eqb_eq in Hid.
  pose proof (wf_playlist_ids d Hw) as Hb. rewrite Forall_forall in Hb.
  specialize (Hb y Hin). lia.
Qed.

Lemma tracks_of_absent (d : Database) (k : Z) :
  ref_ok d -> find_playlist d k = None -> tracks_of d k = [].
Proof.
  intros Hr Hk. unfold tracks_of.
  destruct (filter _ (playlist_track d)) as [|r rs] eqn:E; [reflexivity |].
  assert (Hin : In r (filter (fun r => Z.eqb (fst r) k) (playlist_track d)))
    by (rewrite E; now left).
  apply filter_In in Hin as [Hin Hf]. apply Z.eqb_eq in Hf.
  destruct (Hr r Hin) as [[p Hp] _]. rewrite Hf in Hp. congruence.
Qed.

(** X15. When no playlist has the title, and the store is well formed and has no
    dangling pairing, [get_or_create_playlist] answers with a new key whose
    row has the title, an empty description, the current time and
    [downloaded] unset; the new playlist has no track and a total duration
    of zero; the other playlists and the tracks are untouched. *)
Theorem created_playlist_is_empty (title : string) (now : datetime)
    (m : PlaylistManager) :
  wf m -> refs m ->
  fst (playlist_exists title m) = Ok false ->
  let r := get_or_create_playlist title now m in
  let k := playlist_seq (session m) in
  fst r = Ok k /\
  find_playlist (session m) k = None /\
  find_playlist (session (snd r)) k = Some (Playlist.mk k title "" now false) /\
  tracks_of (session (snd r)) k = [] /\
  get_length (session (snd r)) k = 0%nat /\
  get_total_duration (session (snd r)) k = 0 /\
  (forall Q, Q <> k ->
     find_playlist (session (snd r)) Q = find_playlist (session m) Q) /\
  track (session (snd r)) = track (session m).
Proof.
  intros Hw Hr Hno r k.
  rewrite playlist_exists_run in Hno. cbn [fst] in Hno.
  assert (Hnone : find (playlist_by_title title) (playlist (session m))
                  = None)
    by now destruct (find _ (playlist (session m))).
  assert (Er : r = (Ok k,
                    let d := insert_playlist
                               (Playlist.init title now false None)
                               (session m) in
                    mkManager d d (S (commits m))))
    by apply (get_or_create_playlist_created _ _ _ Hnone).
  pose proof (find_playlist_fresh _ (proj2 Hw)) as Hfresh. fold k in Hfresh.
  assert (Ht : tracks_of (session (snd r)) k = []).
  { rewrite Er. cbn [snd session].
    change (tracks_of (session m) k = []).
    now apply tracks_of_absent; [apply Hr |]. }
  rewrite Er at 1. split; [reflexivity |]. split; [exact Hfresh |].
  split.
  { rewrite Er. cbn [snd session]. unfold find_playlist. simpl.
    rewrite find_app_last. unfold find_playlist in Hfresh. rewrite Hfresh.
    simpl. fold k. now rewrite Z.eqb_refl. }
  split; [exact Ht |].
  split; [unfold get_length; now rewrite Ht |].
  split; [rewrite get_total_duration_sum; now rewrite Ht |].
  split; [| now rewrite Er].
  intros Q HQ. rewrite Er. cbn [snd session]. unfold find_playlist. simpl.
  rewrite find_app_last. simpl. fold k.
  destruct (find (fun p => Z.eqb (Playlist.id p) Q) (playlist (session m)));
    [reflexivity |].
  destruct (Z.eqb_spec k Q); [congruence | reflexivity].
Qed.

Lemma refs_liked_track : refs liked_track.
Proof.
  unfold liked_track, one_track.
  unfold add_track_to_liked_songs, bind. rewrite get_or_create_playlist_run.
  destruct (liked_songs_row 1700000000
              (snd (get_or_create_track "Song A" "Artist A" "Album A" 200
                      "http://stream/a" None (PlaylistManager_init empty_db))))
    as [p Hp].
  eapply refs_add_track_to_playlist; [exact Hp |].
  apply refs_get_or_create_playlist, refs_get_or_create_track.
  split; apply ref_ok_empty_db.
Qed.

Lemma created_playlist_is_empty_witness :
  wf liked_track /\ refs liked_track /\
  fst (playlist_exists "Road Trip" liked_track) = Ok false /\
  fst (get_or_create_playlist "Road Trip" 1700000100 liked_track) = Ok 2 /\
  get_length (session road_trip) 2 = 0%nat /\
  get_total_duration (session road_trip) 2 = 0.
Proof.
  split; [exact wf_liked_track |]. split; [exact refs_liked_track |].
  split; [reflexivity |].
  destruct (created_playlist_is_empty "Road Trip" 1700000100 liked_track
              wf_liked_track refs_liked_track eq_refl)
    as (A & _ & _ & _ & B & C & _).
  split; [exact A |]. split; [exact B | exact C].
Defined.

(** ** Titles as keys of playlists *)

Lemma same_image_same_row {A B} (key : A -> B) (l : list A) (a b : A) :
  NoDup (map key l) -> In a l -> In b l -> key a = key b -> a = b.
Proof.
  induction l as [|c l IH]; simpl; intros Hd Ha Hb E.
  - contradiction.
  - inversion Hd as [|? ? Hn Hd']; subst.
    destruct Ha as [Ha|Ha], Hb as [Hb|Hb]; subst.
    + reflexivity.
    + exfalso. apply Hn. rewrite E. now apply in_map.
    + exfalso. apply Hn. rewrite <- E. now apply in_map.
    + now apply IH.
Qed.

Lemma NoDup_map_filter_any {A B} (key : A -> B) (f : A -> bool)
    (l : list A) :
  NoDup (map key l) -> NoDup (map key (filter f l)).
Proof.
  induction l as [|a l IH]; simpl; intros H.
  - constructor.
  - inversion H as [|? ? Hn Hd]; subst.
    destruct (f a); simpl; [| auto].
    constructor; [| auto].
    intros Hin. apply Hn.
    apply in_map_iff in Hin as [y [Hy Hin]].
    apply filter_In in Hin as [Hin _].
    apply in_map_iff. now exists y.
Qed.

Lemma title_absent (t : string) (l : list Playlist.t) :
  find (playlist_by_title t) l = None -> ~ In t (map Playlist.title l).
Proof.
  intros H Hin. apply in_map_iff in Hin as [a [Ea Ha]].
  pose proof (find_none _ _ H a Ha) as Hf.
  unfold playlist_by_title in Hf. rewrite Ea, String.eqb_refl in Hf.
  discriminate.
Qed.

Lemma unique_insert_playlist (t : string) (now : datetime) (d : Database) :
  find (playlist_by_title t) (playlist d) = None ->
  unique_titles d ->
  unique_titles (insert_playlist (Playlist.init t now false None) d).
Proof.
  intros Hno Hu. unfold unique_titles. simpl. rewrite map_app. simpl.
  apply NoDup_app.
  - exact Hu.
  - constructor; [intros [] | constructor].
  - intros s Hs [E | []]. subst s. now apply (title_absent t _ Hno).
Qed.

Lemma renamed_titles (P : Z) (t s : string) (l : list Playlist.t) :
  In s (map Playlist.title
          (map (fun q => if Z.eqb (Playlist.id q) P
                         then Playlist.set_title t q else q) l)) ->
  In s (map Playlist.title l) \/ s = t.
Proof.
  rewrite map_map. intros H. apply in_map_iff in H as [a [Ea Ha]].
  destruct (Z.eqb (Playlist.id a) P).
  - right. now rewrite <- Ea.
  - left. rewrite <- Ea. now apply in_map.
Qed.

Lemma unique_rename (P : Z) (t : string) (l : list Playlist.t) :
  NoDup (map Playlist.id l) ->
  NoDup (map Playlist.title l) ->
  ~ In t (map Playlist.title l) ->
  NoDup (map Playlist.title
           (map (fun q => if Z.eqb (Playlist.id q) P
                          then Playlist.set_title t q else q) l)).
Proof.
  induction l as [|a l IH]; simpl; intros Hi Hu Ht; [constructor |].
  inversion Hi as [|? ? Hni Hi']; subst.
  inversion Hu as [|? ? Hnu Hu']; subst.
  assert (Ht' : ~ In t (map Playlist.title l)) by tauto.
  constructor; [| now apply IH].
  destruct (Z.eqb_spec (Playlist.id a) P) as [E|E]; simpl.
  - (* the renamed row is the only one with key [P] *)
    assert (Hsame : map (fun q => if Z.eqb (Playlist.id q) P
                                  then Playlist.set_title t q else q) l = l).
    { rewrite <- (map_id l) at 2. apply map_ext_in. intros q Hq.
      destruct (Z.eqb_spec (Playlist.id q) P) as [Eq|Eq]; [| reflexivity].
      exfalso. apply Hni. rewrite E, <- Eq. now apply in_map. }
    now rewrite Hsame.
  - intros Hin. apply renamed_titles in Hin.
    destruct Hin as [Hin | Hin]; [contradiction |].
    apply Ht. now left.
Qed.

Lemma playlist_get_or_create_track (title artist album : string)
    (duration : Z) (stream_url : string) (cover_art_url : option string)
    (m : PlaylistManager) :
  playlist (session (snd (get_or_create_track title artist album duration
                            stream_url cover_art_url m))) =
  playlist (session m).
Proof.
  destruct (first_titled title (session m)) as [x|] eqn:E.
  - now rewrite (get_or_create_track_found _ _ _ _ _ _ _ _ E).
  - rewrite (get_or_create_track_created _ _ _ _ _ _ _ E).
    cbn [snd session]. unfold insert_track.
    now destruct (Track.stream _).
Qed.

Lemma playlist_add_track_to_playlist (track : option Z) (P : Z)
    (m : PlaylistManager) :
  playlist (session (snd (add_track_to_playlist track P m))) =
  playlist (session m).
Proof.
  destruct track as [T|]; [| reflexivity].
  destruct (contains P (playlists_of (session m) T)) eqn:C.
  - now rewrite (add_track_to_playlist_member _ _ _ C).
  - now rewrite (add_track_to_playlist_new _ _ _ C).
Qed.

Lemma playlist_remove_track_from_playlist (track : option Z) (P : Z)
    (m : PlaylistManager) :
  playlist (session (snd (remove_track_from_playlist track P m))) =
  playlist (session m).
Proof.
  destruct track as [T|]; [| reflexivity].
  destruct (contains P (playlists_of (session m) T)) eqn:C.
  - now rewrite (remove_track_from_playlist_member _ _ _ C).
  - now rewrite (remove_track_from_playlist_absent _ _ _ C).
Qed.

Lemma playlist_create_and_add_track_to_playlist (title artist album : string)
    (duration : Z) (stream_url : string) (P : Z)
    (cover_art_url : option string) (m : PlaylistManager) :
  playlist (session (snd (create_and_add_track_to_playlist title artist album
                            duration stream_url P cover_art_url m))) =
  playlist (session m).
Proof.
  unfold create_and_add_track_to_playlist, bind.
  pose proof (playlist_get_or_create_track title artist album duration
                stream_url cover_art_url m) as H1.
  destruct (get_or_create_track title artist album duration stream_url
              cover_art_url m) as [[k|e] m1]; simpl in H1; [| exact H1].
  pose proof (playlist_add_track_to_playlist (Some k) P m1) as H2.
  destruct (add_track_to_playlist (Some k) P m1) as [[[]|e] m2];
    simpl in *; congruence.
Qed.

Lemma unique_get_or_create_playlist (title : string) (now : datetime)
    (m : PlaylistManager) :
  unique_titles (session m) ->
  unique_titles (session (snd (get_or_create_playlist title now m))).
Proof.
  intros Hu.
  destruct (find (playlist_by_title title) (playlist (session m)))
    as [p|] eqn:E.
  - now rewrite (get_or_create_playlist_found _ _ _ _ E).
  - rewrite (get_or_create_playlist_created _ _ _ E).
    now apply unique_insert_playlist.
Qed.

Lemma unique_same (d d' : Database) :
  playlist d' = playlist d -> unique_titles d -> unique_titles d'.
Proof. unfold unique_titles. now intros ->. Qed.

(** X16. When the titles of the playlists are pairwise distinct, looking the
    title of a playlist up answers with that very playlist, and the titles
    stay pairwise distinct under every operation, [rename_playlist] being
    covered when no playlist has the new title: [get_or_create_playlist]
    makes a row only for a title that no row has, and no other operation
    writes a title. *)
Theorem playlist_titles_stay_unique :
  unique_titles (session (PlaylistManager_init empty_db)) /\
  forall m, wf m -> unique_titles (session m) ->
    (forall p, In p (playlist (session m)) ->
       fst (get_playlist (Playlist.title p) m) = Ok (Some (Playlist.id p))) /\
    (forall title now,
       unique_titles (session (snd (get_or_create_playlist title now m)))) /\
    (forall playlist new_title,
       fst (playlist_exists new_title m) = Ok false ->
       unique_titles (session (snd (rename_playlist playlist new_title m)))) /\
    (forall playlist new_description,
       unique_titles
         (session (snd (edit_playlist_description playlist new_description
                          m)))) /\
    (forall playlist,
       unique_titles (session (snd (delete_playlist playlist m)))) /\
    (forall title artist album duration stream_url cover_art_url,
       unique_titles
         (session (snd (get_or_create_track title artist album duration
                          stream_url cover_art_url m)))) /\
    (forall track cover_art_url,
       unique_titles
         (session (snd (add_track_cover_art track cover_art_url m)))) /\
    (forall track playlist,
       unique_titles
         (session (snd (add_track_to_playlist track playlist m)))) /\
    (forall track playlist,
       unique_titles
         (session (snd (remove_track_from_playlist track playlist m)))) /\
    (forall title artist album duration stream_url playlist cover_art_url,
       unique_titles
         (session (snd (create_and_add_track_to_playlist title artist album
                          duration stream_url playlist cover_art_url m)))) /\
    (forall track now,
       unique_titles (session (snd (add_track_to_liked_songs track now m)))) /\
    (forall track now,
       unique_titles
         (session (snd (remove_track_from_liked_songs track now m)))) /\
    (forall track now,
       unique_titles (session (snd (track_is_liked track now m)))) /\
    (forall title artist album duration stream_url cover_art_url now,
       unique_titles
         (session (snd (create_and_add_track_to_liked_songs title artist
                          album duration stream_url cover_art_url now m)))).
Proof.
  split; [constructor |].
  intros m Hw Hu.
  split.
  { intros p Hp. rewrite get_playlist_run. cbn [fst].
    destruct (find_exists (playlist_by_title (Playlist.title p))
                (playlist (session m)) p Hp) as [q Hq].
    - unfold playlist_by_title. apply String.eqb_refl.
    - rewrite Hq. simpl.
      apply find_some in Hq as [Hin Ht]. apply String.eqb_eq in Ht.
      assert (q = p)
        by (apply (same_image_same_row Playlist.title
                     (playlist (session m))); assumption).
      now subst q. }
  split; [intros; now apply unique_get_or_create_playlist |].
  split.
  { intros [k|] t Hno; [| exact Hu].
    rewrite playlist_exists_run in Hno. cbn [fst] in Hno.
    unfold unique_titles. simpl.
    apply unique_rename; [apply (wf_playlist_nodup _ (proj2 Hw)) | exact Hu |].
    apply title_absent.
    now destruct (find (playlist_by_title t) (playlist (session m))). }
  split.
  { intros [k|] s; [| exact Hu].
    unfold unique_titles. simpl. rewrite map_map.
    erewrite map_ext; [exact Hu |].
    intros q. now destruct (Z.eqb (Playlist.id q) k). }
  split.
  { intros [k|]; [| exact Hu].
    unfold unique_titles. simpl. now apply NoDup_map_filter_any. }
  split.
  { intros. eapply unique_same; [| exact Hu].
    apply playlist_get_or_create_track. }
  split; [intros [k|] u; exact Hu |].
  split.
  { intros. eapply unique_same; [| exact Hu].
    apply playlist_add_track_to_playlist. }
  split.
  { intros. eapply unique_same; [| exact Hu].
    apply playlist_remove_track_from_playlist. }
  split.
  { intros. eapply unique_same; [| exact Hu].
    apply playlist_create_and_add_track_to_playlist. }
  split.
  { intros track now. unfold add_track_to_liked_songs, bind.
    rewrite get_or_create_playlist_run.
    eapply unique_same; [apply playlist_add_track_to_playlist |].
    now apply unique_get_or_create_playlist. }
  split.
  { intros track now. unfold remove_track_from_liked_songs, bind.
    rewrite get_or_create_playlist_run.
    eapply unique_same; [apply playlist_remove_track_from_playlist |].
    now apply unique_get_or_create_playlist. }
  split.
  { intros track now. unfold track_is_liked, bind.
    rewrite get_or_create_playlist_run.
    pose proof (unique_get_or_create_playlist "Liked Songs" now m Hu) as H.
    now destruct track. }
  intros. rewrite create_and_add_track_to_liked_songs_run.
  eapply unique_same; [apply playlist_create_and_add_track_to_playlist |].
  now apply unique_get_or_create_playlist.
Qed.

Lemma playlist_titles_stay_unique_witness :
  wf road_trip /\
  unique_titles (session road_trip) /\
  fst (get_playlist "Road Trip" road_trip) = Ok (Some 2) /\
  fst (playlist_exists "Summer" road_trip) = Ok false /\
  unique_titles (session (snd (rename_playlist (Some 2) "Summer" road_trip))).
Proof.
  assert (Hw : wf road_trip)
    by (unfold road_trip, liked_track, one_track; auto with store_wf).
  assert (Hu : unique_titles (session road_trip)).
  { unfold unique_titles. simpl.
    constructor; [simpl; intros [H | []]; discriminate |].
    constructor; [intros [] | constructor]. }
  destruct playlist_titles_stay_unique as [_ H].
  destruct (H road_trip Hw Hu) as (A & _ & B & _).
  split; [exact Hw |]. split; [exact Hu |].
  split.
  - apply (A (Playlist.mk 2 "Road Trip" "" 1700000100 false)).
    right. now left.
  - split; [reflexivity |]. apply B. reflexivity.
Defined.

(** ** Tracks made by the manager are streamed *)

Lemma same_sources_refl (d : Database) : same_sources d d.
Proof. now repeat split. Qed.

Lemma same_sources_trans (d1 d2 d3 : Database) :
  same_sources d1 d2 -> same_sources d2 d3 -> same_sources d1 d3.
Proof.
  intros [A1 [A2 A3]] [B1 [B2 B3]]. repeat split; congruence.
Qed.

Lemma same_sources_tracks (d d' : Database) :
  track d' = track d -> stream_seq d' = stream_seq d -> same_sources d d'.
Proof. intros E1 E2. unfold same_sources. now rewrite E1, E2. Qed.

Lemma same_sources_map (g : Track.t -> Track.t) (d d' : Database) :
  (forall x, Track.path (g x) = Track.path x) ->
  (forall x, Track.stream (g x) = Track.stream x) ->
  track d' = map g (track d) -> stream_seq d' = stream_seq d ->
  same_sources d d'.
Proof.
  intros Hp Hs E1 E2. unfold same_sources. rewrite E1, E2, !map_map.
  repeat split; apply map_ext; assumption.
Qed.

Lemma same_sources_update (k : Z) (f : Track.t -> Track.t) (d : Database) :
  (forall x, Track.path (f x) = Track.path x) ->
  (forall x, Track.stream (f x) = Track.stream x) ->
  same_sources d (update_track k f d).
Proof.
  intros Hp Hs.
  apply (same_sources_map (fun x => if Z.eqb (Track.id x) k then f x else x));
    try reflexivity.
  - intros x. destruct (Z.eqb (Track.id x) k); [apply Hp | reflexivity].
  - intros x. destruct (Z.eqb (Track.id x) k); [apply Hs | reflexivity].
Qed.

Lemma stream_of_streams (ts : list Track.t) :
  flat_map (fun x => match Track.stream x with Some s => [s] | None => [] end)
           ts =
  flat_map (fun o : option Stream.t =>
              match o with Some s => [s] | None => [] end)
           (map Track.stream ts).
Proof.
  induction ts as [|x ts IH]; simpl; [reflexivity | now rewrite IH].
Qed.

Lemma Forall_sources (Q : option string -> option Stream.t -> Prop)
    (ts ts' : list Track.t) :
  map Track.path ts' = map Track.path ts ->
  map Track.stream ts' = map Track.stream ts ->
  Forall (fun x => Q (Track.path x) (Track.stream x)) ts ->
  Forall (fun x => Q (Track.path x) (Track.stream x)) ts'.
Proof.
  revert ts'. induction ts as [|x ts IH]; intros [|x' ts'];
    simpl; intros Ep Es H; try discriminate; constructor.
  - inversion H; subst. injection Ep as Ep _. injection Es as Es _.
    now rewrite Ep, Es.
  - inversion H; subst. injection Ep as _ Ep. injection Es as _ Es.
    now apply IH.
Qed.

Lemma streamed_same (d d' : Database) :
  same_sources d d' -> streamed d -> streamed d'.
Proof.
  intros [Ep [Es En]] [H1 [H2 H3]]. unfold streamed. rewrite En.
  split; [exact H1 |]. split.
  - apply (Forall_sources
             (fun p o => p = None /\
                         exists s, o = Some s /\
                                   0 < Stream.id s < stream_seq d)
             (track d)); assumption.
  - unfold stream in *. rewrite stream_of_streams, Es, <- stream_of_streams.
    exact H3.
Qed.

Lemma streamed_In (d : Database) (s : Stream.t) :
  streamed d -> In s (stream d) -> 0 < Stream.id s < stream_seq d.
Proof.
  intros [_ [H _]] Hs. unfold stream in Hs.
  apply in_flat_map in Hs as [x [Hx Hs]].
  rewrite Forall_forall in H. destruct (H x Hx) as [_ [s' [E Hb]]].
  rewrite E in Hs. destruct Hs as [<- | []]. exact Hb.
Qed.

Lemma streamed_insert_track (title artist album : string) (duration : Z)
    (stream_url cover : string) (d : Database) :
  streamed d ->
  streamed (insert_track
              (Track.init title artist album duration [] false None
                 (Some stream_url) cover) d).
Proof.
  intros Hs. pose proof Hs as [H1 [H2 H3]].
  unfold insert_track, Track.init. simpl. unfold streamed. simpl.
  split; [lia |]. split.
  - apply Forall_app. split.
    + eapply Forall_impl; [| exact H2]. simpl.
      intros x [Hp [s [E Hb]]]. split; [exact Hp |].
      exists s. split; [exact E | lia].
    + constructor; [| constructor]. simpl. split; [reflexivity |].
      eexists. split; [reflexivity |]. simpl. lia.
  - unfold stream. simpl. rewrite flat_map_app, map_app. simpl.
    apply NoDup_app.
    + exact H3.
    + constructor; [intros [] | constructor].
    + intros k Hk [E | []]. subst k.
      apply in_map_iff in Hk as [s [E Hin]].
      pose proof (streamed_In d s Hs Hin). lia.
Qed.

Lemma streamed_get_or_create_track (title artist album : string)
    (duration : Z) (stream_url : string) (cover_art_url : option string)
    (m : PlaylistManager) :
  streamed (session m) ->
  streamed (session (snd (get_or_create_track title artist album duration
                            stream_url cover_art_url m))).
Proof.
  intros Hs.
  destruct (first_titled title (session m)) as [x|] eqn:E.
  - now rewrite (get_or_create_track_found _ _ _ _ _ _ _ _ E).
  - rewrite (get_or_create_track_created _ _ _ _ _ _ _ E).
    cbn [snd session]. now apply streamed_insert_track.
Qed.

Lemma sources_get_or_create_playlist (title : string) (now : datetime)
    (m : PlaylistManager) :
  same_sources (session m)
    (session (snd (get_or_create_playlist title now m))).
Proof.
  destruct (find (playlist_by_title title) (playlist (session m)))
    as [p|] eqn:E.
  - rewrite (get_or_create_playlist_found _ _ _ _ E).
    apply same_sources_refl.
  - rewrite (get_or_create_playlist_created _ _ _ E).
    now apply same_sources_tracks.
Qed.

Lemma sources_add_track_to_playlist (track : option Z) (P : Z)
    (m : PlaylistManager) :
  same_sources (session m) (session (snd (add_track_to_playlist track P m))).
Proof.
  destruct track as [T|]; [| apply same_sources_refl].
  destruct (contains P (playlists_of (session m) T)) eqn:C.
  - rewrite (add_track_to_playlist_member _ _ _ C). apply same_sources_refl.
  - rewrite (add_track_to_playlist_new _ _ _ C).
    now apply same_sources_update.
Qed.

Lemma sources_remove_track_from_playlist (track : option Z) (P : Z)
    (m : PlaylistManager) :
  same_sources (session m)
    (session (snd (remove_track_from_playlist track P m))).
Proof.
  destruct track as [T|]; [| apply same_sources_refl].
  destruct (contains P (playlists_of (session m) T)) eqn:C.
  - rewrite (remove_track_from_playlist_member _ _ _ C).
    now apply same_sources_update.
  - rewrite (remove_track_from_playlist_absent _ _ _ C).
    apply same_sources_refl.
Qed.

Lemma streamed_create_and_add_track_to_playlist (title artist album : string)
    (duration : Z) (stream_url : string) (P : Z)
    (cover_art_url : option string) (m : PlaylistManager) :
  streamed (session m) ->
  streamed (session (snd (create_and_add_track_to_playlist title artist album
                            duration stream_url P cover_art_url m))).
Proof.
  intros Hs. unfold create_and_add_track_to_playlist, bind.
  pose proof (streamed_get_or_create_track title artist album duration
                stream_url cover_art_url m Hs) as H1.
  destruct (get_or_create_track title artist album duration stream_url
              cover_art_url m) as [[k|e] m1]; simpl in H1; [| exact H1].
  pose proof (sources_add_track_to_playlist (Some k) P m1) as H2.
  destruct (add_track_to_playlist (Some k) P m1) as [[[]|e] m2];
    simpl in *; eapply streamed_same; eassumption.
Qed.

Lemma streamed_length (d : Database) :
  streamed d -> List.length (stream d) = List.length (track d).
Proof.
  intros [_ [H _]]. unfold stream.
  induction (track d) as [|x ts IH]; simpl; [reflexivity |].
  inversion H as [|? ? [_ [s [E _]]] H']; subst.
  rewrite E. simpl. now rewrite IH.
Qed.

(** X17. Through the manager every track is a streamed one.  On a new store, and
    after any operation on a store of which this holds, every track has no
    local path and owns a stream row with a key of its own, so that the
    [stream] table has exactly one row for each track: the manager creates
    tracks with a stream url only, and no operation writes a path or a
    stream afterwards. *)
Theorem tracks_stay_streamed :
  streamed (session (PlaylistManager_init empty_db)) /\
  forall m, streamed (session m) ->
    List.length (stream (session m)) = List.length (track (session m)) /\
    (forall title artist album duration stream_url cover_art_url,
       streamed (session (snd (get_or_create_track title artist album
                                 duration stream_url cover_art_url m)))) /\
    (forall track cover_art_url,
       streamed (session (snd (add_track_cover_art track cover_art_url m)))) /\
    (forall title now,
       streamed (session (snd (get_or_create_playlist title now m)))) /\
    (forall playlist new_title,
       streamed (session (snd (rename_playlist playlist new_title m)))) /\
    (forall playlist new_description,
       streamed
         (session (snd (edit_playlist_description playlist new_description
                          m)))) /\
    (forall playlist, streamed (session (snd (delete_playlist playlist m)))) /\
    (forall track playlist,
       streamed (session (snd (add_track_to_playlist track playlist m)))) /\
    (forall title artist album duration stream_url playlist cover_art_url,
       streamed
         (session (snd (create_and_add_track_to_playlist title artist album
                          duration stream_url playlist cover_art_url m)))) /\
    (forall track now,
       streamed (session (snd (add_track_to_liked_songs track now m)))) /\
    (forall title artist album duration stream_url cover_art_url now,
       streamed
         (session (snd (create_and_add_track_to_liked_songs title artist
                          album duration stream_url cover_art_url now m)))) /\
    (forall track playlist,
       streamed (session (snd (remove_track_from_playlist track playlist
                                 m)))) /\
    (forall track now,
       streamed (session (snd (remove_track_from_liked_songs track now m)))) /\
    (forall track now,
       streamed (session (snd (track_is_liked track now m)))).
Proof.
  split.
  { unfold streamed. simpl. split; [lia |]. split; constructor. }
  intros m Hs.
  assert (Hg : forall now,
            streamed (session (snd (get_or_create_playlist "Liked Songs"
                                      now m)))).
  { intros now. eapply streamed_same; [| exact Hs].
    apply sources_get_or_create_playlist. }
  split; [now apply streamed_length |].
  split; [intros; now apply streamed_get_or_create_track |].
  split.
  { intros [k|] u; [| exact Hs]. simpl.
    eapply streamed_same; [| exact Hs]. now apply same_sources_update. }
  split.
  { intros. eapply streamed_same; [| exact Hs].
    apply sources_get_or_create_playlist. }
  split.
  { intros [k|] t; [| exact Hs]. simpl.
    eapply streamed_same; [| exact Hs]. now apply same_sources_tracks. }
  split.
  { intros [k|] t; [| exact Hs]. simpl.
    eapply streamed_same; [| exact Hs]. now apply same_sources_tracks. }
  split.
  { intros [k|]; [| exact Hs]. simpl.
    eapply streamed_same; [| exact Hs].
    apply (same_sources_map
             (fun x => Track.set_playlists
                         (filter (fun p => negb (Z.eqb p k))
                                 (Track.playlists x)) x)); reflexivity. }
  split.
  { intros. eapply streamed_same; [| exact Hs].
    apply sources_add_track_to_playlist. }
  split; [intros; now apply streamed_create_and_add_track_to_playlist |].
  split.
  { intros track now. unfold add_track_to_liked_songs, bind.
    rewrite get_or_create_playlist_run.
    eapply streamed_same; [apply sources_add_track_to_playlist | apply Hg]. }
  split.
  { intros. rewrite create_and_add_track_to_liked_songs_run.
    apply streamed_create_and_add_track_to_playlist, Hg. }
  split.
  { intros. eapply streamed_same; [| exact Hs].
    apply sources_remove_track_from_playlist. }
  split.
  { intros track now. unfold remove_track_from_liked_songs, bind.
    rewrite get_or_create_playlist_run.
    eapply streamed_same;
      [apply sources_remove_track_from_playlist | apply Hg]. }
  intros track now. unfold track_is_liked, bind.
  rewrite get_or_create_playlist_run.
  pose proof (Hg now) as H. now destruct track.
Qed.

Lemma tracks_stay_streamed_witness :
  streamed (session untitled_track) /\
  List.length (stream (session untitled_track)) = 2%nat /\
  map Stream.id (stream (session untitled_track)) = [1; 2].
Proof.
  destruct tracks_stay_streamed as [H0 H].
  assert (H1 : streamed
                 (session (snd (get_or_create_track "" "Artist A" "Album A"
                                  200 "http://stream/a" None
                                  (PlaylistManager_init empty_db)))))
    by apply (proj1 (proj2 (H _ H0))).
  assert (H2 : streamed (session untitled_track))
    by apply (proj1 (proj2 (H _ H1))).
  split; [exact H2 |].
  split; [rewrite (proj1 (H _ H2)); reflexivity | reflexivity].
Defined.

(** ** A track just created *)

Lemma In_tracks_of (d : Database) (P k : Z) :
  In k (tracks_of d P) ->
  exists x, In x (track d) /\ Track.id x = k /\ In P (Track.playlists x).
Proof.
  unfold tracks_of. intros H. apply in_map_iff in H as [r [Hk Hr]].
  apply filter_In in Hr as [Hr Hf]. apply Z.eqb_eq in Hf.
  apply In_playlist_track in Hr as [x [Hx [Hp Hs]]].
  exists x. split; [exact Hx |]. split; congruence.
Qed.

(** X18. In a well-formed store, when [get_track(title=title)] finds nothing (the
    title is empty or no track has it), [get_or_create_track] answers with a
    new key; the new row has the fields given, no local path, a stream with
    the url given, [liked] unset, the cover given or the empty string, and
    is in no playlist; the other tracks, every pairing and the playlists are
    untouched. *)
Theorem created_track_is_in_no_playlist (title artist album : string)
    (duration : Z) (stream_url : string) (cover_art_url : option string)
    (m : PlaylistManager) :
  wf m ->
  first_titled title (session m) = None ->
  let r := get_or_create_track title artist album duration stream_url
             cover_art_url m in
  let k := track_seq (session m) in
  fst r = Ok k /\
  find_track (session m) k = None /\
  find_track (session (snd r)) k =
    Some (Track.mk k title artist album duration None
            (Some (Stream.mk (stream_seq (session m)) (Some stream_url)))
            false
            (match cover_art_url with Some u => u | None => "" end) []) /\
  (forall P, ~ In k (tracks_of (session (snd r)) P)) /\
  (forall P, tracks_of (session (snd r)) P = tracks_of (session m) P) /\
  (forall T, T <> k ->
     find_track (session (snd r)) T = find_track (session m) T) /\
  playlist (session (snd r)) = playlist (session m) /\
  engine (snd r) = session (snd r).
Proof.
  intros Hw E r k.
  pose proof (find_track_fresh _ (proj2 Hw)) as Hfresh. fold k in Hfresh.
  assert (Er : r = _) by apply (get_or_create_track_created _ _ _ _ _ _ _ E).
  assert (Ec : (if truthy_str cover_art_url
                then match cover_art_url with Some u => u | None => "" end
                else "") =
               match cover_art_url with Some u => u | None => "" end).
  { destruct cover_art_url as [u|]; [| reflexivity]. simpl.
    destruct (String.eqb_spec u ""); [now subst | reflexivity]. }
  rewrite Ec in Er. clear Ec.
  assert (Et : track (session (snd r)) =
               (track (session m) ++
                [Track.mk k title artist album duration None
                   (Some (Stream.mk (stream_seq (session m))
                            (Some stream_url)))
                   false
                   (match cover_art_url with Some u => u | None => "" end)
                   []])%list)
    by now rewrite Er.
  assert (Htr : forall P, tracks_of (session (snd r)) P =
                          tracks_of (session m) P).
  { intros P. rewrite !tracks_of_rows, Et, flat_map_app. simpl.
    now rewrite app_nil_r. }
  split; [now rewrite Er |]. split; [exact Hfresh |].
  split.
  { unfold find_track. rewrite Et, find_app_last.
    unfold find_track in Hfresh. rewrite Hfresh. simpl.
    now rewrite Z.eqb_refl. }
  split.
  { intros P Hin. rewrite Htr in Hin.
    apply In_tracks_of in Hin as [x [Hx [Hid _]]].
    pose proof (wf_track_ids _ (proj2 Hw)) as Hb.
    rewrite Forall_forall in Hb. specialize (Hb x Hx). unfold k in Hid. lia. }
  split; [exact Htr |].
  split.
  { intros T HT. unfold find_track. rewrite Et, find_app_last. simpl.
    destruct (find (fun x => Z.eqb (Track.id x) T) (track (session m)));
      [reflexivity |].
    destruct (Z.eqb_spec k T); [congruence | reflexivity]. }
  split; now rewrite Er.
Qed.

Lemma created_track_is_in_no_playlist_witness :
  wf road_trip /\
  first_titled "Song B" (session road_trip) = None /\
  fst (get_or_create_track "Song B" "Artist B" "Album B" 245
         "http://stream/b" None road_trip) = Ok 2 /\
  find_track
    (session (snd (get_or_create_track "Song B" "Artist B" "Album B" 245
                     "http://stream/b" None road_trip))) 2
  = Some (Track.mk 2 "Song B" "Artist B" "Album B" 245 None
            (Some (Stream.mk 2 (Some "http://stream/b"))) false "" []).
Proof.
  assert (Hw : wf road_trip)
    by (unfold road_trip, liked_track, one_track; auto with store_wf).
  split; [exact Hw |]. split; [reflexivity |].
  destruct (created_track_is_in_no_playlist "Song B" "Artist B" "Album B"
              245 "http://stream/b" None road_trip Hw eq_refl)
    as (A & _ & B & _).
  split; [exact A | exact B].
Defined.

(** ** Getting a track back *)

(** X19. In a well-formed store the track [get_or_create_track] answers with is
    the one [get_track] then finds by that key and, for a non-empty title,
    by that title whatever id is given along. *)
Theorem get_or_create_track_then_get_track (title artist album : string)
    (duration : Z) (stream_url : string) (cover_art_url : option string)
    (m : PlaylistManager) :
  wf m ->
  let r := get_or_create_track title artist album duration stream_url
             cover_art_url m in
  exists k,
    fst r = Ok k /\
    get_track None (Some k) (snd r) = (Ok (Some k), snd r) /\
    (title <> "" ->
     forall id, get_track (Some title) id (snd r) = (Ok (Some k), snd r)).
Proof.
  intros Hw r.
  destruct (get_or_create_track_row title artist album duration stream_url
              cover_art_url m Hw) as [k [x [E [F [_ [_ [_ Hfirst]]]]]]].
  fold r in E, F, Hfirst.
  assert (W1 : wf (snd r)) by now apply wf_get_or_create_track.
  exists k. split; [now rewrite E |].
  split.
  - pose proof F as F'. apply find_track_In in F' as [Hx Hid].
    pose proof (wf_track_ids _ (proj2 W1)) as Hb.
    rewrite Forall_forall in Hb. specialize (Hb x Hx).
    assert (Hk0 : truthy_int (Some k) = true)
      by (simpl; apply negb_true_iff, Z.eqb_neq; lia).
    rewrite get_track_run. cbn [truthy_str]. rewrite Hk0.
    change (find (track_by_id (Some k)) (track (session (snd r))))
      with (find_track (session (snd r)) k).
    rewrite F. simpl. now rewrite Hid.
  - intros Hne id. rewrite get_track_run.
    rewrite (truthy_str_nonempty title Hne). now rewrite (Hfirst Hne).
Qed.

Lemma get_or_create_track_then_get_track_witness :
  wf road_trip /\
  "Song B" <> "" /\
  get_track (Some "Song B") (Some 1)
    (snd (get_or_create_track "Song B" "Artist B" "Album B" 245
            "http://stream/b" None road_trip))
  = (Ok (Some 2),
     snd (get_or_create_track "Song B" "Artist B" "Album B" 245
            "http://stream/b" None road_trip)).
Proof.
  assert (Hw : wf road_trip)
    by (unfold road_trip, liked_track, one_track; auto with store_wf).
  assert (Hne : "Song B" <> "") by discriminate.
  split; [exact Hw |]. split; [exact Hne |].
  destruct (get_or_create_track_then_get_track "Song B" "Artist B" "Album B"
              245 "http://stream/b" None road_trip Hw) as [k [E [_ H]]].
  assert (Hk : k = 2) by (vm_compute in E; congruence).
  subst k. apply (H Hne).
Defined.

(** ** What deleting a playlist does to the other playlists *)

Lemma count_occ_filter_other (P Q : Z) (l : list Z) :
  count_occ Z.eq_dec (filter (fun p => negb (Z.eqb p P)) l) Q =
  if Z.eq_dec P Q then 0%nat else count_occ Z.eq_dec l Q.
Proof.
  induction l as [|a l IH]; simpl.
  - now destruct (Z.eq_dec P Q).
  - destruct (Z.eqb_spec a P) as [E|E]; simpl.
    + subst a. rewrite IH.
      destruct (Z.eq_dec P Q); reflexivity.
    + rewrite IH. destruct (Z.eq_dec a Q) as [Ea|Ea];
        destruct (Z.eq_dec P Q) as [Ep|Ep]; try reflexivity.
      congruence.
Qed.

(** X20. After [delete_playlist(P)] no track is listed for [P], and every other
    playlist has the tracks, the length and the total duration it had. *)
Theorem delete_playlist_lengths (P : Z) (m : PlaylistManager) :
  let m' := snd (delete_playlist (Some P) m) in
  tracks_of (session m') P = [] /\
  get_length (session m') P = 0%nat /\
  (forall Q, Q <> P ->
     tracks_of (session m') Q = tracks_of (session m) Q /\
     get_length (session m') Q = get_length (session m) Q /\
     get_total_duration (session m') Q = get_total_duration (session m) Q).
Proof.
  intros m'.
  assert (Hs : session m' = remove_playlist P (session m)) by reflexivity.
  assert (Ht : forall Q,
            tracks_of (session m') Q =
            if Z.eq_dec P Q then [] else tracks_of (session m) Q).
  { intros Q. rewrite Hs, !tracks_of_rows. simpl.
    induction (track (session m)) as [|x ts IH]; simpl.
    - now destruct (Z.eq_dec P Q).
    - rewrite IH, count_occ_filter_other.
      destruct (Z.eq_dec P Q); reflexivity. }
  assert (Hd : forall k, duration_of (session m') k =
                         duration_of (session m) k).
  { intros k. rewrite Hs. unfold duration_of, find_track. simpl.
    rewrite find_map_same by reflexivity.
    now destruct (find _ (track (session m))). }
  split; [| split].
  - rewrite Ht. now destruct (Z.eq_dec P P).
  - unfold get_length. rewrite Ht. now destruct (Z.eq_dec P P).
  - intros Q HQ.
    assert (E : tracks_of (session m') Q = tracks_of (session m) Q).
    { rewrite Ht. destruct (Z.eq_dec P Q); [congruence | reflexivity]. }
    split; [exact E |]. split; [unfold get_length; now rewrite E |].
    rewrite !get_total_duration_sum, E. f_equal.
    apply map_ext. exact Hd.
Qed.

Lemma delete_playlist_lengths_witness :
  let m := snd (add_track_to_playlist (Some 1) 2 road_trip) in
  let m' := snd (delete_playlist (Some 2) m) in
  get_length (session m) 2 = 1%nat /\
  get_length (session m') 2 = 0%nat /\
  get_length (session m') 1 = 1%nat /\
  get_total_duration (session m') 1 = 200.
Proof.
  intros m m'.
  destruct (delete_playlist_lengths 2 m) as [_ [A B]].
  destruct (B 1) as [_ [B1 B2]]; [discriminate |].
  fold m' in A, B1, B2.
  split; [reflexivity |]. split; [exact A |].
  split; [rewrite B1 | rewrite B2]; reflexivity.
Defined.
